(** * ClipNest: the clipboard canvas of [ClipboardTab.vue]

    A shallow embedding of the canvas interaction engine (geometry,
    initial placement, item cap, undo history, pointer sessions and the
    keyboard, paste, drop and copy handlers) together with the clipboard
    write bridge of [electron/main.ts].

    Conventions of the embedding.

    - A JavaScript [number] that is only ever produced by [Math.round],
      by integer constants or by sums and differences of such values is a
      [Z]: item coordinates, sizes, z-indexes, time stamps and counters.
      Every write to [x], [y], [width] and [height] in the source is either
      a [Math.round] result or a [clamp] of integers between integer bounds.
    - A [number] that may carry a fraction (pointer coordinates, scroll
      offsets, scale factors and every intermediate value of the resize
      arithmetic) is an exact rational [Q].  [Math.round] is
      [fun q => floor (q + 1/2)], which is its ECMAScript definition on
      finite values.  Binary64 rounding error of [/] and [*] is not
      modelled; sums, differences and halves of the values that occur are
      exact in binary64.
    - Arrays are lists, [new Set(ids)] is a [gset string].
    - [ref] cells of the component are the fields of [World]; an event
      handler is a function [World -> World].  What the environment
      decides (the UUID, the clock, the viewport, decode and clipboard
      outcomes) is an explicit argument of the handler.
    - An [async] handler runs from the point where its awaited promise
      settles: [handlePaste] and [addDroppedFiles] as a whole, with the
      settled values as arguments; [copySelectedImage] in two halves, up to
      its [await] and after it, other events being free to arrive in
      between. *)

From Stdlib Require Import ZArith QArith Qround Qminmax Lia Lqa Ascii.
From stdpp Require Import base decidable list strings gmap sorting.

Local Open Scope Z_scope.

(** ** Constants *)

Definition CANVAS_WIDTH : Z := 2000.
Definition CANVAS_HEIGHT : Z := 2000.
Definition MAX_IMAGES : nat := 50.
Definition MIN_SIZE : Z := 24.
Definition INITIAL_MAX_SIDE : Z := 420.
Definition INITIAL_MIN_SIDE : Z := 80.
Definition UNDO_LIMIT : nat := 50.
Definition PLACEMENT_OFFSET_STEP : Z := 24.

(** ** Data model ([types/models.ts]) *)

Inductive ItemSource := SourcePaste | SourceDrop.

Record CanvasImageItem := {
  id : string;
  source : ItemSource;
  dataUrl : string;
  naturalWidth : Z;
  naturalHeight : Z;
  x : Z;
  y : Z;
  width : Z;
  height : Z;
  zIndex : Z;
  createdAt : Z
}.

Record ClipboardCanvasState := {
  items : list CanvasImageItem;
  selectedId : option string;
  nextZIndex : Z;
  placementOffsetIndex : Z
}.

(** [ClipboardCanvasSnapshot] has the same four fields. *)
Definition ClipboardCanvasSnapshot : Type := ClipboardCanvasState.

Record ClipboardImagePayload := {
  cip_base64 : string;
  cip_width : Z;
  cip_height : Z
}.

Record ClipboardWritePayload := {
  cwp_mimeType : string;
  cwp_base64 : string
}.

Inductive ClipboardWriteFailureReason :=
  invalid_payload | decode_failed | write_failed.

Record ClipboardWriteResult := {
  ok : bool;
  reason : option ClipboardWriteFailureReason
}.

Inductive ResizeHandle := Hn | Hne | He | Hse | Hs | Hsw | Hw | Hnw.

Inductive Direction := DirN | DirE | DirS | DirW.

(** [handle.includes("n")] and its three siblings. *)
Definition includes (h : ResizeHandle) (d : Direction) : bool :=
  match d, h with
  | DirN, (Hn | Hne | Hnw) => true
  | DirE, (He | Hne | Hse) => true
  | DirS, (Hs | Hse | Hsw) => true
  | DirW, (Hw | Hsw | Hnw) => true
  | _, _ => false
  end.

(** [handle.length === 2] *)
Definition isCornerHandle (h : ResizeHandle) : bool :=
  match h with
  | Hne | Hse | Hsw | Hnw => true
  | _ => false
  end.

Record MoveInteraction := {
  mv_itemId : string;
  mv_startClientX : Q;
  mv_startClientY : Q;
  mv_startX : Z;
  mv_startY : Z;
  mv_startSnapshot : ClipboardCanvasSnapshot
}.

Record ResizeInteraction := {
  rs_itemId : string;
  rs_handle : ResizeHandle;
  rs_startClientX : Q;
  rs_startClientY : Q;
  rs_startX : Z;
  rs_startY : Z;
  rs_startWidth : Z;
  rs_startHeight : Z;
  rs_startSnapshot : ClipboardCanvasSnapshot
}.

Inductive Interaction :=
| Move (m : MoveInteraction)
| Resize (r : ResizeInteraction).

Definition itemId (i : Interaction) : string :=
  match i with Move m => mv_itemId m | Resize r => rs_itemId r end.

Definition startSnapshot (i : Interaction) : ClipboardCanvasSnapshot :=
  match i with Move m => mv_startSnapshot m | Resize r => rs_startSnapshot r end.

Definition startClientX (i : Interaction) : Q :=
  match i with Move m => mv_startClientX m | Resize r => rs_startClientX r end.

Definition startClientY (i : Interaction) : Q :=
  match i with Move m => mv_startClientY m | Resize r => rs_startClientY r end.

(** The transient notice line.  One constructor per message text of the
    component; the two texts built from counters carry the counters. *)
Inductive Notice :=
| NoticeHint                        (* initial usage hint *)
| NoticeUndone                      (* undo *)
| NoticeDeleted                     (* removeSelectedItem *)
| NoticeDropNoImage                 (* addDroppedFiles: no image file *)
| NoticeDropNoneAdded               (* addDroppedFiles: every file failed *)
| NoticeDropPartly (successCount failureCount : nat)
| NoticeDropAdded (successCount : nat)
| NoticeCopyNoData                  (* copySelectedImage: no base64 part *)
| NoticeCopied
| NoticeCopyInvalidPayload
| NoticeCopyDecodeFailed
| NoticeCopyWriteFailed
| NoticeCopyFailed                  (* default text, also used by catch *)
| NoticeClipboardEmpty              (* handlePaste: nothing to paste *)
| NoticePasted
| NoticePasteFailed.

Record World := {
  state : ClipboardCanvasState;
  undoStack : list ClipboardCanvasSnapshot;
  noticeMessage : Notice;
  isDragActive : bool;
  interaction : option Interaction
}.

Definition initialState : ClipboardCanvasState :=
  {| items := []; selectedId := None; nextZIndex := 1; placementOffsetIndex := 0 |}.

Definition initialWorld : World :=
  {| state := initialState; undoStack := []; noticeMessage := NoticeHint;
     isDragActive := false; interaction := None |}.

(** Field updates of the two mutable aggregates. *)
Definition with_items (l : list CanvasImageItem) (s : ClipboardCanvasState) :=
  {| items := l; selectedId := selectedId s; nextZIndex := nextZIndex s;
     placementOffsetIndex := placementOffsetIndex s |}.
Definition with_selectedId (o : option string) (s : ClipboardCanvasState) :=
  {| items := items s; selectedId := o; nextZIndex := nextZIndex s;
     placementOffsetIndex := placementOffsetIndex s |}.
Definition with_nextZIndex (z : Z) (s : ClipboardCanvasState) :=
  {| items := items s; selectedId := selectedId s; nextZIndex := z;
     placementOffsetIndex := placementOffsetIndex s |}.
Definition with_placementOffsetIndex (z : Z) (s : ClipboardCanvasState) :=
  {| items := items s; selectedId := selectedId s; nextZIndex := nextZIndex s;
     placementOffsetIndex := z |}.

Definition with_state (s : ClipboardCanvasState) (w : World) :=
  {| state := s; undoStack := undoStack w; noticeMessage := noticeMessage w;
     isDragActive := isDragActive w; interaction := interaction w |}.
Definition with_undoStack (u : list ClipboardCanvasSnapshot) (w : World) :=
  {| state := state w; undoStack := u; noticeMessage := noticeMessage w;
     isDragActive := isDragActive w; interaction := interaction w |}.
Definition with_notice (n : Notice) (w : World) :=
  {| state := state w; undoStack := undoStack w; noticeMessage := n;
     isDragActive := isDragActive w; interaction := interaction w |}.
Definition with_isDragActive (b : bool) (w : World) :=
  {| state := state w; undoStack := undoStack w; noticeMessage := noticeMessage w;
     isDragActive := b; interaction := interaction w |}.
Definition with_interaction (i : option Interaction) (w : World) :=
  {| state := state w; undoStack := undoStack w; noticeMessage := noticeMessage w;
     isDragActive := isDragActive w; interaction := i |}.

(** ** Numbers *)

(** [Math.round]: the nearest integer, ties towards plus infinity. *)
Definition jsRound (q : Q) : Z := Qfloor (q + (1 # 2)).

Definition Qltb (a b : Q) : bool := negb (Qle_bool b a).

(** [clamp] of the component, on fractional values. *)
Definition clamp (value min max : Q) : Q :=
  if Qltb max min then min else Qmin max (Qmax min value).

(** The same [clamp] where all three arguments are integers. *)
Definition clampZ (value min max : Z) : Z :=
  if max <? min then min else Z.min max (Z.max min value).

(** ** Geometry engine *)

Record Geometry := {
  g_x : Z;
  g_y : Z;
  g_width : Z;
  g_height : Z
}.

Local Open Scope Q_scope.

(** The body of [computeEdgeResize] assigns to four local variables.  Each
    assignment is one [let] below (a variable assigned under an [if] keeps
    its previous value in the other branch); where one [if] of the source
    assigns two variables, both [let]s test the condition on the values
    from before that [if]. *)
Definition computeEdgeResize
    (current : ResizeInteraction) (deltaX deltaY : Q) : Geometry :=
  let handle := rs_handle current in
  let startX := inject_Z (rs_startX current) in
  let startY := inject_Z (rs_startY current) in
  let startWidth := inject_Z (rs_startWidth current) in
  let startHeight := inject_Z (rs_startHeight current) in
  let minSize := inject_Z MIN_SIZE in
  let canvasWidth := inject_Z CANVAS_WIDTH in
  let canvasHeight := inject_Z CANVAS_HEIGHT in
  (* let nextX = startX, nextY = startY, nextWidth = ..., nextHeight = ... *)
  (* if (handle.includes("e")) *)
  let nextWidth1 := if includes handle DirE then startWidth + deltaX else startWidth in
  (* if (handle.includes("s")) *)
  let nextHeight1 := if includes handle DirS then startHeight + deltaY else startHeight in
  (* if (handle.includes("w")) *)
  let nextWidth2 := if includes handle DirW then startWidth - deltaX else nextWidth1 in
  let nextX2 := if includes handle DirW then startX + deltaX else startX in
  (* if (handle.includes("n")) *)
  let nextHeight2 := if includes handle DirN then startHeight - deltaY else nextHeight1 in
  let nextY2 := if includes handle DirN then startY + deltaY else startY in
  (* if (nextWidth < MIN_SIZE) *)
  let nextX3 :=
    if Qltb nextWidth2 minSize
    then (if includes handle DirW then startX + (startWidth - minSize) else nextX2)
    else nextX2 in
  let nextWidth3 := if Qltb nextWidth2 minSize then minSize else nextWidth2 in
  (* if (nextHeight < MIN_SIZE) *)
  let nextY3 :=
    if Qltb nextHeight2 minSize
    then (if includes handle DirN then startY + (startHeight - minSize) else nextY2)
    else nextY2 in
  let nextHeight3 := if Qltb nextHeight2 minSize then minSize else nextHeight2 in
  (* if (nextX < 0) *)
  let nextWidth4 :=
    if Qltb nextX3 0
    then (if includes handle DirW then nextWidth3 + nextX3 else nextWidth3)
    else nextWidth3 in
  let nextX4 := if Qltb nextX3 0 then 0 else nextX3 in
  (* if (nextY < 0) *)
  let nextHeight4 :=
    if Qltb nextY3 0
    then (if includes handle DirN then nextHeight3 + nextY3 else nextHeight3)
    else nextHeight3 in
  let nextY4 := if Qltb nextY3 0 then 0 else nextY3 in
  (* if (nextX + nextWidth > CANVAS_WIDTH) *)
  let nextWidth5 :=
    if Qltb canvasWidth (nextX4 + nextWidth4)
    then (if includes handle DirE then canvasWidth - nextX4 else nextWidth4)
    else nextWidth4 in
  let nextX5 :=
    if Qltb canvasWidth (nextX4 + nextWidth4)
    then (if includes handle DirE then nextX4 else canvasWidth - nextWidth4)
    else nextX4 in
  (* if (nextY + nextHeight > CANVAS_HEIGHT) *)
  let nextHeight5 :=
    if Qltb canvasHeight (nextY4 + nextHeight4)
    then (if includes handle DirS then canvasHeight - nextY4 else nextHeight4)
    else nextHeight4 in
  let nextY5 :=
    if Qltb canvasHeight (nextY4 + nextHeight4)
    then (if includes handle DirS then nextY4 else canvasHeight - nextHeight4)
    else nextY4 in
  let nextWidth6 := Qmax minSize nextWidth5 in
  let nextHeight6 := Qmax minSize nextHeight5 in
  let nextX6 := clamp nextX5 0 (canvasWidth - nextWidth6) in
  let nextY6 := clamp nextY5 0 (canvasHeight - nextHeight6) in
  {| g_x := jsRound nextX6; g_y := jsRound nextY6;
     g_width := jsRound nextWidth6; g_height := jsRound nextHeight6 |}.

(** [computeCornerResize], its named intermediate values first.  The
    start geometry is integral, so the anchor and the canvas room are
    integers; the pointer position, the raw sizes and the scale factors
    are rationals.  [Number.isFinite(scale)] can only fail when a start
    side is zero; rational division has no infinities, and every statement
    below about these functions assumes start sides of at least
    [MIN_SIZE]. *)

(* minScale = Math.max(MIN_SIZE / startWidth, MIN_SIZE / startHeight) *)
Definition cornerMinScale (current : ResizeInteraction) : Q :=
  Qmax (inject_Z MIN_SIZE / inject_Z (rs_startWidth current))
       (inject_Z MIN_SIZE / inject_Z (rs_startHeight current)).

(* anchorX = handle.includes("w") ? startX + startWidth : startX *)
Definition cornerAnchorX (current : ResizeInteraction) : Z :=
  if includes (rs_handle current) DirW
  then rs_startX current + rs_startWidth current else rs_startX current.

(* anchorY = handle.includes("n") ? startY + startHeight : startY *)
Definition cornerAnchorY (current : ResizeInteraction) : Z :=
  if includes (rs_handle current) DirN
  then rs_startY current + rs_startHeight current else rs_startY current.

(* pointerX = handle.includes("w") ? startX + deltaX : startX + startWidth + deltaX
   rawWidth = handle.includes("w") ? anchorX - pointerX : pointerX - anchorX *)
Definition cornerRawWidth (current : ResizeInteraction) (deltaX : Q) : Q :=
  let startX := inject_Z (rs_startX current) in
  let startWidth := inject_Z (rs_startWidth current) in
  let anchorX := inject_Z (cornerAnchorX current) in
  let pointerX :=
    if includes (rs_handle current) DirW then startX + deltaX
    else startX + startWidth + deltaX in
  if includes (rs_handle current) DirW then anchorX - pointerX else pointerX - anchorX.

(* pointerY and rawHeight, likewise with "n" *)
Definition cornerRawHeight (current : ResizeInteraction) (deltaY : Q) : Q :=
  let startY := inject_Z (rs_startY current) in
  let startHeight := inject_Z (rs_startHeight current) in
  let anchorY := inject_Z (cornerAnchorY current) in
  let pointerY :=
    if includes (rs_handle current) DirN then startY + deltaY
    else startY + startHeight + deltaY in
  if includes (rs_handle current) DirN then anchorY - pointerY else pointerY - anchorY.

(* maxWidth = handle.includes("w") ? anchorX : CANVAS_WIDTH - anchorX *)
Definition cornerMaxWidth (current : ResizeInteraction) : Z :=
  if includes (rs_handle current) DirW
  then cornerAnchorX current else CANVAS_WIDTH - cornerAnchorX current.

(* maxHeight = handle.includes("n") ? anchorY : CANVAS_HEIGHT - anchorY *)
Definition cornerMaxHeight (current : ResizeInteraction) : Z :=
  if includes (rs_handle current) DirN
  then cornerAnchorY current else CANVAS_HEIGHT - cornerAnchorY current.

(* maxScale = Math.max(minScale,
                       Math.min(maxWidth / startWidth, maxHeight / startHeight)) *)
Definition cornerMaxScale (current : ResizeInteraction) : Q :=
  Qmax (cornerMinScale current)
       (Qmin (inject_Z (cornerMaxWidth current) / inject_Z (rs_startWidth current))
             (inject_Z (cornerMaxHeight current) / inject_Z (rs_startHeight current))).

(* scale = Math.max(rawWidth / startWidth, rawHeight / startHeight, minScale)
   scale = clamp(scale, minScale, maxScale) *)
Definition cornerScale (current : ResizeInteraction) (deltaX deltaY : Q) : Q :=
  let startWidth := inject_Z (rs_startWidth current) in
  let startHeight := inject_Z (rs_startHeight current) in
  let minScale := cornerMinScale current in
  let scale :=
    Qmax (Qmax (cornerRawWidth current deltaX / startWidth)
               (cornerRawHeight current deltaY / startHeight))
         minScale in
  clamp scale minScale (cornerMaxScale current).

Definition computeCornerResize
    (current : ResizeInteraction) (deltaX deltaY : Q) : Geometry :=
  let handle := rs_handle current in
  let anchorX := inject_Z (cornerAnchorX current) in
  let anchorY := inject_Z (cornerAnchorY current) in
  let scale := cornerScale current deltaX deltaY in
  let width := Z.max MIN_SIZE (jsRound (inject_Z (rs_startWidth current) * scale)) in
  let height := Z.max MIN_SIZE (jsRound (inject_Z (rs_startHeight current) * scale)) in
  let x0 := if includes handle DirW then anchorX - inject_Z width else anchorX in
  let y0 := if includes handle DirN then anchorY - inject_Z height else anchorY in
  let x1 := clamp x0 0 (inject_Z CANVAS_WIDTH - inject_Z width) in
  let y1 := clamp y0 0 (inject_Z CANVAS_HEIGHT - inject_Z height) in
  {| g_x := jsRound x1; g_y := jsRound y1; g_width := width; g_height := height |}.

Local Close Scope Q_scope.

(** ** Canvas state store *)

#[global] Instance ItemSource_eq_dec : EqDecision ItemSource.
Proof. solve_decision. Defined.

#[global] Instance CanvasImageItem_eq_dec : EqDecision CanvasImageItem.
Proof. solve_decision. Defined.

Definition item_with_zIndex (z : Z) (item : CanvasImageItem) : CanvasImageItem :=
  {| id := id item; source := source item; dataUrl := dataUrl item;
     naturalWidth := naturalWidth item; naturalHeight := naturalHeight item;
     x := x item; y := y item; width := width item; height := height item;
     zIndex := z; createdAt := createdAt item |}.

Definition item_with_position (nx ny : Z) (item : CanvasImageItem) : CanvasImageItem :=
  {| id := id item; source := source item; dataUrl := dataUrl item;
     naturalWidth := naturalWidth item; naturalHeight := naturalHeight item;
     x := nx; y := ny; width := width item; height := height item;
     zIndex := zIndex item; createdAt := createdAt item |}.

Definition item_with_geometry (g : Geometry) (item : CanvasImageItem) : CanvasImageItem :=
  {| id := id item; source := source item; dataUrl := dataUrl item;
     naturalWidth := naturalWidth item; naturalHeight := naturalHeight item;
     x := g_x g; y := g_y g; width := g_width g; height := g_height g;
     zIndex := zIndex item; createdAt := createdAt item |}.

(** [items.map((item) => ({ ...item }))] *)
Definition deepCloneItems (l : list CanvasImageItem) : list CanvasImageItem :=
  map (λ item,
         {| id := id item; source := source item; dataUrl := dataUrl item;
            naturalWidth := naturalWidth item; naturalHeight := naturalHeight item;
            x := x item; y := y item; width := width item; height := height item;
            zIndex := zIndex item; createdAt := createdAt item |}) l.

(** The object literal shared by [createSnapshot], [applySnapshot] and
    [pushUndo]: fresh item records, the three scalar fields copied. *)
Definition cloneSnapshot (s : ClipboardCanvasSnapshot) : ClipboardCanvasSnapshot :=
  {| items := deepCloneItems (items s); selectedId := selectedId s;
     nextZIndex := nextZIndex s; placementOffsetIndex := placementOffsetIndex s |}.

Definition createSnapshot (w : World) : ClipboardCanvasSnapshot :=
  cloneSnapshot (state w).

Definition applySnapshot (snapshot : ClipboardCanvasSnapshot) (w : World) : World :=
  with_state (cloneSnapshot snapshot) w.

(** [JSON.stringify] of the three compared fields.  Serialisation of a
    list of item records with a fixed key order is injective, so the
    serialised value is modelled by the triple itself. *)
Definition toUndoComparable (snapshot : ClipboardCanvasSnapshot)
  : list CanvasImageItem * Z * Z :=
  (items snapshot, nextZIndex snapshot, placementOffsetIndex snapshot).

Definition isUndoTargetChanged (before after : ClipboardCanvasSnapshot) : bool :=
  negb (bool_decide (toUndoComparable before = toUndoComparable after)).

Definition pushUndo (snapshot : ClipboardCanvasSnapshot) (w : World) : World :=
  let nextSnapshot := cloneSnapshot snapshot in
  let stack := undoStack w ++ [nextSnapshot] in
  let stack :=
    if (UNDO_LIMIT <? length stack)%nat
    then drop (length stack - UNDO_LIMIT) stack else stack in
  with_undoStack stack w.

Definition canUndo (w : World) : bool := (0 <? length (undoStack w))%nat.

Definition isSome {A} (o : option A) : bool :=
  match o with Some _ => true | None => false end.

Definition undo (w : World) : World :=
  if negb (canUndo w) || isSome (interaction w) then w
  else
    match last (undoStack w) with
    | None => w
    | Some snapshot =>
        let w := with_undoStack (take (length (undoStack w) - 1) (undoStack w)) w in
        let w := applySnapshot snapshot w in
        with_notice NoticeUndone w
    end.

Definition getItemById (itemId : string) (s : ClipboardCanvasState)
  : option CanvasImageItem :=
  List.find (λ item, bool_decide (id item = itemId)) (items s).

Definition updateItem (itemId : string)
    (updater : CanvasImageItem → CanvasImageItem)
    (s : ClipboardCanvasState) : ClipboardCanvasState :=
  with_items
    (map (λ item, if bool_decide (id item = itemId) then updater item else item)
         (items s)) s.

(** [selectedItem]: the computed property. *)
Definition selectedItem (s : ClipboardCanvasState) : option CanvasImageItem :=
  match selectedId s with
  | Some sel => getItemById sel s
  | None => None
  end.

(** Truthiness of a [string | null]: neither [null] nor the empty string. *)
Definition truthy (o : option string) : bool :=
  match o with
  | Some s => negb (bool_decide (s = EmptyString))
  | None => false
  end.

Definition bringToFront (itemId : string) (s : ClipboardCanvasState)
  : ClipboardCanvasState * bool :=
  match getItemById itemId s with
  | None => (s, false)
  | Some current =>
      let currentMaxZ :=
        fold_left (λ maxZ item, Z.max maxZ (zIndex item)) (items s) 0 in
      if currentMaxZ <=? zIndex current then (s, false)
      else
        let nextZ := nextZIndex s in
        let s := with_nextZIndex (nextZIndex s + 1) s in
        (updateItem itemId (item_with_zIndex nextZ) s, true)
  end.

Definition selectItem (itemId : string) (s : ClipboardCanvasState)
  : ClipboardCanvasState :=
  fst (bringToFront itemId (with_selectedId (Some itemId) s)).

(** [Array.prototype.sort] with the comparator
    [a.createdAt - b.createdAt].  The sort is stable (ECMAScript 2019), and
    a stable sort by a key has one result; it is computed here by
    insertion, an element going in front of the first element of the
    sorted tail that is not older than it. *)
Fixpoint insertByCreatedAt (a : CanvasImageItem) (l : list CanvasImageItem)
  : list CanvasImageItem :=
  match l with
  | [] => [a]
  | b :: l' =>
      if createdAt a <=? createdAt b then a :: b :: l'
      else b :: insertByCreatedAt a l'
  end.

Definition sortByCreatedAt (l : list CanvasImageItem) : list CanvasImageItem :=
  foldr insertByCreatedAt [] l.

Definition removeIdsOf (l : list CanvasImageItem) (overflow : nat) : gset string :=
  list_to_set (map id (take overflow (sortByCreatedAt l))).

Definition enforceImageLimit (s : ClipboardCanvasState) : ClipboardCanvasState :=
  if (length (items s) <=? MAX_IMAGES)%nat then s
  else
    let overflow := (length (items s) - MAX_IMAGES)%nat in
    let removeIds := removeIdsOf (items s) overflow in
    let s := with_items (filter (λ item, id item ∉ removeIds) (items s)) s in
    match selectedId s with
    | Some sel =>
        if truthy (selectedId s) && bool_decide (sel ∈ removeIds)
        then with_selectedId None s else s
    | None => s
    end.

(** ** Ingestion and placement *)

Local Open Scope Q_scope.

Definition normalizeInitialSize (naturalWidth naturalHeight : Z) : Z * Z :=
  let width := Z.max 1 naturalWidth in
  let height := Z.max 1 naturalHeight in
  let longest := Z.max width height in
  let scale : Q :=
    if (INITIAL_MAX_SIDE <? longest)%Z
    then inject_Z INITIAL_MAX_SIDE / inject_Z longest
    else if (longest <? INITIAL_MIN_SIDE)%Z
         then inject_Z INITIAL_MIN_SIDE / inject_Z longest
         else 1 in
  (Z.max MIN_SIZE (jsRound (inject_Z width * scale)),
   Z.max MIN_SIZE (jsRound (inject_Z height * scale))).

(** What [getViewportCenter] reads from the scroll container. *)
Record Viewport := {
  scrollLeft : Q;
  scrollTop : Q;
  clientWidth : Z;
  clientHeight : Z
}.

Definition getViewportCenter (viewport : option Viewport) : Q * Q :=
  match viewport with
  | None => (inject_Z CANVAS_WIDTH / 2, inject_Z CANVAS_HEIGHT / 2)
  | Some v =>
      (scrollLeft v + inject_Z (clientWidth v) / 2,
       scrollTop v + inject_Z (clientHeight v) / 2)
  end.

Definition isOutOfBounds (px py width height : Z) : bool :=
  ((px <? 0) || (py <? 0) || (CANVAS_WIDTH <? px + width)
   || (CANVAS_HEIGHT <? py + height))%Z.

(** The local function [calc] of [resolveInitialPlacement]. *)
Definition calc (center : Q * Q) (width height : Z) (offsetIndex : Z) : Z * Z :=
  (jsRound (fst center - inject_Z width / 2
            + inject_Z (offsetIndex * PLACEMENT_OFFSET_STEP)),
   jsRound (snd center - inject_Z height / 2
            + inject_Z (offsetIndex * PLACEMENT_OFFSET_STEP))).

Definition resolveInitialPlacement (viewport : option Viewport) (width height : Z)
    (s : ClipboardCanvasState) : (Z * Z) * ClipboardCanvasState :=
  let center := getViewportCenter viewport in
  let offsetIndex := placementOffsetIndex s in
  let point := calc center width height offsetIndex in
  let '(offsetIndex, point) :=
    if isOutOfBounds (fst point) (snd point) width height
    then (0%Z, calc center width height 0)
    else (offsetIndex, point) in
  let s := with_placementOffsetIndex (offsetIndex + 1)%Z s in
  ((clampZ (fst point) 0 (CANVAS_WIDTH - width),
    clampZ (snd point) 0 (CANVAS_HEIGHT - height)), s).

Local Close Scope Q_scope.

(** What the environment supplies to one [createCanvasItem] call: the
    scroll container (if mounted), [crypto.randomUUID()] and [Date.now()]. *)
Record AddEnv := {
  env_viewport : option Viewport;
  env_uuid : string;
  env_now : Z
}.

Definition createCanvasItem (env : AddEnv) (url : string)
    (natWidth natHeight : Z) (src : ItemSource)
    (s : ClipboardCanvasState) : CanvasImageItem * ClipboardCanvasState :=
  let size := normalizeInitialSize natWidth natHeight in
  let '(placement, s) := resolveInitialPlacement (env_viewport env) (fst size) (snd size) s in
  let nextZ := nextZIndex s in
  let s := with_nextZIndex (nextZIndex s + 1) s in
  ({| id := env_uuid env; source := src; dataUrl := url;
      naturalWidth := natWidth; naturalHeight := natHeight;
      x := fst placement; y := snd placement;
      width := fst size; height := snd size;
      zIndex := nextZ; createdAt := env_now env |}, s).

Definition addCanvasItem (env : AddEnv) (url : string)
    (natWidth natHeight : Z) (src : ItemSource)
    (s : ClipboardCanvasState) : ClipboardCanvasState :=
  let '(newItem, s) := createCanvasItem env url natWidth natHeight src s in
  let s := with_items (items s ++ [newItem]) s in
  let s := with_selectedId (Some (id newItem)) s in
  enforceImageLimit s.

(** Returns the new state and whether an item was removed. *)
Definition removeItem (itemId : string) (s : ClipboardCanvasState)
  : ClipboardCanvasState * bool :=
  let beforeLength := length (items s) in
  let s := with_items (filter (λ item, id item ≠ itemId) (items s)) s in
  let changed := negb (length (items s) =? beforeLength)%nat in
  let s :=
    if changed && bool_decide (selectedId s = Some itemId)
    then with_selectedId None s else s in
  (s, changed).

Definition removeSelectedItem (trackUndo : bool) (w : World) : World :=
  match selectedId (state w) with
  | Some sel =>
      if negb (truthy (selectedId (state w))) then w
      else
        let beforeSnapshot := createSnapshot w in
        let '(s, removed) := removeItem sel (state w) in
        let w := with_state s w in
        if negb removed then w
        else
          let w := if trackUndo then pushUndo beforeSnapshot w else w in
          with_notice NoticeDeleted w
  | None => w
  end.

(** The outcome of [readFileAsDataUrl] followed by [convertToPngDataUrl]
    for one file: the PNG data URL with its pixel size, or a rejection. *)
Record PngImage := {
  png_dataUrl : string;
  png_width : Z;
  png_height : Z
}.

Record DroppedFile := {
  file_type : string;
  file_decoded : option PngImage;
  file_env : AddEnv
}.

(** One turn of the [for ... of] loop of [addDroppedFiles]; the
    accumulator is the world with the two counters. *)
Definition addDroppedFile (acc : World * nat * nat) (file : DroppedFile)
  : World * nat * nat :=
  let '(w, successCount, failureCount) := acc in
  match file_decoded file with
  | Some pngImage =>
      (with_state
         (addCanvasItem (file_env file) (png_dataUrl pngImage)
            (png_width pngImage) (png_height pngImage) SourceDrop (state w)) w,
       S successCount, failureCount)
  | None => (w, successCount, S failureCount)
  end.

(** [addDroppedFiles], run without another handler between its awaits. *)
Definition addDroppedFiles (fileList : list DroppedFile) (w : World) : World :=
  let imageFiles :=
    List.filter (λ file, String.prefix "image/" (file_type file)) fileList in
  if (length imageFiles =? 0)%nat then with_notice NoticeDropNoImage w
  else
    let beforeSnapshot := createSnapshot w in
    let '(w, successCount, failureCount) :=
      fold_left addDroppedFile imageFiles (w, 0%nat, 0%nat) in
    if (successCount =? 0)%nat then with_notice NoticeDropNoneAdded w
    else
      let w := pushUndo beforeSnapshot w in
      if (0 <? failureCount)%nat
      then with_notice (NoticeDropPartly successCount failureCount) w
      else with_notice (NoticeDropAdded successCount) w.

Definition addImageFromClipboard (env : AddEnv) (mimeType : string)
    (payload : ClipboardImagePayload) (s : ClipboardCanvasState)
  : ClipboardCanvasState :=
  addCanvasItem env ("data:" +:+ mimeType +:+ ";base64," +:+ cip_base64 payload)
    (cip_width payload) (cip_height payload) SourcePaste s.

(** [dataUrl.indexOf(",")] and [dataUrl.slice(commaIndex + 1)] in one pass. *)
Fixpoint extractBase64 (url : string) : option string :=
  match url with
  | EmptyString => None
  | String c rest => if Ascii.eqb c ","%char then Some rest else extractBase64 rest
  end.

Definition getCopyFailureMessage (r : option ClipboardWriteFailureReason) : Notice :=
  match r with
  | Some invalid_payload => NoticeCopyInvalidPayload
  | Some decode_failed => NoticeCopyDecodeFailed
  | Some write_failed => NoticeCopyWriteFailed
  | None => NoticeCopyFailed
  end.

(** [copySelectedImage] up to its [await]: the new world and, when the
    clipboard-write contract is invoked, the payload it is invoked with. *)
Definition copySelectedImage (active : bool) (w : World)
  : World * option ClipboardWritePayload :=
  if negb active then (w, None)
  else
    match selectedItem (state w) with
    | None => (w, None)
    | Some item =>
        match extractBase64 (dataUrl item) with
        | Some base64 =>
            if bool_decide (base64 = EmptyString) then (with_notice NoticeCopyNoData w, None)
            else (w, Some {| cwp_mimeType := "image/png"; cwp_base64 := base64 |})
        | None => (with_notice NoticeCopyNoData w, None)
        end
    end.

(** How the promise of [window.desktopApi.writeClipboardImage] settles. *)
Inductive WriteOutcome :=
| Resolved (result : ClipboardWriteResult)
| Rejected.

(** The rest of [copySelectedImage], after the [await]. *)
Definition copySelectedImage_settled (o : WriteOutcome) (w : World) : World :=
  match o with
  | Resolved result =>
      if ok result then with_notice NoticeCopied w
      else with_notice (getCopyFailureMessage (reason result)) w
  | Rejected => with_notice NoticeCopyFailed w
  end.

(** ** Interaction controller *)

Definition stopInteraction (commitHistory : bool) (w : World) : World :=
  let current := interaction w in
  let w := with_interaction None w in
  match current with
  | Some current =>
      if negb commitHistory then w
      else
        let currentSnapshot := createSnapshot w in
        if isUndoTargetChanged (startSnapshot current) currentSnapshot
        then pushUndo (startSnapshot current) w
        else w
  | None => w
  end.

Definition handlePointerUp (w : World) : World := stopInteraction true w.

Local Open Scope Q_scope.

Definition handlePointerMove (clientX clientY : Q) (w : World) : World :=
  match interaction w with
  | None => w
  | Some currentInteraction =>
      match getItemById (itemId currentInteraction) (state w) with
      | None => stopInteraction false w
      | Some item =>
          let deltaX := clientX - startClientX currentInteraction in
          let deltaY := clientY - startClientY currentInteraction in
          match currentInteraction with
          | Move m =>
              let nextX :=
                clamp (inject_Z (mv_startX m) + deltaX) 0
                      (inject_Z CANVAS_WIDTH - inject_Z (width item)) in
              let nextY :=
                clamp (inject_Z (mv_startY m) + deltaY) 0
                      (inject_Z CANVAS_HEIGHT - inject_Z (height item)) in
              with_state
                (updateItem (mv_itemId m)
                   (item_with_position (jsRound nextX) (jsRound nextY)) (state w)) w
          | Resize r =>
              let geometry :=
                if isCornerHandle (rs_handle r)
                then computeCornerResize r deltaX deltaY
                else computeEdgeResize r deltaX deltaY in
              with_state
                (updateItem (rs_itemId r) (item_with_geometry geometry) (state w)) w
          end
      end
  end.

Local Close Scope Q_scope.

Definition startMove (active : bool) (button : Z) (clientX clientY : Q)
    (itemId : string) (w : World) : World :=
  if negb active || negb (button =? 0) then w
  else
    match getItemById itemId (state w) with
    | None => w
    | Some item =>
        let startSnapshot := createSnapshot w in
        let w := with_state (selectItem itemId (state w)) w in
        with_interaction
          (Some (Move {| mv_itemId := itemId;
                         mv_startClientX := clientX; mv_startClientY := clientY;
                         mv_startX := x item; mv_startY := y item;
                         mv_startSnapshot := startSnapshot |})) w
    end.

Definition startResize (active : bool) (button : Z) (clientX clientY : Q)
    (itemId : string) (handle : ResizeHandle) (w : World) : World :=
  if negb active || negb (button =? 0) then w
  else
    match getItemById itemId (state w) with
    | None => w
    | Some item =>
        let startSnapshot := createSnapshot w in
        let w := with_state (selectItem itemId (state w)) w in
        with_interaction
          (Some (Resize {| rs_itemId := itemId; rs_handle := handle;
                           rs_startClientX := clientX; rs_startClientY := clientY;
                           rs_startX := x item; rs_startY := y item;
                           rs_startWidth := width item; rs_startHeight := height item;
                           rs_startSnapshot := startSnapshot |})) w
    end.

Definition clearSelection (active : bool) (button : Z) (w : World) : World :=
  if negb active || negb (button =? 0) then w
  else with_state (with_selectedId None (state w)) w.

(** How [window.desktopApi.readClipboardImage()] settles. *)
Inductive ReadOutcome :=
| ReadImage (mimeType : string) (payload : ClipboardImagePayload)
| ReadNothing
| ReadRejected.

Definition handlePaste (active : bool) (r : ReadOutcome) (env : AddEnv)
    (w : World) : World :=
  if negb active then w
  else
    match r with
    | ReadRejected => with_notice NoticePasteFailed w
    | ReadNothing => with_notice NoticeClipboardEmpty w
    | ReadImage mimeType payload =>
        let beforeSnapshot := createSnapshot w in
        let w := with_state (addImageFromClipboard env mimeType payload (state w)) w in
        let w := pushUndo beforeSnapshot w in
        with_notice NoticePasted w
    end.

Record KeyboardEvent := {
  ctrlKey : bool;
  metaKey : bool;
  key : string
}.

(** [event.key.toLowerCase() === c] for a one-letter lower-case [c]. *)
Definition keyIsLetter (ev : KeyboardEvent) (lower upper : string) : bool :=
  bool_decide (key ev = lower) || bool_decide (key ev = upper).

(** [focused] is the value of [isTextInputFocused()]. *)
Definition handleKeyDown (active focused : bool) (ev : KeyboardEvent) (w : World)
  : World * option ClipboardWritePayload :=
  if negb active || focused then (w, None)
  else if (ctrlKey ev || metaKey ev) && keyIsLetter ev "c" "C" then
    if negb (truthy (selectedId (state w))) then (w, None)
    else copySelectedImage active w
  else if (ctrlKey ev || metaKey ev) && keyIsLetter ev "z" "Z" then
    if negb (canUndo w) || isSome (interaction w) then (w, None)
    else (undo w, None)
  else if bool_decide (key ev = "Delete") then
    if negb (truthy (selectedId (state w))) then (w, None)
    else (removeSelectedItem true w, None)
  else (w, None).

Definition onCanvasDrop (active : bool) (files : option (list DroppedFile))
    (w : World) : World :=
  let w := with_isDragActive false w in
  if negb active then w
  else
    match files with
    | None => w
    | Some fileList => addDroppedFiles fileList w
    end.

(** ** Events

    Every listener and template binding of the component, with what the
    environment contributes to it. *)
Inductive Event :=
| EvPaste (active : bool) (r : ReadOutcome) (env : AddEnv)
| EvKeyDown (active focused : bool) (ev : KeyboardEvent)
| EvCopyClick (active : bool)
| EvCopySettled (o : WriteOutcome)
| EvUndoClick
| EvItemMouseDown (active : bool) (button : Z) (clientX clientY : Q) (itemId : string)
| EvHandleMouseDown (active : bool) (button : Z) (clientX clientY : Q)
    (itemId : string) (handle : ResizeHandle)
| EvViewportMouseDown (active : bool) (button : Z)
| EvMouseMove (clientX clientY : Q)
| EvMouseUp
| EvDragEnter (active : bool)
| EvDragLeave
| EvDrop (active : bool) (files : option (list DroppedFile)).

Definition handle (e : Event) (w : World) : World * option ClipboardWritePayload :=
  match e with
  | EvPaste active r env => (handlePaste active r env w, None)
  | EvKeyDown active focused ev => handleKeyDown active focused ev w
  | EvCopyClick active => copySelectedImage active w
  | EvCopySettled o => (copySelectedImage_settled o w, None)
  | EvUndoClick => (undo w, None)
  | EvItemMouseDown active button cx cy itemId =>
      (startMove active button cx cy itemId w, None)
  | EvHandleMouseDown active button cx cy itemId h =>
      (startResize active button cx cy itemId h w, None)
  | EvViewportMouseDown active button => (clearSelection active button w, None)
  | EvMouseMove cx cy => (handlePointerMove cx cy w, None)
  | EvMouseUp => (handlePointerUp w, None)
  | EvDragEnter active =>
      (if active then with_isDragActive true w else w, None)
  | EvDragLeave => (with_isDragActive false w, None)
  | EvDrop active files => (onCanvasDrop active files w, None)
  end.

Definition step (w : World) (e : Event) : World := fst (handle e w).

Definition run (events : list Event) (w : World) : World :=
  fold_left step events w.

(** ** Specification vocabulary *)

(** The geometry invariants of a placed item. *)
Definition geometryOk (gx gy gw gh : Z) : Prop :=
  0 ≤ gx ∧ 0 ≤ gy ∧ gx + gw ≤ CANVAS_WIDTH ∧ gy + gh ≤ CANVAS_HEIGHT
  ∧ MIN_SIZE ≤ gw ∧ MIN_SIZE ≤ gh.

Definition itemOk (item : CanvasImageItem) : Prop :=
  geometryOk (x item) (y item) (width item) (height item).

Definition resultOk (g : Geometry) : Prop :=
  geometryOk (g_x g) (g_y g) (g_width g) (g_height g).

Definition startOk (r : ResizeInteraction) : Prop :=
  geometryOk (rs_startX r) (rs_startY r) (rs_startWidth r) (rs_startHeight r).

(** A [number] without fractional part. *)
Definition isInt (q : Q) : Prop := (inject_Z (Qfloor q) == q)%Q.

(** One axis of [computeEdgeResize]: the position and the size along the
    axis, from the start position and size, the pointer delta and the
    canvas extent.  [grows] is the handle letter that moves the far edge
    ("e", "s"), [shrinks] the one that moves the near edge ("w", "n"). *)
Local Open Scope Q_scope.

Definition edgeAxis (grows shrinks : bool) (start size delta limit : Q) : Q * Q :=
  let minSize := inject_Z MIN_SIZE in
  let size1 := if grows then size + delta else size in
  let size2 := if shrinks then size - delta else size1 in
  let pos2 := if shrinks then start + delta else start in
  let pos3 :=
    if Qltb size2 minSize
    then (if shrinks then start + (size - minSize) else pos2) else pos2 in
  let size3 := if Qltb size2 minSize then minSize else size2 in
  let size4 :=
    if Qltb pos3 0 then (if shrinks then size3 + pos3 else size3) else size3 in
  let pos4 := if Qltb pos3 0 then 0%Q else pos3 in
  let size5 :=
    if Qltb limit (pos4 + size4)
    then (if grows then limit - pos4 else size4) else size4 in
  let pos5 :=
    if Qltb limit (pos4 + size4)
    then (if grows then pos4 else limit - size4) else pos4 in
  let size6 := Qmax minSize size5 in
  let pos6 := clamp pos5 0 (limit - size6) in
  (pos6, size6).

Local Close Scope Q_scope.

(** The selected id is [null] or the id of a present item. *)
Definition selectionOk (s : ClipboardCanvasState) : Prop :=
  match selectedId s with
  | None => True
  | Some sel => ∃ item, item ∈ items s ∧ id item = sel
  end.

(** What holds of the live state also holds of every snapshot that can
    come back: the undo stack and the snapshot of the running session.
    [J] is what the running session itself has to satisfy. *)
Definition worldInv (P : ClipboardCanvasState → Prop) (J : Interaction → Prop)
    (w : World) : Prop :=
  P (state w) ∧ Forall P (undoStack w)
  ∧ ∀ i, interaction w = Some i → P (startSnapshot i) ∧ J i.

(** The canvas state after one file of a dropped batch. *)
Definition dropState (s : ClipboardCanvasState) (file : DroppedFile)
  : ClipboardCanvasState :=
  match file_decoded file with
  | Some pngImage =>
      addCanvasItem (file_env file) (png_dataUrl pngImage)
        (png_width pngImage) (png_height pngImage) SourceDrop s
  | None => s
  end.

Definition isImageFile (file : DroppedFile) : bool :=
  String.prefix "image/" (file_type file).

(** A condition [A] on what the environment supplies to each
    [createCanvasItem] call of a batch, given the canvas state at the call. *)
Fixpoint filesOk (A : ClipboardCanvasState → AddEnv → Prop)
    (s : ClipboardCanvasState) (imageFiles : list DroppedFile) : Prop :=
  match imageFiles with
  | [] => True
  | file :: rest =>
      (is_Some (file_decoded file) → A s (file_env file))
      ∧ filesOk A (dropState s file) rest
  end.

(** A condition on what the environment contributes to an event: [A] on
    each [crypto.randomUUID()]/[Date.now()]/viewport triple that is
    consumed, [Pt] on each pair of pointer coordinates. *)
Definition eventOk (A : ClipboardCanvasState → AddEnv → Prop) (Pt : Q → Q → Prop)
    (w : World) (e : Event) : Prop :=
  match e with
  | EvPaste _ (ReadImage _ _) env => A (state w) env
  | EvDrop _ (Some files) => filesOk A (state w) (List.filter isImageFile files)
  | EvItemMouseDown _ _ cx cy _ => Pt cx cy
  | EvHandleMouseDown _ _ cx cy _ _ => Pt cx cy
  | EvMouseMove cx cy => Pt cx cy
  | _ => True
  end.

Fixpoint runOk (A : ClipboardCanvasState → AddEnv → Prop) (Pt : Q → Q → Prop)
    (events : list Event) (w : World) : Prop :=
  match events with
  | [] => True
  | e :: rest => eventOk A Pt w e ∧ runOk A Pt rest (step w e)
  end.

(** The contract of [crypto.randomUUID()]: a non-empty string that no
    item of the canvas carries yet. *)
Definition uuidOk (s : ClipboardCanvasState) (env : AddEnv) : Prop :=
  env_uuid env ≠ EmptyString ∧ env_uuid env ∉ map id (items s).

Definition anyPointer (cx cy : Q) : Prop := True.

(** Pointer coordinates in whole pixels. *)
Definition integerPointer (cx cy : Q) : Prop := isInt cx ∧ isInt cy.

(** A world is reachable when some sequence of events leads to it from
    the freshly mounted component, the environment honouring the UUID
    contract. *)
Definition reachable (w : World) : Prop :=
  ∃ events, runOk uuidOk anyPointer events initialWorld
            ∧ w = run events initialWorld.

(** Reachable by events whose pointer coordinates are whole pixels. *)
Definition reachableInt (w : World) : Prop :=
  ∃ events, runOk uuidOk integerPointer events initialWorld
            ∧ w = run events initialWorld.

Definition sessionOk (i : Interaction) : Prop :=
  isInt (startClientX i) ∧ isInt (startClientY i)
  ∧ match i with
    | Move _ => True
    | Resize r => startOk r
    end.

Definition zIndexOk (s : ClipboardCanvasState) : Prop :=
  Forall (λ item, 1 ≤ zIndex item) (items s).

Definition idsOk (s : ClipboardCanvasState) : Prop :=
  Forall (λ item, id item ≠ EmptyString) (items s) ∧ NoDup (map id (items s)).

(** The structural invariant of the store. *)
Definition storeOk (s : ClipboardCanvasState) : Prop :=
  selectionOk s ∧ idsOk s ∧ zIndexOk s.

(** The geometry invariant of the store. *)
Definition canvasOk (s : ClipboardCanvasState) : Prop :=
  Forall itemOk (items s) ∧ NoDup (map id (items s)).

(** The update that [handlePointerMove] applies to the target of the
    running session, [item] being the target as found in the store. *)
Definition pointerUpdate (i : Interaction) (item : CanvasImageItem)
    (clientX clientY : Q) : CanvasImageItem → CanvasImageItem :=
  let deltaX := (clientX - startClientX i)%Q in
  let deltaY := (clientY - startClientY i)%Q in
  match i with
  | Move m =>
      item_with_position
        (jsRound (clamp (inject_Z (mv_startX m) + deltaX) 0
                    (inject_Z CANVAS_WIDTH - inject_Z (width item))))
        (jsRound (clamp (inject_Z (mv_startY m) + deltaY) 0
                    (inject_Z CANVAS_HEIGHT - inject_Z (height item))))
  | Resize r =>
      item_with_geometry
        (if isCornerHandle (rs_handle r)
         then computeCornerResize r deltaX deltaY
         else computeEdgeResize r deltaX deltaY)
  end.

(** A list of pointer positions as the [mousemove] events of a drag. *)
Definition pointerMoves (moves : list (Q * Q)) : list Event :=
  map (λ p, EvMouseMove p.1 p.2) moves.

(** ** The clipboard write bridge ([electron/main.ts])

    What the main process needs from its host: [String.prototype.trim],
    whether [nativeImage.createFromBuffer] of the decoded base64 text gives
    a non-empty image (false as well when the buffer is empty or the call
    throws), the same for [nativeImage.createFromDataURL], whether
    [clipboard.writeImage] throws, and whether the image read back is
    empty. *)
Record ClipboardHost := {
  host_trim : string → string;
  host_createFromBuffer : string → bool;
  host_createFromDataURL : string → bool;
  host_writeImage_throws : bool;
  host_readBack_isEmpty : bool
}.

Definition writeFailure (r : ClipboardWriteFailureReason) : ClipboardWriteResult :=
  {| ok := false; reason := Some r |}.

(** [payload] is [None] for a missing ([!payload]) argument. *)
Definition writeClipboardImage (host : ClipboardHost)
    (payload : option ClipboardWritePayload) : ClipboardWriteResult :=
  match payload with
  | None => writeFailure invalid_payload
  | Some payload =>
      if negb (bool_decide (cwp_mimeType payload = "image/png"))
         || (String.length (cwp_base64 payload) =? 0)%nat
      then writeFailure invalid_payload
      else
        let normalizedBase64 := host_trim host (cwp_base64 payload) in
        if (String.length normalizedBase64 =? 0)%nat
        then writeFailure invalid_payload
        else
          let image := host_createFromBuffer host normalizedBase64 in
          let image :=
            if negb image
            then host_createFromDataURL host
                   ("data:" +:+ cwp_mimeType payload +:+ ";base64," +:+ normalizedBase64)
            else image in
          if negb image then writeFailure decode_failed
          else if host_writeImage_throws host then writeFailure write_failed
          else if host_readBack_isEmpty host then writeFailure write_failed
          else {| ok := true; reason := None |}
  end.

(** The key event of the copy shortcut. *)
Definition isCopyShortcut (ev : KeyboardEvent) : bool :=
  (ctrlKey ev || metaKey ev) && keyIsLetter ev "c" "C".



(** ** Sample data *)

Definition sampleUuid (n : nat) : string :=
  String (ascii_of_nat (48 + n)) "-0000-4000-8000-000000000000".

Definition sampleEnv (n : nat) : AddEnv :=
  {| env_viewport := None; env_uuid := sampleUuid n; env_now := 1000 + Z.of_nat n |}.

Definition samplePayload : ClipboardImagePayload :=
  {| cip_base64 := "AAAA"; cip_width := 100; cip_height := 100 |}.

Definition samplePaste (n : nat) : Event :=
  EvPaste true (ReadImage "image/png" samplePayload) (sampleEnv n).



(** One pasted item, then two. *)
Definition oneItemWorld : World := run [samplePaste 0] initialWorld.
Definition twoItemWorld : World := run [samplePaste 0; samplePaste 1] initialWorld.

(** A move session running on the pasted item. *)
Definition sessionWorld : World :=
  run [samplePaste 0; EvItemMouseDown true 0 0 0 (sampleUuid 0)] initialWorld.

Definition ctrlC : KeyboardEvent := {| ctrlKey := true; metaKey := false; key := "c" |}.

(** Paste a 100 x 100 image, drag it against the right edge, then pull
    its west handle by half a pixel. *)
Definition halfPixelEvents : list Event :=
  [samplePaste 0;
   EvItemMouseDown true 0 0 0 (sampleUuid 0);
   EvMouseMove 2000 0;
   EvMouseUp;
   EvHandleMouseDown true 0 0 0 (sampleUuid 0) Hw;
   EvMouseMove (1 # 2) 0].

Definition halfPixelStart : ResizeInteraction :=
  {| rs_itemId := sampleUuid 0; rs_handle := Hw;
     rs_startClientX := 0; rs_startClientY := 0;
     rs_startX := 1900; rs_startY := 950; rs_startWidth := 100; rs_startHeight := 100;
     rs_startSnapshot := initialState |}.


(** A viewport of 120 x 120 pixels scrolled to the far corner. *)
Definition cornerViewport : Viewport :=
  {| scrollLeft := 1880; scrollTop := 1880; clientWidth := 120; clientHeight := 120 |}.

(** The item of [oneItemWorld]. *)
Definition pastedItem : CanvasImageItem :=
  {| id := sampleUuid 0; source := SourcePaste;
     dataUrl := "data:image/png;base64,AAAA";
     naturalWidth := 100; naturalHeight := 100;
     x := 950; y := 950; width := 100; height := 100;
     zIndex := 1; createdAt := 1000 |}.

(** [oneItemWorld] after a drag of its item by (10, 5), before and after
    the release of the pointer. *)
Definition draggedWorld : World :=
  run (pointerMoves [(10%Q, 5%Q)]) (startMove true 0 0 0 (sampleUuid 0) oneItemWorld).

Definition releasedWorld : World := handlePointerUp draggedWorld.

(** A south-east corner session on an item of 200 x 100 at (100, 100). *)
Definition cornerStart : ResizeInteraction :=
  {| rs_itemId := sampleUuid 0; rs_handle := Hse;
     rs_startClientX := 0; rs_startClientY := 0;
     rs_startX := 100; rs_startY := 100; rs_startWidth := 200; rs_startHeight := 100;
     rs_startSnapshot := initialState |}.


(** ** Stacking order *)

(** The ids are pairwise distinct; the counter is positive; every
    z-index is positive and below the counter; no two items share a
    z-index. *)
Definition orderOk (s : ClipboardCanvasState) : Prop :=
  NoDup (map id (items s))
  ∧ 1 ≤ nextZIndex s
  ∧ Forall (λ z, 1 ≤ z < nextZIndex s) (map zIndex (items s))
  ∧ NoDup (map zIndex (items s)).

(** ** Eviction order *)



(** ** The clipboard read bridge ([electron/main.ts])

    What [clipboard.readImage()] returns, as far as [readClipboardImage]
    looks at it: [image.isEmpty()], [image.toPNG().toString("base64")] and
    [image.getSize()]. *)
Record NativeImage := {
  img_isEmpty : bool;
  img_pngBase64 : string;
  img_width : Z;
  img_height : Z
}.

(** [readClipboardImage] of the main process.  The preload script hands
    its result to the renderer as the settled value of
    [window.desktopApi.readClipboardImage()]. *)
Definition readClipboardImage (image : NativeImage) : ReadOutcome :=
  if img_isEmpty image then ReadNothing
  else ReadImage "image/png"
         {| cip_base64 := img_pngBase64 image;
            cip_width := img_width image; cip_height := img_height image |}.

(** ** Focus and activity *)

(** [document.activeElement], as far as [isTextInputFocused] looks at it. *)
Record ActiveElement := {
  tagName : string;
  isContentEditable : bool
}.

Definition isTextInputFocused (activeElement : option ActiveElement) : bool :=
  match activeElement with
  | None => false
  | Some el =>
      bool_decide (tagName el = "INPUT") || bool_decide (tagName el = "TEXTAREA")
      || isContentEditable el
  end.

(** The events that a handler turns away at its first test: an event
    that arrives while the tab is not the active one, a key event while a
    text field has the focus, a mouse down with another button than the
    left one. *)
Definition turnedAway (e : Event) : bool :=
  match e with
  | EvPaste active _ _ => negb active
  | EvKeyDown active focused _ => negb active || focused
  | EvCopyClick active => negb active
  | EvItemMouseDown active button _ _ _ => negb active || negb (button =? 0)
  | EvHandleMouseDown active button _ _ _ _ => negb active || negb (button =? 0)
  | EvViewportMouseDown active button => negb active || negb (button =? 0)
  | EvDragEnter active => negb active
  | EvDrop active _ => negb active
  | _ => false
  end.

(** The string contains a comma. *)
Definition hasComma (s : string) : Prop := In ","%char (String.list_ascii_of_string s).

(** * The task list ([TasksTab.vue]) and the window pin

    Both keep their data as JSON text: the task list in [localStorage],
    the pin preference in a file of the main process.  [JSON.stringify]
    and [JSON.parse] belong to the host; a statement that needs a text to
    parse back to the value it was made from says so. *)

(** A value as [JSON.parse] returns it.  The fields of an object are its
    own properties, each name once. *)
#[local] Unset Elimination Schemes.
Inductive Json :=
| JNull
| JBool (b : bool)
| JNum (n : Q)
| JStr (s : string)
| JArr (elements : list Json)
| JObj (fields : list (string * Json)).
#[local] Set Elimination Schemes.

Definition JsObject : Type := list (string * Json).

(** [object[name]] for an object: [None] is [undefined]. *)
Definition getField (fields : JsObject) (name : string) : option Json :=
  match List.find (λ field, bool_decide (field.1 = name)) fields with
  | Some field => Some field.2
  | None => None
  end.

(** [typeof v === "string"], [=== "number"] and [=== "boolean"] for the
    result of a property read. *)
Definition isString (v : option Json) : bool :=
  match v with Some (JStr _) => true | _ => false end.

Definition isNumber (v : option Json) : bool :=
  match v with Some (JNum _) => true | _ => false end.

Definition isBoolean (v : option Json) : bool :=
  match v with Some (JBool _) => true | _ => false end.

(** [JSON.stringify(value, null, indent)] and [JSON.parse(text)], the
    latter with [None] for a [SyntaxError]. *)
Record JsonHost := {
  JSON_stringify : nat → Json → string;
  JSON_parse : string → option Json
}.

(** ** Task list *)

Inductive TaskHint :=
| HintAddTask                       (* initial text *)
| HintBlankTask                     (* addTask: nothing but blanks *)
| HintCheckToDelete                 (* addTask *)
| HintTaskDeleted.                  (* completeTask *)

(** The refs of the component and the entry of [localStorage] under
    [STORAGE_KEY] ([None] while there is none).  A task is kept as the
    object it is at run time: a task read back from storage can carry
    more properties than the three of [TaskItem]. *)
Record TasksTab := {
  draftTask : string;
  tasks : list JsObject;
  hintMessage : TaskHint;
  storedTasks : option string
}.

Definition initialTasksTab (stored : option string) : TasksTab :=
  {| draftTask := EmptyString; tasks := []; hintMessage := HintAddTask; storedTasks := stored |}.

Definition with_draftTask (text : string) (t : TasksTab) : TasksTab :=
  {| draftTask := text; tasks := tasks t; hintMessage := hintMessage t;
     storedTasks := storedTasks t |}.
Definition with_tasks (l : list JsObject) (t : TasksTab) : TasksTab :=
  {| draftTask := draftTask t; tasks := l; hintMessage := hintMessage t;
     storedTasks := storedTasks t |}.
Definition with_hintMessage (h : TaskHint) (t : TasksTab) : TasksTab :=
  {| draftTask := draftTask t; tasks := tasks t; hintMessage := h;
     storedTasks := storedTasks t |}.
Definition with_storedTasks (stored : option string) (t : TasksTab) : TasksTab :=
  {| draftTask := draftTask t; tasks := tasks t; hintMessage := hintMessage t;
     storedTasks := stored |}.

(** [JSON.stringify(tasks.value)] serialises this value. *)
Definition tasksJson (l : list JsObject) : Json := JArr (map JObj l).

(** [localStorage.setItem] is taken to succeed. *)
Definition persistTasks (host : JsonHost) (t : TasksTab) : TasksTab :=
  with_storedTasks (Some (JSON_stringify host 0 (tasksJson (tasks t)))) t.

(** The callback of [parsed.filter] on one element.  Reading a property
    of [null] throws, which is [None]; reading one of a number, a string,
    a boolean or an array gives [undefined]. *)
Definition isTaskItem (task : Json) : option bool :=
  match task with
  | JNull => None
  | JObj fields =>
      Some (isString (getField fields "id") && isString (getField fields "text")
            && isNumber (getField fields "createdAt"))
  | _ => Some false
  end.

(** [parsed.filter(...)] for an array [parsed]: [None] when the callback
    throws.  An element that passes is an object. *)
Fixpoint filterTasks (parsed : list Json) : option (list JsObject) :=
  match parsed with
  | [] => Some []
  | task :: rest =>
      match isTaskItem task with
      | None => None
      | Some keep =>
          match filterTasks rest with
          | None => None
          | Some kept =>
              match task with
              | JObj fields => Some (if keep then fields :: kept else kept)
              | _ => Some kept
              end
          end
      end
  end.

Definition loadTasks (host : JsonHost) (t : TasksTab) : TasksTab :=
  match storedTasks t with
  | None => with_tasks [] t
  | Some raw =>
      if bool_decide (raw = EmptyString) then with_tasks [] t
      else
        match JSON_parse host raw with
        | Some (JArr parsed) =>
            match filterTasks parsed with
            | Some kept => with_tasks kept t
            | None => with_tasks [] t           (* catch: TypeError in the callback *)
            end
        | Some _ => with_tasks [] t             (* catch: parsed.filter is not a function *)
        | None => with_tasks [] t               (* catch: SyntaxError *)
        end
  end.

(** The object literal of [addTask]. *)
Definition newTask (uuid text : string) (now : Z) : JsObject :=
  [("id", JStr uuid); ("text", JStr text); ("createdAt", JNum (inject_Z now))].

(** [trim] is [String.prototype.trim]; [uuid] and [now] are what
    [crypto.randomUUID()] and [Date.now()] return. *)
Definition addTask (trim : string → string) (uuid : string) (now : Z)
    (t : TasksTab) : TasksTab :=
  let text := trim (draftTask t) in
  if bool_decide (text = EmptyString) then with_hintMessage HintBlankTask t
  else
    let t := with_tasks (newTask uuid text now :: tasks t) t in
    let t := with_draftTask EmptyString t in
    with_hintMessage HintCheckToDelete t.

(** [task.id === taskId] *)
Definition hasId (taskId : string) (task : JsObject) : bool :=
  match getField task "id" with
  | Some (JStr s) => bool_decide (s = taskId)
  | _ => false
  end.

Definition completeTask (taskId : string) (t : TasksTab) : TasksTab :=
  let t := with_tasks (List.filter (λ task, negb (hasId taskId task)) (tasks t)) t in
  with_hintMessage HintTaskDeleted t.

(** The events of the component: mounting, typing into the draft field
    ([v-model]), submitting the form, ticking the check box of a task, and
    a run of the deep watcher on [tasks]. *)
Inductive TaskEvent :=
| TkMounted
| TkInput (text : string)
| TkSubmit (uuid : string) (now : Z)
| TkCheck (taskId : string)
| TkWatch.

Definition taskStep (host : JsonHost) (trim : string → string)
    (t : TasksTab) (e : TaskEvent) : TasksTab :=
  match e with
  | TkMounted => loadTasks host t
  | TkInput text => with_draftTask text t
  | TkSubmit uuid now => addTask trim uuid now t
  | TkCheck taskId => completeTask taskId t
  | TkWatch => persistTasks host t
  end.

Definition taskRun (host : JsonHost) (trim : string → string)
    (events : list TaskEvent) (t : TasksTab) : TasksTab :=
  fold_left (taskStep host trim) events t.

(** A task has a string id, a string text and a numeric time stamp. *)
Definition taskOk (task : JsObject) : Prop := isTaskItem (JObj task) = Some true.

(** What [loadTasks] keeps of one stored element. *)
Definition asTask (element : Json) : option JsObject :=
  match element with
  | JObj fields => if isTaskItem element is Some true then Some fields else None
  | _ => None
  end.

(** ** Window pin: the preferences store ([preferences-store.ts]) *)

Record UiPreferences := { alwaysOnTop : bool }.

Definition DEFAULT_PREFERENCES : UiPreferences := {| alwaysOnTop := false |}.

(** The file [ui-preferences.json]. *)
Inductive PreferencesFile :=
| FileMissing                       (* fs.existsSync is false *)
| FileUnreadable                    (* fs.readFileSync throws *)
| FileText (rawText : string).

Module PreferencesStore.

(** [None] when reading [value.alwaysOnTop] throws, that is for [null]. *)
Definition sanitize (value : Json) : option UiPreferences :=
  match value with
  | JNull => None
  | JObj fields =>
      Some {| alwaysOnTop :=
                match getField fields "alwaysOnTop" with
                | Some (JBool b) => b
                | _ => alwaysOnTop DEFAULT_PREFERENCES
                end |}
  | _ => Some {| alwaysOnTop := alwaysOnTop DEFAULT_PREFERENCES |}
  end.

Definition read (host : JsonHost) (file : PreferencesFile) : UiPreferences :=
  match file with
  | FileMissing => DEFAULT_PREFERENCES
  | FileUnreadable => DEFAULT_PREFERENCES
  | FileText rawText =>
      match JSON_parse host rawText with
      | Some parsed =>
          match sanitize parsed with
          | Some preferences => preferences
          | None => DEFAULT_PREFERENCES
          end
      | None => DEFAULT_PREFERENCES
      end
  end.

(** The value that [JSON.stringify(preferences, null, 2)] serialises. *)
Definition toJson (preferences : UiPreferences) : Json :=
  JObj [("alwaysOnTop", JBool (alwaysOnTop preferences))].

(** [write]: the new file.  Creating the directory and writing the file
    are taken to succeed. *)
Definition write (host : JsonHost) (preferences : UiPreferences) : PreferencesFile :=
  FileText (JSON_stringify host 2 (toJson preferences)).

(** [{ ...this.read(), alwaysOnTop: enabled }]: [UiPreferences] has the
    one field, which the spread value does not keep. *)
Definition setAlwaysOnTop (host : JsonHost) (enabled : bool) (file : PreferencesFile)
  : UiPreferences * PreferencesFile :=
  let current := read host file in
  let nextPreferences := {| alwaysOnTop := enabled |} in
  (nextPreferences, write host nextPreferences).

End PreferencesStore.

(** ** Window pin: the main process ([electron/main.ts]) *)

Record WindowPinState := { enabled : bool }.

(** A window, as far as the pin looks at it: [isAlwaysOnTop()]. *)
Record BrowserWindow := { isAlwaysOnTop : bool }.

Record MainProcess := {
  mainWindow : option BrowserWindow;
  preferencesFile : PreferencesFile
}.

(** A process that has just started, with the file as it is on disk. *)
Definition startedProcess (file : PreferencesFile) : MainProcess :=
  {| mainWindow := None; preferencesFile := file |}.

Module Main.

Definition createMainWindow (host : JsonHost) (m : MainProcess) : MainProcess :=
  let preferences := PreferencesStore.read host (preferencesFile m) in
  let window := {| isAlwaysOnTop := false |} in
  let window :=
    if alwaysOnTop preferences then {| isAlwaysOnTop := true |} else window in
  {| mainWindow := Some window; preferencesFile := preferencesFile m |}.

(** The handler of "window:getAlwaysOnTop". *)
Definition getAlwaysOnTop (host : JsonHost) (m : MainProcess) : WindowPinState :=
  match mainWindow m with
  | Some window => {| enabled := isAlwaysOnTop window |}
  | None =>
      {| enabled := alwaysOnTop (PreferencesStore.read host (preferencesFile m)) |}
  end.

(** The handler of "window:setAlwaysOnTop". *)
Definition setAlwaysOnTop (host : JsonHost) (requested : bool) (m : MainProcess)
  : WindowPinState * MainProcess :=
  let normalized := requested in
  let window :=
    match mainWindow m with
    | Some _ => Some {| isAlwaysOnTop := normalized |}
    | None => None
    end in
  let '(_, file) :=
    PreferencesStore.setAlwaysOnTop host normalized (preferencesFile m) in
  ({| enabled := normalized |}, {| mainWindow := window; preferencesFile := file |}).

End Main.

(** ** Window pin: the application shell ([App.vue]) *)

Inductive TabKey := TabClipboard | TabTasks.

#[global] Instance TabKey_eq_dec : EqDecision TabKey.
Proof. solve_decision. Defined.

Inductive PinError :=
| PinErrorNone                      (* the empty string *)
| PinErrorSync                      (* syncPinState failed *)
| PinErrorToggle.                   (* handlePinToggle failed *)

(** How the promise of [window.desktopApi.getAlwaysOnTop()] or
    [setAlwaysOnTop()] settles. *)
Inductive PinOutcome :=
| PinResolved (result : WindowPinState)
| PinRejected.

Module App.

Record Shell := {
  activeTab : TabKey;
  alwaysOnTop : bool;
  isPinBusy : bool;
  pinError : PinError
}.

Definition initial : Shell :=
  {| activeTab := TabClipboard; alwaysOnTop := false; isPinBusy := true;
     pinError := PinErrorNone |}.

Definition with_activeTab (k : TabKey) (a : Shell) : Shell :=
  {| activeTab := k; alwaysOnTop := alwaysOnTop a; isPinBusy := isPinBusy a;
     pinError := pinError a |}.
Definition with_alwaysOnTop (b : bool) (a : Shell) : Shell :=
  {| activeTab := activeTab a; alwaysOnTop := b; isPinBusy := isPinBusy a;
     pinError := pinError a |}.
Definition with_isPinBusy (b : bool) (a : Shell) : Shell :=
  {| activeTab := activeTab a; alwaysOnTop := alwaysOnTop a; isPinBusy := b;
     pinError := pinError a |}.
Definition with_pinError (e : PinError) (a : Shell) : Shell :=
  {| activeTab := activeTab a; alwaysOnTop := alwaysOnTop a; isPinBusy := isPinBusy a;
     pinError := e |}.

(** The [active] prop of the clipboard tab: [activeTab === 'clipboard']. *)
Definition clipboardActive (a : Shell) : bool :=
  bool_decide (activeTab a = TabClipboard).

(** [syncPinState] up to its [await], and from there on. *)
Definition syncPinState (a : Shell) : Shell := with_pinError PinErrorNone a.

Definition syncPinState_settled (o : PinOutcome) (a : Shell) : Shell :=
  let a :=
    match o with
    | PinResolved result => with_alwaysOnTop (enabled result) a
    | PinRejected => with_pinError PinErrorSync a
    end in
  with_isPinBusy false a.

(** [handlePinToggle] up to its [await]: [target] is [input.checked],
    [None] for an event without target; the second component is the
    request sent to the main process. *)
Definition handlePinToggle (target : option bool) (a : Shell) : Shell * option bool :=
  match target with
  | None => (a, None)
  | Some checked =>
      (with_pinError PinErrorNone (with_isPinBusy true a), Some checked)
  end.

Definition handlePinToggle_settled (o : PinOutcome) (a : Shell) : Shell :=
  let a :=
    match o with
    | PinResolved result => with_alwaysOnTop (enabled result) a
    | PinRejected => with_pinError PinErrorToggle a
    end in
  with_isPinBusy false a.

End App.

(** ** Window pin: the switch and the window together

    The renderer and the main process exchange one request at a time.
    The first request is the query that [onMounted] sends through
    [syncPinState]; the switch is disabled ([:disabled="isPinBusy"]) from
    the start of a request until it has settled. *)

Inductive PinRequest :=
| GetPin
| SetPin (checked : bool).

(** The request under way: none, one that is sent, or one that the main
    process has answered. *)
Inductive PinFlight :=
| FlightIdle
| FlightSent (request : PinRequest)
| FlightAnswered (request : PinRequest) (result : WindowPinState).

Record PinSystem := {
  shell : App.Shell;
  main : MainProcess;
  flight : PinFlight
}.

(** The window exists and the shell is mounted: the query is sent. *)
Definition mountedSystem (host : JsonHost) (file : PreferencesFile) : PinSystem :=
  {| shell := App.syncPinState App.initial;
     main := Main.createMainWindow host (startedProcess file);
     flight := FlightSent GetPin |}.

(** The user flips the switch; the main process handles the request that
    is under way; its answer reaches the renderer; the request is
    rejected; the user clicks a tab. *)
Inductive PinEvent :=
| PinToggle (checked : bool)
| PinHandled
| PinSettled
| PinFailed
| PinTab (tab : TabKey).

(** The part after the [await] of the function that sent the request. *)
Definition settle (request : PinRequest) (o : PinOutcome) (a : App.Shell) : App.Shell :=
  match request with
  | GetPin => App.syncPinState_settled o a
  | SetPin _ => App.handlePinToggle_settled o a
  end.

Definition pinStep (host : JsonHost) (s : PinSystem) (e : PinEvent) : PinSystem :=
  match e with
  | PinToggle checked =>
      if App.isPinBusy (shell s) then s
      else
        match App.handlePinToggle (Some checked) (shell s) with
        | (a, Some requested) =>
            {| shell := a; main := main s; flight := FlightSent (SetPin requested) |}
        | (a, None) => {| shell := a; main := main s; flight := flight s |}
        end
  | PinHandled =>
      match flight s with
      | FlightSent GetPin =>
          {| shell := shell s; main := main s;
             flight := FlightAnswered GetPin (Main.getAlwaysOnTop host (main s)) |}
      | FlightSent (SetPin checked) =>
          let handled := Main.setAlwaysOnTop host checked (main s) in
          {| shell := shell s; main := handled.2;
             flight := FlightAnswered (SetPin checked) handled.1 |}
      | _ => s
      end
  | PinSettled =>
      match flight s with
      | FlightAnswered request result =>
          {| shell := settle request (PinResolved result) (shell s); main := main s;
             flight := FlightIdle |}
      | _ => s
      end
  | PinFailed =>
      match flight s with
      | FlightSent request | FlightAnswered request _ =>
          {| shell := settle request PinRejected (shell s); main := main s;
             flight := FlightIdle |}
      | FlightIdle => s
      end
  | PinTab tab =>
      {| shell := App.with_activeTab tab (shell s); main := main s; flight := flight s |}
  end.

Definition pinRun (host : JsonHost) (events : list PinEvent) (s : PinSystem) : PinSystem :=
  fold_left (pinStep host) events s.

(** The switch is busy exactly while a request is under way; the window
    exists; an answer under way carries the state of the window; and an
    idle switch that shows no error shows the state of the window. *)
Definition pinOk (s : PinSystem) : Prop :=
  (App.isPinBusy (shell s) = true ↔ flight s ≠ FlightIdle)
  ∧ ∃ window,
      mainWindow (main s) = Some window
      ∧ (∀ request result, flight s = FlightAnswered request result →
                           enabled result = isAlwaysOnTop window)
      ∧ (flight s = FlightIdle → App.pinError (shell s) = PinErrorNone →
         App.alwaysOnTop (shell s) = isAlwaysOnTop window).

(** ** More sample data *)

(** The second item of [twoItemWorld]. *)
Definition secondPastedItem : CanvasImageItem :=
  {| id := sampleUuid 1; source := SourcePaste;
     dataUrl := "data:image/png;base64,AAAA";
     naturalWidth := 100; naturalHeight := 100;
     x := 974; y := 974; width := 100; height := 100;
     zIndex := 2; createdAt := 1001 |}.

Definition deleteKey : KeyboardEvent :=
  {| ctrlKey := false; metaKey := false; key := "Delete" |}.

(** The session of [sessionWorld]. *)
Definition sampleMove : MoveInteraction :=
  {| mv_itemId := sampleUuid 0; mv_startClientX := 0; mv_startClientY := 0;
     mv_startX := 950; mv_startY := 950; mv_startSnapshot := state oneItemWorld |}.

(** A paste, a drag by (10, 5) in whole pixels and the release. *)
Definition wholePixelDrag : list Event :=
  [samplePaste 0; EvItemMouseDown true 0 0 0 (sampleUuid 0); EvMouseMove 10 5; EvMouseUp].


Definition sampleImage : NativeImage :=
  {| img_isEmpty := false; img_pngBase64 := "AAAA"; img_width := 100; img_height := 100 |}.

(** A host whose decoders accept every text and whose clipboard works. *)
Definition sampleClipboardHost : ClipboardHost :=
  {| host_trim := λ s, s; host_createFromBuffer := λ _, true;
     host_createFromDataURL := λ _, true;
     host_writeImage_throws := false; host_readBack_isEmpty := false |}.

(** One task, and a host whose parser returns the list with that task. *)
Definition sampleTask : JsObject := newTask "u1" "buy milk" 5.

Definition sampleTaskHost : JsonHost :=
  {| JSON_stringify := λ _ _, "[task]";
     JSON_parse := λ _, Some (tasksJson [sampleTask]) |}.

Definition sampleTaskEvents : list TaskEvent :=
  [TkMounted; TkInput "buy milk"; TkSubmit "u1" 5].

(** A host whose parser returns the preference "on". *)
Definition samplePinHost : JsonHost :=
  {| JSON_stringify := λ _ _, "{pin}";
     JSON_parse := λ _, Some (PreferencesStore.toJson {| alwaysOnTop := true |}) |}.

(** * Verification *)

Local Open Scope Q_scope.
Local Open Scope Z_scope.

(** ** Numbers *)

Lemma Qltb_true (a b : Q) : Qltb a b = true ↔ (a < b)%Q.
Proof.
  unfold Qltb. rewrite negb_true_iff, <- not_true_iff_false, Qle_bool_iff.
  split; [apply Qnot_le_lt | apply Qlt_not_le].
Qed.

Lemma Qltb_false (a b : Q) : Qltb a b = false ↔ (b <= a)%Q.
Proof. unfold Qltb. by rewrite negb_false_iff, Qle_bool_iff. Qed.


Lemma jsRound_upper (q : Q) : (inject_Z (jsRound q) <= q + (1 # 2))%Q.
Proof. unfold jsRound. apply Qfloor_le. Qed.

Lemma jsRound_le_int (q : Q) (n : Z) : (q <= inject_Z n)%Q → jsRound q ≤ n.
Proof.
  intros H. pose proof (jsRound_upper q) as Hu.
  assert (inject_Z (jsRound q) < inject_Z (n + 1))%Q as Hlt.
  { rewrite inject_Z_plus. change (inject_Z 1) with 1%Q. lra. }
  rewrite <- Zlt_Qlt in Hlt. lia.
Qed.

Lemma jsRound_ge_int (q : Q) (n : Z) : (inject_Z n <= q)%Q → n ≤ jsRound q.
Proof.
  intros H. unfold jsRound.
  rewrite <- (Qfloor_Z n). apply Qfloor_resp_le. lra.
Qed.

Lemma jsRound_eq_int (q : Q) (n : Z) : q == inject_Z n → jsRound q = n.
Proof.
  intros H. apply Z.le_antisymm.
  - apply jsRound_le_int. lra.
  - apply jsRound_ge_int. lra.
Qed.

Lemma jsRound_inject_Z (n : Z) : jsRound (inject_Z n) = n.
Proof. by apply jsRound_eq_int. Qed.

Lemma isInt_inject_Z (n : Z) : isInt (inject_Z n).
Proof. unfold isInt. by rewrite Qfloor_Z. Qed.

Lemma isInt_exists (q : Q) : isInt q ↔ ∃ n, q == inject_Z n.
Proof.
  split.
  - intros H. exists (Qfloor q). by symmetry.
  - intros [n Hn]. unfold isInt. rewrite (Qfloor_comp _ _ Hn), Qfloor_Z. by symmetry.
Qed.

Lemma isInt_eq (p q : Q) : p == q → isInt p → isInt q.
Proof.
  rewrite !isInt_exists. intros Hpq [n Hn]. exists n. by rewrite <- Hpq.
Qed.

Lemma isInt_plus (p q : Q) : isInt p → isInt q → isInt (p + q).
Proof.
  rewrite !isInt_exists. intros [a Ha] [b Hb]. exists (a + b).
  rewrite inject_Z_plus, Ha, Hb. reflexivity.
Qed.

Lemma isInt_minus (p q : Q) : isInt p → isInt q → isInt (p - q).
Proof.
  rewrite !isInt_exists. intros [a Ha] [b Hb]. exists (a - b).
  unfold Z.sub. rewrite inject_Z_plus, inject_Z_opp, Ha, Hb. reflexivity.
Qed.

Lemma isInt_0 : isInt 0.
Proof. apply (isInt_inject_Z 0). Qed.

Lemma isInt_round (q : Q) : isInt q → inject_Z (jsRound q) == q.
Proof.
  rewrite isInt_exists. intros [n Hn]. by rewrite (jsRound_eq_int _ _ Hn).
Qed.

Lemma clamp_cases (v lo hi : Q) :
  ((hi < lo)%Q ∧ clamp v lo hi == lo)
  ∨ ((lo <= hi)%Q ∧ (v <= lo)%Q ∧ clamp v lo hi == lo)
  ∨ ((lo <= hi)%Q ∧ (lo <= v)%Q ∧ (v <= hi)%Q ∧ clamp v lo hi == v)
  ∨ ((lo <= hi)%Q ∧ (hi <= v)%Q ∧ clamp v lo hi == hi).
Proof.
  unfold clamp. destruct (Qltb hi lo) eqn:E.
  - left. apply Qltb_true in E. split; [done|reflexivity].
  - right. apply Qltb_false in E.
    destruct (Q.max_spec lo v) as [[H1 H2]|[H1 H2]];
      destruct (Q.min_spec hi (Qmax lo v)) as [[H3 H4]|[H3 H4]];
      rewrite H2 in H3; rewrite H4, ?H2;
      first [ left; split_and!; lra
            | right; left; split_and!; lra
            | right; right; split_and!; lra ].
Qed.

Lemma clamp_between (v lo hi : Q) :
  (lo <= hi)%Q → (lo <= clamp v lo hi)%Q ∧ (clamp v lo hi <= hi)%Q.
Proof.
  intros H. destruct (clamp_cases v lo hi) as [[? ?]|[(?&?&E)|[(?&?&?&E)|(?&?&E)]]];
    try rewrite E; lra.
Qed.

Lemma clampZ_between (v lo hi : Z) : lo ≤ hi → lo ≤ clampZ v lo hi ≤ hi.
Proof. intros H. unfold clampZ. destruct (Z.ltb_spec hi lo); lia. Qed.

Create HintDb isint.
#[export] Hint Resolve isInt_plus isInt_minus isInt_inject_Z isInt_0 : isint.

Ltac Qltb_cases :=
  repeat match goal with
    | |- context [Qltb ?a ?b] =>
        lazymatch a with
        | context [Qltb _ _] => fail
        | _ =>
            lazymatch b with
            | context [Qltb _ _] => fail
            | _ =>
                let E := fresh "E" in
                destruct (Qltb a b) eqn:E;
                [apply Qltb_true in E | apply Qltb_false in E]
            end
        end
    end.

Ltac Qmax_cases :=
  repeat match goal with
    | |- context [Qmax ?p ?q] =>
        let m := fresh "m" in
        let Hm := fresh "Hm" in
        let Em := fresh "Em" in
        destruct (Q.max_spec p q) as [[Hm Em]|[Hm Em]];
        revert Hm Em; generalize (Qmax p q); intros m Hm Em
    end.

Ltac clamp_cases_tac :=
  repeat match goal with
    | |- context [clamp ?v ?lo ?hi] =>
        let c := fresh "c" in
        let Ec := fresh "Ec" in
        destruct (clamp_cases v lo hi) as [[? Ec]|[(?&?&Ec)|[(?&?&?&Ec)|(?&?&Ec)]]];
        revert Ec; generalize (clamp v lo hi); intros c Ec
    end.

Ltac isInt_atoms :=
  repeat match goal with
    | E : (?m == ?e)%Q |- _ =>
        is_var m;
        lazymatch goal with
        | _ : isInt m |- _ => fail
        | _ => assert (isInt m) by (apply (isInt_eq e m); [by symmetry | auto 12 with isint])
        end
    end.

Ltac round_atoms :=
  repeat match goal with
    | H : isInt ?m |- _ =>
        lazymatch goal with
        | |- context [jsRound m] =>
            lazymatch goal with
            | _ : (inject_Z (jsRound m) == m)%Q |- _ => fail
            | _ => pose proof (isInt_round m H)
            end
        end
    end.

Lemma edgeAxis_int (grows shrinks : bool) (a b L : Z) (delta : Q) :
  grows && shrinks = false → 0 ≤ a → MIN_SIZE ≤ b → a + b ≤ L → isInt delta →
  let r := edgeAxis grows shrinks (inject_Z a) (inject_Z b) delta (inject_Z L) in
  0 ≤ jsRound (fst r) ∧ MIN_SIZE ≤ jsRound (snd r)
  ∧ jsRound (fst r) + jsRound (snd r) ≤ L.
Proof.
  intros Hgs Ha Hb HL Hd r. subst r. unfold edgeAxis, MIN_SIZE in *. cbv zeta.
  rewrite Zle_Qle in Ha, Hb, HL. rewrite inject_Z_plus in HL.
  cbn [fst snd].
  destruct grows, shrinks; try discriminate Hgs; clear Hgs.
  all: Qltb_cases; Qmax_cases; clamp_cases_tac.
  all: isInt_atoms; round_atoms.
  all: rewrite !Zle_Qle, ?inject_Z_plus.
  all: change (inject_Z 0) with 0%Q in *; change (inject_Z 24) with 24%Q in *.
  all: split_and!; lra.
Qed.

Lemma computeEdgeResize_axes (r : ResizeInteraction) (deltaX deltaY : Q) :
  computeEdgeResize r deltaX deltaY =
  let ax := edgeAxis (includes (rs_handle r) DirE) (includes (rs_handle r) DirW)
              (inject_Z (rs_startX r)) (inject_Z (rs_startWidth r)) deltaX
              (inject_Z CANVAS_WIDTH) in
  let ay := edgeAxis (includes (rs_handle r) DirS) (includes (rs_handle r) DirN)
              (inject_Z (rs_startY r)) (inject_Z (rs_startHeight r)) deltaY
              (inject_Z CANVAS_HEIGHT) in
  {| g_x := jsRound (fst ax); g_y := jsRound (fst ay);
     g_width := jsRound (snd ax); g_height := jsRound (snd ay) |}.
Proof. reflexivity. Qed.

Lemma includes_EW (h : ResizeHandle) : includes h DirE && includes h DirW = false.
Proof. by destruct h. Qed.

Lemma includes_SN (h : ResizeHandle) : includes h DirS && includes h DirN = false.
Proof. by destruct h. Qed.

Lemma computeEdgeResize_int (r : ResizeInteraction) (deltaX deltaY : Q) :
  startOk r → isInt deltaX → isInt deltaY →
  resultOk (computeEdgeResize r deltaX deltaY).
Proof.
  intros (Hx & Hy & Hxw & Hyh & Hw & Hh) Hdx Hdy.
  rewrite computeEdgeResize_axes. cbv zeta. unfold resultOk, geometryOk. cbn [g_x g_y g_width g_height].
  pose proof (edgeAxis_int _ _ _ _ _ deltaX (includes_EW (rs_handle r)) Hx Hw Hxw Hdx) as (?&?&?).
  pose proof (edgeAxis_int _ _ _ _ _ deltaY (includes_SN (rs_handle r)) Hy Hh Hyh Hdy) as (?&?&?).
  split_and!; done.
Qed.

(** Corner resize *)

Lemma Qdiv_upper (b c s : Q) : (0 < c)%Q → (s <= b / c)%Q → (c * s <= b)%Q.
Proof.
  intros Hc Hs. assert (c * (b / c) == b)%Q as E by (field; lra).
  rewrite <- E. apply Qmult_le_l; done.
Qed.

Lemma Qdiv_lower (b c s : Q) : (0 < c)%Q → (b / c <= s)%Q → (b <= c * s)%Q.
Proof.
  intros Hc Hs. assert (c * (b / c) == b)%Q as E by (field; lra).
  rewrite <- E. apply Qmult_le_l; done.
Qed.

Lemma Qdiv_le_1 (b c : Q) : (0 < c)%Q → (b <= c)%Q → (b / c <= 1)%Q.
Proof. intros Hc Hb. apply Qle_shift_div_r; [done | lra]. Qed.

Lemma Qdiv_ge_1 (b c : Q) : (0 < c)%Q → (c <= b)%Q → (1 <= b / c)%Q.
Proof. intros Hc Hb. apply Qle_shift_div_l; [done | lra]. Qed.

Lemma cornerMax_ge_start (r : ResizeInteraction) :
  startOk r →
  rs_startWidth r ≤ cornerMaxWidth r ∧ rs_startHeight r ≤ cornerMaxHeight r.
Proof.
  intros (Hx & Hy & Hxw & Hyh & Hw & Hh).
  unfold cornerMaxWidth, cornerMaxHeight, cornerAnchorX, cornerAnchorY,
    CANVAS_WIDTH, CANVAS_HEIGHT in *.
  destruct (includes _ DirW), (includes _ DirN); lia.
Qed.

Lemma cornerScale_range (r : ResizeInteraction) (deltaX deltaY : Q) :
  startOk r →
  (cornerMinScale r <= cornerScale r deltaX deltaY)%Q
  ∧ (cornerScale r deltaX deltaY
     <= Qmin (inject_Z (cornerMaxWidth r) / inject_Z (rs_startWidth r))
             (inject_Z (cornerMaxHeight r) / inject_Z (rs_startHeight r)))%Q
  ∧ cornerMaxScale r
    == Qmin (inject_Z (cornerMaxWidth r) / inject_Z (rs_startWidth r))
            (inject_Z (cornerMaxHeight r) / inject_Z (rs_startHeight r)).
Proof.
  intros Hok. pose proof (cornerMax_ge_start r Hok) as [HW HH].
  destruct Hok as (Hx & Hy & Hxw & Hyh & Hw & Hh). unfold MIN_SIZE in *.
  assert (0 < inject_Z (rs_startWidth r))%Q as Hsw.
  { change 0%Q with (inject_Z 0). rewrite <- Zlt_Qlt. lia. }
  assert (0 < inject_Z (rs_startHeight r))%Q as Hsh.
  { change 0%Q with (inject_Z 0). rewrite <- Zlt_Qlt. lia. }
  assert (cornerMinScale r <= 1)%Q as Hmin.
  { unfold cornerMinScale, MIN_SIZE. apply Q.max_lub; apply Qdiv_le_1; try done;
      rewrite <- Zle_Qle; lia. }
  assert (1 <= Qmin (inject_Z (cornerMaxWidth r) / inject_Z (rs_startWidth r))
                    (inject_Z (cornerMaxHeight r) / inject_Z (rs_startHeight r)))%Q as Hmax.
  { apply Q.min_glb; apply Qdiv_ge_1; try done; rewrite <- Zle_Qle; lia. }
  assert (cornerMaxScale r
    == Qmin (inject_Z (cornerMaxWidth r) / inject_Z (rs_startWidth r))
            (inject_Z (cornerMaxHeight r) / inject_Z (rs_startHeight r))) as Emax.
  { unfold cornerMaxScale. apply Q.max_r. lra. }
  split_and!; [| |done].
  - unfold cornerScale. cbv zeta. apply clamp_between. rewrite Emax. lra.
  - rewrite <- Emax. unfold cornerScale. cbv zeta. apply clamp_between. rewrite Emax. lra.
Qed.

Lemma cornerScale_sides (r : ResizeInteraction) (deltaX deltaY : Q) :
  startOk r →
  let s := cornerScale r deltaX deltaY in
  (inject_Z MIN_SIZE <= inject_Z (rs_startWidth r) * s)%Q
  ∧ (inject_Z (rs_startWidth r) * s <= inject_Z (cornerMaxWidth r))%Q
  ∧ (inject_Z MIN_SIZE <= inject_Z (rs_startHeight r) * s)%Q
  ∧ (inject_Z (rs_startHeight r) * s <= inject_Z (cornerMaxHeight r))%Q.
Proof.
  intros Hok s. destruct (cornerScale_range r deltaX deltaY Hok) as (Hlo & Hhi & _).
  fold s in Hlo, Hhi.
  destruct Hok as (Hx & Hy & Hxw & Hyh & Hw & Hh). unfold MIN_SIZE in *.
  assert (0 < inject_Z (rs_startWidth r))%Q as Hsw.
  { change 0%Q with (inject_Z 0). rewrite <- Zlt_Qlt. lia. }
  assert (0 < inject_Z (rs_startHeight r))%Q as Hsh.
  { change 0%Q with (inject_Z 0). rewrite <- Zlt_Qlt. lia. }
  unfold cornerMinScale, MIN_SIZE in Hlo.
  split_and!.
  - apply Qdiv_lower; [done|]. eapply Qle_trans; [apply Q.le_max_l | exact Hlo].
  - apply Qdiv_upper; [done|]. eapply Qle_trans; [exact Hhi | apply Q.le_min_l].
  - apply Qdiv_lower; [done|]. eapply Qle_trans; [apply Q.le_max_r | exact Hlo].
  - apply Qdiv_upper; [done|]. eapply Qle_trans; [exact Hhi | apply Q.le_min_r].
Qed.

Lemma computeCornerResize_sizes (r : ResizeInteraction) (deltaX deltaY : Q) :
  startOk r →
  let g := computeCornerResize r deltaX deltaY in
  g_width g = jsRound (inject_Z (rs_startWidth r) * cornerScale r deltaX deltaY)
  ∧ g_height g = jsRound (inject_Z (rs_startHeight r) * cornerScale r deltaX deltaY)
  ∧ MIN_SIZE ≤ g_width g ≤ cornerMaxWidth r
  ∧ MIN_SIZE ≤ g_height g ≤ cornerMaxHeight r.
Proof.
  intros Hok g. destruct (cornerScale_sides r deltaX deltaY Hok) as (H1 & H2 & H3 & H4).
  apply jsRound_ge_int in H1, H3. apply jsRound_le_int in H2, H4.
  subst g. unfold computeCornerResize. cbv zeta. cbn [g_width g_height].
  rewrite !Z.max_r by done. done.
Qed.

Lemma computeCornerResize_ok (r : ResizeInteraction) (deltaX deltaY : Q) :
  startOk r → resultOk (computeCornerResize r deltaX deltaY).
Proof.
  intros Hok.
  destruct (computeCornerResize_sizes r deltaX deltaY Hok) as (_ & _ & Hw & Hh).
  destruct Hok as (Hx & Hy & Hxw & Hyh & Hsw & Hsh).
  revert Hw Hh. unfold resultOk, geometryOk, computeCornerResize. cbv zeta.
  cbn [g_x g_y g_width g_height].
  generalize (Z.max MIN_SIZE
    (jsRound (inject_Z (rs_startWidth r) * cornerScale r deltaX deltaY))).
  generalize (Z.max MIN_SIZE
    (jsRound (inject_Z (rs_startHeight r) * cornerScale r deltaX deltaY))).
  intros gh gw.
  unfold cornerMaxWidth, cornerMaxHeight, cornerAnchorX, cornerAnchorY,
    CANVAS_WIDTH, CANVAS_HEIGHT, MIN_SIZE in *.
  intros Hw Hh.
  destruct (includes (rs_handle r) DirW), (includes (rs_handle r) DirN).
  all: clamp_cases_tac; isInt_atoms; round_atoms.
  all: rewrite !Zle_Qle, ?inject_Z_plus in *.
  all: unfold Z.sub in *; rewrite ?inject_Z_plus, ?inject_Z_opp in *.
  all: change (inject_Z 0) with 0%Q in *; change (inject_Z 24) with 24%Q in *;
       change (inject_Z 2000) with 2000%Q in *.
  all: split_and!; lra.
Qed.

(** For every pointer delta the rectangle is clamped into the canvas
    before the rounding ... *)
Lemma edgeAxis_clamped (grows shrinks : bool) (a b L : Z) (delta : Q) :
  grows && shrinks = false → 0 ≤ a → MIN_SIZE ≤ b → a + b ≤ L →
  let r := edgeAxis grows shrinks (inject_Z a) (inject_Z b) delta (inject_Z L) in
  (0 <= fst r)%Q ∧ (inject_Z MIN_SIZE <= snd r)%Q ∧ (fst r + snd r <= inject_Z L)%Q.
Proof.
  intros Hgs Ha Hb HL r. subst r. unfold edgeAxis, MIN_SIZE in *. cbv zeta.
  rewrite Zle_Qle in Ha, Hb, HL. rewrite inject_Z_plus in HL.
  cbn [fst snd].
  destruct grows, shrinks; try discriminate Hgs; clear Hgs.
  all: Qltb_cases; Qmax_cases; clamp_cases_tac.
  all: change (inject_Z 0) with 0%Q in *; change (inject_Z 24) with 24%Q in *.
  all: split_and!; lra.
Qed.

(** ... and the rounding keeps the near edge and the minimum size, but
    can push the far edge out by one pixel. *)
Lemma computeEdgeResize_any (r : ResizeInteraction) (deltaX deltaY : Q) :
  startOk r →
  let g := computeEdgeResize r deltaX deltaY in
  0 ≤ g_x g ∧ 0 ≤ g_y g ∧ MIN_SIZE ≤ g_width g ∧ MIN_SIZE ≤ g_height g
  ∧ g_x g + g_width g ≤ CANVAS_WIDTH + 1 ∧ g_y g + g_height g ≤ CANVAS_HEIGHT + 1.
Proof.
  intros (Hx & Hy & Hxw & Hyh & Hw & Hh). cbv zeta.
  rewrite computeEdgeResize_axes. cbv zeta. cbn [g_x g_y g_width g_height].
  pose proof (edgeAxis_clamped _ _ _ _ _ deltaX (includes_EW (rs_handle r)) Hx Hw Hxw)
    as (H1 & H2 & H3).
  pose proof (edgeAxis_clamped _ _ _ _ _ deltaY (includes_SN (rs_handle r)) Hy Hh Hyh)
    as (H4 & H5 & H6).
  cbv zeta in *.
  set (ax := edgeAxis _ _ _ _ deltaX _) in *. set (ay := edgeAxis _ _ _ _ deltaY _) in *.
  pose proof (jsRound_upper ax.1). pose proof (jsRound_upper ax.2).
  pose proof (jsRound_upper ay.1). pose proof (jsRound_upper ay.2).
  split_and!.
  - by apply (jsRound_ge_int _ 0).
  - by apply (jsRound_ge_int _ 0).
  - by apply jsRound_ge_int.
  - by apply jsRound_ge_int.
  - rewrite Zle_Qle, !inject_Z_plus. change (inject_Z 1) with 1%Q. lra.
  - rewrite Zle_Qle, !inject_Z_plus. change (inject_Z 1) with 1%Q. lra.
Qed.

(** ** Snapshots and history *)

Lemma deepCloneItems_id (l : list CanvasImageItem) : deepCloneItems l = l.
Proof.
  unfold deepCloneItems. induction l as [|[] l IH]; [done|].
  cbn [map]. by rewrite IH.
Qed.

Lemma cloneSnapshot_id (s : ClipboardCanvasSnapshot) : cloneSnapshot s = s.
Proof. unfold cloneSnapshot. rewrite deepCloneItems_id. by destruct s. Qed.

Lemma createSnapshot_state (w : World) : createSnapshot w = state w.
Proof. apply cloneSnapshot_id. Qed.

Lemma isUndoTargetChanged_false (a b : ClipboardCanvasSnapshot) :
  isUndoTargetChanged a b = false ↔
  items a = items b ∧ nextZIndex a = nextZIndex b
  ∧ placementOffsetIndex a = placementOffsetIndex b.
Proof.
  unfold isUndoTargetChanged, toUndoComparable.
  rewrite negb_false_iff, bool_decide_eq_true. split.
  - intros [= -> -> ->]. done.
  - intros (-> & -> & ->). done.
Qed.

Lemma pushUndo_stack (snapshot : ClipboardCanvasSnapshot) (w : World) :
  undoStack (pushUndo snapshot w) =
  drop (length (undoStack w ++ [snapshot]) - UNDO_LIMIT) (undoStack w ++ [snapshot]).
Proof.
  unfold pushUndo. cbv zeta. rewrite cloneSnapshot_id. cbn [undoStack with_undoStack].
  destruct (Nat.ltb_spec UNDO_LIMIT (length (undoStack w ++ [snapshot]))) as [H|H]; [done|].
  replace (length (undoStack w ++ [snapshot]) - UNDO_LIMIT)%nat with 0%nat by lia. done.
Qed.

Lemma pushUndo_last (snapshot : ClipboardCanvasSnapshot) (w : World) :
  last (undoStack (pushUndo snapshot w)) = Some snapshot.
Proof.
  rewrite pushUndo_stack. rewrite length_app. cbn [length].
  rewrite drop_app_le by (unfold UNDO_LIMIT; lia). apply last_snoc.
Qed.

Lemma pushUndo_frame (snapshot : ClipboardCanvasSnapshot) (w : World) :
  state (pushUndo snapshot w) = state w
  ∧ interaction (pushUndo snapshot w) = interaction w
  ∧ noticeMessage (pushUndo snapshot w) = noticeMessage w
  ∧ isDragActive (pushUndo snapshot w) = isDragActive w.
Proof. done. Qed.

Lemma pushUndo_length (snapshot : ClipboardCanvasSnapshot) (w : World) :
  length (undoStack (pushUndo snapshot w))
  = Nat.min UNDO_LIMIT (S (length (undoStack w))).
Proof.
  rewrite pushUndo_stack, length_drop, length_app. cbn [length]. unfold UNDO_LIMIT. lia.
Qed.

(** ** Lookup and update *)

Lemma getItemById_Some (itemId : string) (s : ClipboardCanvasState) (item : CanvasImageItem) :
  getItemById itemId s = Some item → item ∈ items s ∧ id item = itemId.
Proof.
  unfold getItemById. intros H. apply find_some in H as [H1 H2].
  apply bool_decide_eq_true in H2. by rewrite list_elem_of_In.
Qed.

Lemma getItemById_None (itemId : string) (s : ClipboardCanvasState) :
  getItemById itemId s = None → ∀ item, item ∈ items s → id item ≠ itemId.
Proof.
  unfold getItemById. intros H item Hin. rewrite list_elem_of_In in Hin.
  apply (find_none _ _ H) in Hin. by apply bool_decide_eq_false in Hin.
Qed.

Lemma getItemById_elem (itemId : string) (s : ClipboardCanvasState) (item : CanvasImageItem) :
  item ∈ items s → id item = itemId → is_Some (getItemById itemId s).
Proof.
  intros Hin Hid. destruct (getItemById itemId s) eqn:E; [by eexists|].
  by destruct (getItemById_None _ _ E item Hin).
Qed.

Lemma updateItem_frame (itemId : string) (f : CanvasImageItem → CanvasImageItem)
    (s : ClipboardCanvasState) :
  selectedId (updateItem itemId f s) = selectedId s
  ∧ nextZIndex (updateItem itemId f s) = nextZIndex s
  ∧ placementOffsetIndex (updateItem itemId f s) = placementOffsetIndex s.
Proof. done. Qed.

Lemma updateItem_Forall (Ok : CanvasImageItem → Prop) (itemId : string)
    (f : CanvasImageItem → CanvasImageItem) (s : ClipboardCanvasState) :
  Forall Ok (items s) →
  (∀ item, item ∈ items s → id item = itemId → Ok (f item)) →
  Forall Ok (items (updateItem itemId f s)).
Proof.
  intros HQ Hf. unfold updateItem. cbn [items with_items].
  rewrite Forall_forall. intros it Hin. apply list_elem_of_fmap in Hin as (it0 & -> & Hin0).
  case_bool_decide; [by apply Hf|].
  rewrite Forall_forall in HQ. by apply HQ.
Qed.

Lemma updateItem_ids (itemId : string) (f : CanvasImageItem → CanvasImageItem)
    (s : ClipboardCanvasState) :
  (∀ item, id (f item) = id item) →
  map id (items (updateItem itemId f s)) = map id (items s).
Proof.
  intros Hf. unfold updateItem. cbn [items with_items].
  induction (items s) as [|a l IH]; [done|]. cbn [map]. rewrite IH.
  case_bool_decide; by rewrite ?Hf.
Qed.

Lemma selectionOk_ids (s s' : ClipboardCanvasState) :
  map id (items s') = map id (items s) → selectedId s' = selectedId s →
  selectionOk s → selectionOk s'.
Proof.
  unfold selectionOk. intros Hids ->. destruct (selectedId s) as [sel|]; [|done].
  intros (item & Hin & Hid).
  assert (sel ∈ map id (items s')) as Hsel.
  { rewrite Hids. rewrite list_elem_of_fmap. by exists item. }
  apply list_elem_of_fmap in Hsel as (item' & -> & Hin'). by exists item'.
Qed.

Lemma handlePointerMove_unfold (cx cy : Q) (w : World) :
  handlePointerMove cx cy w =
  match interaction w with
  | None => w
  | Some i =>
      match getItemById (itemId i) (state w) with
      | None => stopInteraction false w
      | Some item =>
          with_state (updateItem (itemId i) (pointerUpdate i item cx cy) (state w)) w
      end
  end.
Proof.
  unfold handlePointerMove. destruct (interaction w) as [i|]; [|done].
  destruct (getItemById _ _); [|done]. by destruct i.
Qed.

Lemma pointerUpdate_id (i : Interaction) (item : CanvasImageItem) (cx cy : Q)
    (it : CanvasImageItem) :
  id (pointerUpdate i item cx cy it) = id it
  ∧ zIndex (pointerUpdate i item cx cy it) = zIndex it.
Proof. by destruct i. Qed.

(** ** Invariants of the event loop

    A property [P] of canvas states that every store operation preserves
    holds in the live state, in every snapshot of the undo stack and in
    the snapshot of the running session, whatever events arrive. *)

Section Invariant.
Variable P : ClipboardCanvasState → Prop.
Variable J : Interaction → Prop.
Variable A : ClipboardCanvasState → AddEnv → Prop.
Variable Pt : Q → Q → Prop.

Hypothesis P_init : P initialState.
Hypothesis P_add : ∀ env url nw nh src s,
  A s env → P s → P (addCanvasItem env url nw nh src s).
Hypothesis P_remove : ∀ itemId s, P s → P (fst (removeItem itemId s)).
Hypothesis P_select : ∀ itemId item s,
  P s → getItemById itemId s = Some item → P (selectItem itemId s).
Hypothesis P_clear : ∀ s, P s → P (with_selectedId None s).
Hypothesis J_move : ∀ s item itemId cx cy snap,
  P s → Pt cx cy → getItemById itemId s = Some item →
  J (Move {| mv_itemId := itemId; mv_startClientX := cx; mv_startClientY := cy;
             mv_startX := x item; mv_startY := y item; mv_startSnapshot := snap |}).
Hypothesis J_resize : ∀ s item itemId cx cy h snap,
  P s → Pt cx cy → getItemById itemId s = Some item →
  J (Resize {| rs_itemId := itemId; rs_handle := h;
               rs_startClientX := cx; rs_startClientY := cy;
               rs_startX := x item; rs_startY := y item;
               rs_startWidth := width item; rs_startHeight := height item;
               rs_startSnapshot := snap |}).
Hypothesis P_pointer : ∀ w i item cx cy,
  P (state w) → interaction w = Some i → J i → Pt cx cy →
  getItemById (itemId i) (state w) = Some item →
  P (state (handlePointerMove cx cy w)).

Local Abbreviation Inv := (worldInv P J).

Lemma initialWorld_inv : Inv initialWorld.
Proof. split_and!; [done | constructor | done]. Qed.

Lemma with_notice_inv (n : Notice) (w : World) : Inv w → Inv (with_notice n w).
Proof. done. Qed.

Lemma with_isDragActive_inv (b : bool) (w : World) : Inv w → Inv (with_isDragActive b w).
Proof. done. Qed.

Lemma with_state_inv (s : ClipboardCanvasState) (w : World) :
  Inv w → P s → Inv (with_state s w).
Proof. intros (? & ? & ?) ?. done. Qed.

Lemma pushUndo_inv (snapshot : ClipboardCanvasSnapshot) (w : World) :
  Inv w → P snapshot → Inv (pushUndo snapshot w).
Proof.
  intros (HP & HU & HI) Hs. split_and!; [done| |done].
  rewrite pushUndo_stack. apply Forall_drop, Forall_app. by split; [|constructor].
Qed.

Lemma undo_inv (w : World) : Inv w → Inv (undo w).
Proof.
  intros (HP & HU & HI). unfold undo.
  destruct (negb (canUndo w) || isSome (interaction w)) eqn:E; [done|].
  apply orb_false_iff in E as [_ E].
  destruct (last (undoStack w)) as [snapshot|] eqn:El; [|done].
  cbv zeta. unfold applySnapshot. rewrite cloneSnapshot_id.
  split_and!; cbn.
  - apply last_Some_elem_of in El. rewrite Forall_forall in HU. by apply HU.
  - by apply Forall_take.
  - done.
Qed.

Lemma stopInteraction_inv (commit : bool) (w : World) :
  Inv w → Inv (stopInteraction commit w).
Proof.
  intros (HP & HU & HI). unfold stopInteraction. cbv zeta.
  assert (Inv (with_interaction None w)) as H0 by (split_and!; done).
  destruct (interaction w) as [i|] eqn:Ei; [|done].
  destruct commit; [|done]. cbn [negb].
  destruct (isUndoTargetChanged _ _); [|done].
  apply pushUndo_inv; [done|]. by apply HI.
Qed.

Lemma removeSelectedItem_inv (trackUndo : bool) (w : World) :
  Inv w → Inv (removeSelectedItem trackUndo w).
Proof.
  intros Hw. unfold removeSelectedItem.
  destruct (selectedId (state w)) as [sel|]; [|done].
  destruct (negb (truthy (Some sel))); [done|]. cbv zeta.
  rewrite createSnapshot_state.
  pose proof (P_remove sel (state w) (proj1 Hw)) as Hr.
  destruct (removeItem sel (state w)) as [s removed]. cbn [fst] in Hr.
  assert (Inv (with_state s w)) as Hs by (by apply with_state_inv).
  destruct removed; [|done]. cbn [negb].
  apply with_notice_inv. destruct trackUndo; [|done].
  apply pushUndo_inv; [done|apply Hw].
Qed.

Lemma addDroppedFile_state (acc : World * nat * nat) (file : DroppedFile) :
  state (addDroppedFile acc file).1.1 = dropState (state acc.1.1) file
  ∧ undoStack (addDroppedFile acc file).1.1 = undoStack acc.1.1
  ∧ interaction (addDroppedFile acc file).1.1 = interaction acc.1.1.
Proof.
  destruct acc as [[w sc] fc]. unfold addDroppedFile, dropState.
  by destruct (file_decoded file).
Qed.

Lemma dropState_inv (s : ClipboardCanvasState) (file : DroppedFile) :
  P s → (is_Some (file_decoded file) → A s (file_env file)) → P (dropState s file).
Proof.
  intros Hs Ha. unfold dropState. destruct (file_decoded file); [|done].
  apply P_add; [|done]. apply Ha. by eexists.
Qed.

Lemma addDroppedFiles_fold_inv (files : list DroppedFile) (acc : World * nat * nat) :
  Inv acc.1.1 → filesOk A (state acc.1.1) files →
  Inv (fold_left addDroppedFile files acc).1.1.
Proof.
  revert acc. induction files as [|f files IH]; intros acc Hw Hf; [done|].
  destruct Hf as [Hf1 Hf2]. cbn [fold_left].
  destruct (addDroppedFile_state acc f) as (Es & Eu & Ei).
  apply IH; [|by rewrite Es].
  destruct Hw as (HP & HU & HI). split_and!.
  - rewrite Es. by apply dropState_inv.
  - by rewrite Eu.
  - by rewrite Ei.
Qed.

Lemma addDroppedFiles_inv (files : list DroppedFile) (w : World) :
  Inv w → filesOk A (state w) (List.filter isImageFile files) →
  Inv (addDroppedFiles files w).
Proof.
  intros Hw Hf. unfold addDroppedFiles. cbv zeta.
  change (List.filter _ files) with (List.filter isImageFile files).
  set (imageFiles := List.filter _ files) in *.
  destruct (length imageFiles =? 0)%nat; [done|].
  rewrite createSnapshot_state.
  pose proof (addDroppedFiles_fold_inv imageFiles (w, 0%nat, 0%nat) Hw Hf) as Hfold.
  destruct (fold_left addDroppedFile imageFiles (w, 0%nat, 0%nat)) as [[w' sc] fc].
  cbn [fst] in Hfold.
  destruct (sc =? 0)%nat; [done|].
  assert (Inv (pushUndo (state w) w')) by (apply pushUndo_inv; [done|apply Hw]).
  by destruct (0 <? fc)%nat.
Qed.

Lemma handlePaste_inv (active : bool) (r : ReadOutcome) (env : AddEnv) (w : World) :
  Inv w → eventOk A Pt w (EvPaste active r env) → Inv (handlePaste active r env w).
Proof.
  intros Hw Ha. unfold handlePaste. destruct (negb active); [done|].
  destruct r as [mimeType payload| |]; [|done|done].
  cbv zeta. rewrite createSnapshot_state. apply with_notice_inv.
  apply pushUndo_inv; [|apply Hw].
  apply with_state_inv; [done|]. unfold addImageFromClipboard.
  apply P_add; [done|apply Hw].
Qed.

Lemma copySelectedImage_inv (active : bool) (w : World) :
  Inv w → Inv (copySelectedImage active w).1.
Proof.
  intros Hw. unfold copySelectedImage. destruct (negb active); [done|].
  destruct (selectedItem (state w)); [|done].
  destruct (extractBase64 _); [|done]. by case_bool_decide.
Qed.

Lemma copySelectedImage_settled_inv (o : WriteOutcome) (w : World) :
  Inv w → Inv (copySelectedImage_settled o w).
Proof. intros Hw. destruct o as [[[] ?]|]; done. Qed.

Lemma handleKeyDown_inv (active focused : bool) (ev : KeyboardEvent) (w : World) :
  Inv w → Inv (handleKeyDown active focused ev w).1.
Proof.
  intros Hw. unfold handleKeyDown.
  destruct (negb active || focused); [done|].
  destruct ((ctrlKey ev || metaKey ev) && keyIsLetter ev "c" "C").
  { destruct (negb (truthy _)); [done|]. by apply copySelectedImage_inv. }
  destruct ((ctrlKey ev || metaKey ev) && keyIsLetter ev "z" "Z").
  { destruct (negb (canUndo w) || isSome (interaction w)); [done|]. by apply undo_inv. }
  case_bool_decide; [|done].
  destruct (negb (truthy _)); [done|]. by apply removeSelectedItem_inv.
Qed.

Lemma startMove_inv (active : bool) (button : Z) (cx cy : Q) (itemId : string) (w : World) :
  Inv w → Pt cx cy → Inv (startMove active button cx cy itemId w).
Proof.
  intros Hw Hp. unfold startMove.
  destruct (negb active || negb (button =? 0)); [done|].
  destruct (getItemById itemId (state w)) as [item|] eqn:Ei; [|done].
  cbv zeta. rewrite createSnapshot_state. destruct Hw as (HP & HU & HI).
  split_and!; cbn; [by eapply P_select|done|].
  intros i [= <-]. split; [done|]. by eapply J_move.
Qed.

Lemma startResize_inv (active : bool) (button : Z) (cx cy : Q) (itemId : string)
    (h : ResizeHandle) (w : World) :
  Inv w → Pt cx cy → Inv (startResize active button cx cy itemId h w).
Proof.
  intros Hw Hp. unfold startResize.
  destruct (negb active || negb (button =? 0)); [done|].
  destruct (getItemById itemId (state w)) as [item|] eqn:Ei; [|done].
  cbv zeta. rewrite createSnapshot_state. destruct Hw as (HP & HU & HI).
  split_and!; cbn; [by eapply P_select|done|].
  intros i [= <-]. split; [done|]. by eapply J_resize.
Qed.

Lemma clearSelection_inv (active : bool) (button : Z) (w : World) :
  Inv w → Inv (clearSelection active button w).
Proof.
  intros Hw. unfold clearSelection.
  destruct (negb active || negb (button =? 0)); [done|].
  apply with_state_inv; [done|]. apply P_clear, Hw.
Qed.

Lemma handlePointerMove_frame (cx cy : Q) (w : World) :
  undoStack (handlePointerMove cx cy w) = undoStack w
  ∧ (interaction (handlePointerMove cx cy w) = interaction w
     ∨ interaction (handlePointerMove cx cy w) = None).
Proof.
  unfold handlePointerMove. destruct (interaction w) as [i|] eqn:Ei; [|by auto].
  destruct (getItemById _ _).
  - destruct i; cbn; rewrite Ei; auto.
  - unfold stopInteraction. rewrite Ei. cbn. auto.
Qed.

Lemma handlePointerMove_inv (cx cy : Q) (w : World) :
  Inv w → Pt cx cy → Inv (handlePointerMove cx cy w).
Proof.
  intros Hw Hp.
  destruct (interaction w) as [i|] eqn:Ei.
  2:{ unfold handlePointerMove. by rewrite Ei. }
  destruct (getItemById (itemId i) (state w)) as [item|] eqn:Eg.
  2:{ unfold handlePointerMove. rewrite Ei, Eg. by apply stopInteraction_inv. }
  destruct Hw as (HP & HU & HI).
  destruct (handlePointerMove_frame cx cy w) as [EU EI].
  split_and!.
  - eapply P_pointer; try done. by apply HI.
  - by rewrite EU.
  - intros i' Hi'. destruct EI as [EI|EI]; rewrite EI in Hi'; [by apply HI|done].
Qed.

Lemma step_inv (w : World) (e : Event) : Inv w → eventOk A Pt w e → Inv (step w e).
Proof.
  intros Hw He. unfold step, handle. destruct e; cbn [fst eventOk] in *.
  - by apply handlePaste_inv.
  - by apply handleKeyDown_inv.
  - by apply copySelectedImage_inv.
  - by apply copySelectedImage_settled_inv.
  - by apply undo_inv.
  - by apply startMove_inv.
  - by apply startResize_inv.
  - by apply clearSelection_inv.
  - by apply handlePointerMove_inv.
  - by apply stopInteraction_inv.
  - by destruct active.
  - done.
  - unfold onCanvasDrop. cbv zeta. destruct (negb active); [done|].
    destruct files as [files|]; [|done].
    apply addDroppedFiles_inv; done.
Qed.

Lemma run_inv (events : list Event) (w : World) :
  Inv w → runOk A Pt events w → Inv (run events w).
Proof.
  revert w. induction events as [|e events IH]; intros w Hw He; [done|].
  destruct He as [He1 He2]. cbn. apply IH; [|done]. by apply step_inv.
Qed.

Lemma reach_inv (events : list Event) :
  runOk A Pt events initialWorld → Inv (run events initialWorld).
Proof. apply run_inv, initialWorld_inv. Qed.
End Invariant.

(** ** Store operations *)

Lemma sublist_Forall {A} (Ok : A → Prop) (l1 l2 : list A) :
  l1 `sublist_of` l2 → Forall Ok l2 → Forall Ok l1.
Proof.
  rewrite !Forall_forall. intros Hs HQ a Hin. apply HQ. by eapply elem_of_sublist.
Qed.

Lemma map_id_sublist (l1 l2 : list CanvasImageItem) :
  l1 `sublist_of` l2 → NoDup (map id l2) → NoDup (map id l1).
Proof.
  intros Hs Hn. eapply sublist_NoDup; [exact Hn|].
  by apply (fmap_sublist id).
Qed.

Lemma enforceImageLimit_items (s : ClipboardCanvasState) :
  items (enforceImageLimit s) `sublist_of` items s.
Proof.
  unfold enforceImageLimit. destruct (length (items s) <=? MAX_IMAGES)%nat; [done|].
  cbv zeta. cbn [selectedId with_items].
  destruct (selectedId s) as [sel|]; [|apply sublist_filter].
  destruct (truthy (Some sel) && _); apply sublist_filter.
Qed.

Lemma enforceImageLimit_counters (s : ClipboardCanvasState) :
  nextZIndex (enforceImageLimit s) = nextZIndex s
  ∧ placementOffsetIndex (enforceImageLimit s) = placementOffsetIndex s.
Proof.
  unfold enforceImageLimit. destruct (length (items s) <=? MAX_IMAGES)%nat; [done|].
  cbv zeta. cbn [selectedId with_items].
  destruct (selectedId s) as [sel|]; [|done].
  by destruct (truthy (Some sel) && _).
Qed.

Lemma enforceImageLimit_selection (s : ClipboardCanvasState) :
  selectionOk s → Forall (λ item, id item ≠ EmptyString) (items s) →
  selectionOk (enforceImageLimit s).
Proof.
  intros Hsel Hids. unfold enforceImageLimit.
  destruct (length (items s) <=? MAX_IMAGES)%nat; [done|].
  cbv zeta. cbn [selectedId with_items]. unfold selectionOk in *.
  destruct (selectedId s) as [sel|] eqn:Es; [|by cbn; rewrite Es].
  destruct Hsel as (item & Hin & Hid).
  assert (truthy (Some sel) = true) as ->.
  { cbn. rewrite Forall_forall in Hids. apply Hids in Hin.
    rewrite negb_true_iff, bool_decide_eq_false. congruence. }
  cbn [andb]. case_bool_decide as Hrm; cbn; [done|]. rewrite Es.
  exists item. split; [|done]. apply list_elem_of_filter. split; [|done]. by rewrite Hid.
Qed.

Lemma createCanvasItem_spec (env : AddEnv) (url : string) (nw nh : Z) (src : ItemSource)
    (s : ClipboardCanvasState) :
  let size := normalizeInitialSize nw nh in
  let placed := resolveInitialPlacement (env_viewport env) size.1 size.2 s in
  createCanvasItem env url nw nh src s =
  ({| id := env_uuid env; source := src; dataUrl := url;
      naturalWidth := nw; naturalHeight := nh;
      x := placed.1.1; y := placed.1.2; width := size.1; height := size.2;
      zIndex := nextZIndex s; createdAt := env_now env |},
   {| items := items s; selectedId := selectedId s; nextZIndex := nextZIndex s + 1;
      placementOffsetIndex := placementOffsetIndex placed.2 |}).
Proof.
  cbv zeta. unfold createCanvasItem. cbv zeta.
  unfold resolveInitialPlacement. cbv zeta.
  by destruct (isOutOfBounds _ _ _ _).
Qed.

Lemma addCanvasItem_spec (env : AddEnv) (url : string) (nw nh : Z) (src : ItemSource)
    (s : ClipboardCanvasState) :
  let created := createCanvasItem env url nw nh src s in
  addCanvasItem env url nw nh src s =
  enforceImageLimit
    {| items := items s ++ [created.1]; selectedId := Some (env_uuid env);
       nextZIndex := nextZIndex s + 1;
       placementOffsetIndex := placementOffsetIndex created.2 |}.
Proof.
  cbv zeta. unfold addCanvasItem. rewrite createCanvasItem_spec. done.
Qed.

Lemma createCanvasItem_id (env : AddEnv) (url : string) (nw nh : Z) (src : ItemSource)
    (s : ClipboardCanvasState) :
  id (createCanvasItem env url nw nh src s).1 = env_uuid env
  ∧ zIndex (createCanvasItem env url nw nh src s).1 = nextZIndex s.
Proof. by rewrite createCanvasItem_spec. Qed.

Lemma addCanvasItem_storeOk (env : AddEnv) (url : string) (nw nh : Z) (src : ItemSource)
    (s : ClipboardCanvasState) :
  uuidOk s env → storeOk s ∧ 1 ≤ nextZIndex s →
  storeOk (addCanvasItem env url nw nh src s)
  ∧ 1 ≤ nextZIndex (addCanvasItem env url nw nh src s).
Proof.
  intros [Hne Hfresh] [(Hsel & [Hids Hnd] & Hz) Hnz].
  rewrite addCanvasItem_spec. cbv zeta.
  destruct (createCanvasItem_id env url nw nh src s) as [Eid Ez].
  set (new := (createCanvasItem env url nw nh src s).1) in *.
  set (s1 := {| items := items s ++ [new] |}).
  assert (Forall (λ item, id item ≠ EmptyString) (items s1)) as Hids1.
  { apply Forall_app. split; [done|]. constructor; [by rewrite Eid|constructor]. }
  assert (NoDup (map id (items s1))) as Hnd1.
  { cbn. rewrite map_app. apply NoDup_app. split_and!; [done| |].
    - intros i Hi. cbn. rewrite Eid. intros Hin%list_elem_of_singleton. by subst.
    - cbn. apply NoDup_singleton. }
  assert (selectionOk s1) as Hsel1.
  { unfold selectionOk. cbn. exists new. split; [|done]. apply elem_of_app. right.
    by apply list_elem_of_singleton. }
  assert (zIndexOk s1) as Hz1.
  { apply Forall_app. split; [done|]. constructor; [|constructor]. by rewrite Ez. }
  pose proof (enforceImageLimit_items s1) as Hsub.
  destruct (enforceImageLimit_counters s1) as [Ec _].
  split; [split_and!|].
  - by apply enforceImageLimit_selection.
  - split.
    + eapply sublist_Forall; eassumption.
    + by eapply map_id_sublist.
  - unfold zIndexOk. eapply sublist_Forall; eassumption.
  - rewrite Ec. cbn. lia.
Qed.

Lemma filter_length_eq {A} (Keep : A → Prop) `{∀ a, Decision (Keep a)} (l : list A) :
  length (filter Keep l) = length l → filter Keep l = l.
Proof.
  induction l as [|a l IH]; [done|]. rewrite filter_cons.
  destruct (decide (Keep a)); cbn [length]; intros Hlen.
  - f_equal. apply IH. lia.
  - pose proof (length_filter Keep l). lia.
Qed.

Lemma removeItem_items (itemId : string) (s : ClipboardCanvasState) :
  items (removeItem itemId s).1 = filter (λ item, id item ≠ itemId) (items s)
  ∧ nextZIndex (removeItem itemId s).1 = nextZIndex s
  ∧ placementOffsetIndex (removeItem itemId s).1 = placementOffsetIndex s.
Proof.
  unfold removeItem. cbv zeta. cbn [fst].
  by destruct (negb _ && _).
Qed.

Lemma removeItem_selection (itemId : string) (s : ClipboardCanvasState) :
  selectionOk s → selectionOk (removeItem itemId s).1.
Proof.
  intros Hsel. unfold removeItem. cbv zeta. cbn [fst items selectedId with_items].
  destruct (Nat.eqb_spec (length (filter (λ item, id item ≠ itemId) (items s)))
              (length (items s))) as [Hlen|Hlen]; cbn [negb andb].
  - apply filter_length_eq in Hlen. unfold selectionOk. cbn. by rewrite Hlen.
  - case_bool_decide as Hs; [done|].
    unfold selectionOk in *. cbn. destruct (selectedId s) as [sel|]; [|done].
    destruct Hsel as (item & Hin & Hid). exists item. split; [|done].
    apply list_elem_of_filter. split; [|done]. congruence.
Qed.

Lemma removeItem_storeOk (itemId : string) (s : ClipboardCanvasState) :
  storeOk s ∧ 1 ≤ nextZIndex s →
  storeOk (removeItem itemId s).1 ∧ 1 ≤ nextZIndex (removeItem itemId s).1.
Proof.
  intros [(Hsel & [Hids Hnd] & Hz) Hnz].
  destruct (removeItem_items itemId s) as (Ei & En & _).
  assert (items (removeItem itemId s).1 `sublist_of` items s) as Hsub.
  { rewrite Ei. apply sublist_filter. }
  split; [split_and!|].
  - by apply removeItem_selection.
  - split; [eapply sublist_Forall; eassumption | by eapply map_id_sublist].
  - unfold zIndexOk. eapply sublist_Forall; eassumption.
  - by rewrite En.
Qed.

Lemma bringToFront_shape (itemId : string) (s : ClipboardCanvasState) :
  (bringToFront itemId s).1 = s
  ∨ (bringToFront itemId s).1
    = updateItem itemId (item_with_zIndex (nextZIndex s))
        (with_nextZIndex (nextZIndex s + 1) s).
Proof.
  unfold bringToFront. destruct (getItemById itemId s); [|by left].
  cbv zeta. destruct (_ <=? _); [by left|by right].
Qed.

Lemma selectItem_shape (itemId : string) (s : ClipboardCanvasState) :
  selectItem itemId s = with_selectedId (Some itemId) s
  ∨ selectItem itemId s
    = updateItem itemId (item_with_zIndex (nextZIndex s))
        (with_nextZIndex (nextZIndex s + 1) (with_selectedId (Some itemId) s)).
Proof.
  unfold selectItem.
  destruct (bringToFront_shape itemId (with_selectedId (Some itemId) s)) as [->| ->];
    [by left|by right].
Qed.

Lemma selectItem_ids (itemId : string) (s : ClipboardCanvasState) :
  map id (items (selectItem itemId s)) = map id (items s)
  ∧ selectedId (selectItem itemId s) = Some itemId
  ∧ nextZIndex s ≤ nextZIndex (selectItem itemId s)
  ∧ placementOffsetIndex (selectItem itemId s) = placementOffsetIndex s.
Proof.
  destruct (selectItem_shape itemId s) as [-> | ->].
  - cbn. split_and!; try done; lia.
  - rewrite updateItem_ids by done. cbn. split_and!; try done; lia.
Qed.

Lemma selectItem_Forall (Ok : CanvasImageItem → Prop) (itemId : string)
    (s : ClipboardCanvasState) :
  Forall Ok (items s) →
  (∀ item, item ∈ items s → Ok (item_with_zIndex (nextZIndex s) item)) →
  Forall Ok (items (selectItem itemId s)).
Proof.
  intros HQ Hf. destruct (selectItem_shape itemId s) as [-> | ->]; [done|].
  apply updateItem_Forall; [done|]. intros item Hin _. by apply Hf.
Qed.

Lemma selectItem_storeOk (itemId : string) (item : CanvasImageItem)
    (s : ClipboardCanvasState) :
  storeOk s ∧ 1 ≤ nextZIndex s → getItemById itemId s = Some item →
  storeOk (selectItem itemId s) ∧ 1 ≤ nextZIndex (selectItem itemId s).
Proof.
  intros [(Hsel & [Hids Hnd] & Hz) Hnz] Hget.
  destruct (selectItem_ids itemId s) as (Ei & Es & En & _).
  apply getItemById_Some in Hget as [Hin Hid].
  split; [split_and!|lia].
  - unfold selectionOk. rewrite Es.
    assert (itemId ∈ map id (items (selectItem itemId s))) as Hm.
    { rewrite Ei. apply list_elem_of_fmap. by exists item. }
    apply list_elem_of_fmap in Hm as (item' & -> & Hin'). by exists item'.
  - split; [|by rewrite Ei]. apply selectItem_Forall; [done|].
    intros it Hit. cbn. rewrite Forall_forall in Hids. by apply Hids.
  - apply selectItem_Forall; [done|]. intros it _. cbn. lia.
Qed.

Lemma handlePointerMove_state (cx cy : Q) (w : World) :
  state (handlePointerMove cx cy w) = state w
  ∨ ∃ i item f,
      interaction w = Some i
      ∧ getItemById (itemId i) (state w) = Some item
      ∧ (∀ it, id (f it) = id it ∧ zIndex (f it) = zIndex it)
      ∧ state (handlePointerMove cx cy w) = updateItem (itemId i) f (state w).
Proof.
  unfold handlePointerMove. destruct (interaction w) as [i|] eqn:Ei; [|by left].
  destruct (getItemById (itemId i) (state w)) as [item|] eqn:Eg.
  - right. destruct i as [m|r]; cbv zeta; cbn [state with_state].
    + eexists (Move m), item, _. split_and!; [done|done| |reflexivity]. done.
    + eexists (Resize r), item, _. split_and!; [done|done| |reflexivity]. done.
  - left. unfold stopInteraction. rewrite Ei. done.
Qed.

Lemma handlePointerMove_storeOk (cx cy : Q) (w : World) :
  storeOk (state w) ∧ 1 ≤ nextZIndex (state w) →
  storeOk (state (handlePointerMove cx cy w))
  ∧ 1 ≤ nextZIndex (state (handlePointerMove cx cy w)).
Proof.
  intros Hs. destruct (handlePointerMove_state cx cy w) as [-> | (i & item & f & _ & _ & Hf & ->)];
    [done|].
  destruct Hs as [(Hsel & [Hids Hnd] & Hz) Hnz].
  assert (map id (items (updateItem (itemId i) f (state w))) = map id (items (state w))) as Ei.
  { apply updateItem_ids. intros it. apply Hf. }
  split; [split_and!|done].
  - by eapply selectionOk_ids.
  - split; [|by rewrite Ei]. apply updateItem_Forall; [done|].
    intros it Hin _. destruct (Hf it) as [-> _]. rewrite Forall_forall in Hids. by apply Hids.
  - apply updateItem_Forall; [done|].
    intros it Hin _. destruct (Hf it) as [_ ->]. unfold zIndexOk in Hz.
    rewrite Forall_forall in Hz. by apply Hz.
Qed.

(** The structural invariant holds in every reachable world. *)
Lemma reachable_storeOk (w : World) :
  reachable w →
  worldInv (λ s, storeOk s ∧ 1 ≤ nextZIndex s) (λ _, True) w.
Proof.
  intros (events & Hok & ->).
  apply (reach_inv _ _ uuidOk anyPointer); try done.
  - split; [|done]. split_and!; [done| |constructor]. split; constructor.
  - intros. by apply addCanvasItem_storeOk.
  - intros. by apply removeItem_storeOk.
  - intros. by eapply selectItem_storeOk.
  - intros s [(Hsel & Hids & Hz) Hnz]. done.
  - intros. by apply handlePointerMove_storeOk.
Qed.

(** ** Initial size and placement *)

Lemma scaled_side_le (w L k : Z) :
  0 < w → w ≤ L → 0 ≤ k → (inject_Z w * (inject_Z k / inject_Z L) <= inject_Z k)%Q.
Proof.
  intros Hw HL Hk.
  assert (0 < inject_Z L)%Q as HL0 by (change 0%Q with (inject_Z 0); rewrite <- Zlt_Qlt; lia).
  assert (inject_Z L * (inject_Z k / inject_Z L) == inject_Z k)%Q as E by (field; lra).
  rewrite <- E at 2. apply Qmult_le_compat_r.
  - rewrite <- Zle_Qle. lia.
  - apply Qle_shift_div_l; [done|]. rewrite Qmult_0_l.
    change 0%Q with (inject_Z 0). rewrite <- Zle_Qle. lia.
Qed.

Lemma normalizeInitialSize_range (nw nh : Z) :
  let size := normalizeInitialSize nw nh in
  MIN_SIZE ≤ size.1 ≤ INITIAL_MAX_SIDE ∧ MIN_SIZE ≤ size.2 ≤ INITIAL_MAX_SIDE.
Proof.
  cbv zeta. unfold normalizeInitialSize. cbv zeta. cbn [fst snd].
  set (w := Z.max 1 nw). set (h := Z.max 1 nh). set (L := Z.max w h).
  assert (0 < w ∧ w ≤ L ∧ 0 < h ∧ h ≤ L) as (Hw & HwL & Hh & HhL) by lia.
  assert (∀ side scale, 0 < side → (inject_Z side * scale <= inject_Z INITIAL_MAX_SIDE)%Q →
            MIN_SIZE ≤ Z.max MIN_SIZE (jsRound (inject_Z side * scale)) ≤ INITIAL_MAX_SIDE) as Hside.
  { intros side scale Hs Hle. apply jsRound_le_int in Hle.
    unfold MIN_SIZE, INITIAL_MAX_SIDE in *. lia. }
  unfold INITIAL_MAX_SIDE, INITIAL_MIN_SIDE in *.
  destruct (Z.ltb_spec 420 L) as [H1|H1]; [|destruct (Z.ltb_spec L 80) as [H2|H2]].
  - split; apply Hside; try done; apply scaled_side_le; lia.
  - split; apply Hside; try done;
      (eapply Qle_trans; [apply scaled_side_le; lia | by rewrite <- Zle_Qle]).
  - split; apply Hside; try done; rewrite Qmult_1_r, <- Zle_Qle; lia.
Qed.

Lemma resolveInitialPlacement_range (viewport : option Viewport) (w h : Z)
    (s : ClipboardCanvasState) :
  w ≤ CANVAS_WIDTH → h ≤ CANVAS_HEIGHT →
  let p := (resolveInitialPlacement viewport w h s).1 in
  0 ≤ p.1 ≤ CANVAS_WIDTH - w ∧ 0 ≤ p.2 ≤ CANVAS_HEIGHT - h.
Proof.
  intros Hw Hh. cbv zeta. unfold resolveInitialPlacement. cbv zeta.
  destruct (isOutOfBounds _ _ _ _); cbn [fst snd];
    split; apply clampZ_between; lia.
Qed.

Lemma createCanvasItem_itemOk (env : AddEnv) (url : string) (nw nh : Z)
    (src : ItemSource) (s : ClipboardCanvasState) :
  itemOk (createCanvasItem env url nw nh src s).1.
Proof.
  rewrite createCanvasItem_spec. cbv zeta. cbn [fst].
  destruct (normalizeInitialSize_range nw nh) as [Hw Hh]. cbv zeta in Hw, Hh.
  unfold itemOk, geometryOk. cbn [x y width height].
  unfold MIN_SIZE, INITIAL_MAX_SIDE in *.
  assert ((normalizeInitialSize nw nh).1 ≤ CANVAS_WIDTH) as Hcw by (unfold CANVAS_WIDTH; lia).
  assert ((normalizeInitialSize nw nh).2 ≤ CANVAS_HEIGHT) as Hch by (unfold CANVAS_HEIGHT; lia).
  destruct (resolveInitialPlacement_range (env_viewport env) _ _ s Hcw Hch) as [Hx Hy].
  cbv zeta in Hx, Hy. unfold CANVAS_WIDTH, CANVAS_HEIGHT in *. lia.
Qed.

(** ** The geometry invariant *)

Lemma addCanvasItem_canvasOk (env : AddEnv) (url : string) (nw nh : Z) (src : ItemSource)
    (s : ClipboardCanvasState) :
  uuidOk s env → canvasOk s → canvasOk (addCanvasItem env url nw nh src s).
Proof.
  intros [_ Hfresh] [Hok Hnd]. rewrite addCanvasItem_spec. cbv zeta.
  pose proof (createCanvasItem_itemOk env url nw nh src s) as Hnew.
  destruct (createCanvasItem_id env url nw nh src s) as [Eid _].
  set (new := (createCanvasItem env url nw nh src s).1) in *.
  set (s1 := {| items := items s ++ [new] |}).
  pose proof (enforceImageLimit_items s1) as Hsub.
  split.
  - eapply sublist_Forall; [exact Hsub|]. apply Forall_app. split; [done|].
    by constructor.
  - eapply map_id_sublist; [exact Hsub|]. cbn. rewrite map_app. apply NoDup_app.
    split_and!; [done| |apply NoDup_singleton].
    intros i Hi. cbn. rewrite Eid. intros Hin%list_elem_of_singleton. by subst.
Qed.

Lemma removeItem_canvasOk (itemId : string) (s : ClipboardCanvasState) :
  canvasOk s → canvasOk (removeItem itemId s).1.
Proof.
  intros [Hok Hnd]. destruct (removeItem_items itemId s) as (Ei & _).
  assert (items (removeItem itemId s).1 `sublist_of` items s) as Hsub.
  { rewrite Ei. apply sublist_filter. }
  split; [by eapply sublist_Forall | by eapply map_id_sublist].
Qed.

Lemma selectItem_canvasOk (itemId : string) (s : ClipboardCanvasState) :
  canvasOk s → canvasOk (selectItem itemId s).
Proof.
  intros [Hok Hnd]. destruct (selectItem_ids itemId s) as (Ei & _).
  split; [|by rewrite Ei].
  apply selectItem_Forall; [done|]. intros item Hin.
  change (itemOk item). rewrite Forall_forall in Hok. by apply Hok.
Qed.

Lemma NoDup_id_inj (l : list CanvasImageItem) (a b : CanvasImageItem) :
  NoDup (map id l) → a ∈ l → b ∈ l → id a = id b → a = b.
Proof.
  induction l as [|c l IH]; intros Hnd Ha Hb Hid; [by apply elem_of_nil in Ha|].
  cbn in Hnd. apply NoDup_cons in Hnd as [Hc Hnd].
  apply elem_of_cons in Ha as [->|Ha]; apply elem_of_cons in Hb as [->|Hb].
  - done.
  - destruct Hc. rewrite Hid. apply list_elem_of_fmap. by exists b.
  - destruct Hc. rewrite <- Hid. apply list_elem_of_fmap. by exists a.
  - by apply IH.
Qed.

Lemma move_position_ok (startX startY : Z) (deltaX deltaY : Q) (item : CanvasImageItem) :
  itemOk item →
  itemOk (item_with_position
            (jsRound (clamp (inject_Z startX + deltaX) 0
                        (inject_Z CANVAS_WIDTH - inject_Z (width item))))
            (jsRound (clamp (inject_Z startY + deltaY) 0
                        (inject_Z CANVAS_HEIGHT - inject_Z (height item))))
            item).
Proof.
  intros (Hx & Hy & Hxw & Hyh & Hw & Hh).
  unfold itemOk, geometryOk. cbn [x y width height item_with_position].
  unfold CANVAS_WIDTH, CANVAS_HEIGHT, MIN_SIZE in *.
  assert (∀ v size : Z, ∀ d : Q, size ≤ 2000 →
            0 ≤ jsRound (clamp (inject_Z v + d) 0 (inject_Z 2000 - inject_Z size))
            ≤ 2000 - size) as Hc.
  { intros v size d Hs.
    assert (0 <= inject_Z 2000 - inject_Z size)%Q as Hr.
    { rewrite Zle_Qle in Hs. lra. }
    destruct (clamp_between (inject_Z v + d) 0 _ Hr) as [H1 H2]. split.
    - by apply (jsRound_ge_int _ 0).
    - apply jsRound_le_int. unfold Z.sub. rewrite inject_Z_plus, inject_Z_opp. lra. }
  pose proof (Hc startX (width item) deltaX ltac:(lia)).
  pose proof (Hc startY (height item) deltaY ltac:(lia)).
  lia.
Qed.

Lemma handlePointerMove_canvasOk (w : World) (i : Interaction) (item : CanvasImageItem)
    (cx cy : Q) :
  canvasOk (state w) → interaction w = Some i → sessionOk i → integerPointer cx cy →
  getItemById (itemId i) (state w) = Some item →
  canvasOk (state (handlePointerMove cx cy w)).
Proof.
  intros [Hok Hnd] Ei (Hsx & Hsy & Hi) [Hcx Hcy] Hget.
  unfold handlePointerMove. rewrite Ei, Hget. cbv zeta.
  apply getItemById_Some in Hget as [Hin Hid].
  assert (itemOk item) as Hitem by (rewrite Forall_forall in Hok; by apply Hok).
  destruct i as [m|r]; cbn [state with_state itemId] in *.
  - split; [|by rewrite updateItem_ids].
    apply updateItem_Forall; [done|]. intros it Hit Hidt.
    assert (it = item) as -> by (eapply NoDup_id_inj; try done; congruence).
    by apply move_position_ok.
  - split; [|by rewrite updateItem_ids].
    apply updateItem_Forall; [done|]. intros it Hit Hidt.
    unfold itemOk. cbn [x y width height item_with_geometry].
    cbn [startClientX startClientY] in *.
    destruct (isCornerHandle (rs_handle r)).
    + by apply computeCornerResize_ok.
    + apply computeEdgeResize_int; [done| |]; by apply isInt_minus.
Qed.

(** With pointer events in whole pixels, the geometry invariant holds of
    the live state, of every undo snapshot and of the session snapshot. *)
Lemma reachableInt_canvasOk (w : World) :
  reachableInt w → worldInv canvasOk sessionOk w.
Proof.
  intros (events & Hok & ->).
  apply (reach_inv _ _ uuidOk integerPointer); try done.
  - split; constructor.
  - intros. by apply addCanvasItem_canvasOk.
  - intros. by apply removeItem_canvasOk.
  - intros. by apply selectItem_canvasOk.
  - intros s item itemId cx cy snap _ [Hcx Hcy] _. by split_and!.
  - intros s item itemId cx cy h snap [Hitems _] [Hcx Hcy] Hget. split_and!; try done.
    apply getItemById_Some in Hget as [Hin _]. rewrite Forall_forall in Hitems.
    by apply Hitems.
  - intros. by eapply handlePointerMove_canvasOk.
Qed.

(** ** The sort of [enforceImageLimit]

    [sortByCreatedAt] is the stable sort by creation time: its result is a
    permutation of its argument, it is ordered by [createdAt], and items
    with the same time stamp keep their order. *)

Lemma insertByCreatedAt_Permutation (a : CanvasImageItem) (l : list CanvasImageItem) :
  insertByCreatedAt a l ≡ₚ a :: l.
Proof.
  induction l as [|b l IH]; [done|]. cbn [insertByCreatedAt].
  destruct (createdAt a <=? createdAt b); [done|].
  rewrite IH. apply Permutation_swap.
Qed.

Lemma sortByCreatedAt_Permutation (l : list CanvasImageItem) : sortByCreatedAt l ≡ₚ l.
Proof.
  induction l as [|a l IH]; [done|].
  change (sortByCreatedAt (a :: l)) with (insertByCreatedAt a (sortByCreatedAt l)).
  by rewrite insertByCreatedAt_Permutation, IH.
Qed.

Lemma insertByCreatedAt_sorted (a : CanvasImageItem) (l : list CanvasImageItem) :
  StronglySorted (λ p q, createdAt p ≤ createdAt q) l →
  StronglySorted (λ p q, createdAt p ≤ createdAt q) (insertByCreatedAt a l).
Proof.
  induction 1 as [|b l Hl IH Hb]; cbn [insertByCreatedAt].
  { repeat constructor. }
  destruct (Z.leb_spec (createdAt a) (createdAt b)) as [Hle|Hlt].
  - constructor; [by constructor|]. constructor; [done|].
    eapply Forall_impl; [exact Hb|]. cbn. intros; lia.
  - constructor; [done|].
    rewrite (insertByCreatedAt_Permutation a l). constructor; [lia|done].
Qed.

Lemma sortByCreatedAt_sorted (l : list CanvasImageItem) :
  StronglySorted (λ p q, createdAt p ≤ createdAt q) (sortByCreatedAt l).
Proof.
  induction l as [|a l IH]; [constructor|].
  change (sortByCreatedAt (a :: l)) with (insertByCreatedAt a (sortByCreatedAt l)).
  by apply insertByCreatedAt_sorted.
Qed.

Lemma insertByCreatedAt_stable (t : Z) (a : CanvasImageItem) (l : list CanvasImageItem) :
  filter (λ item, createdAt item = t) (insertByCreatedAt a l)
  = filter (λ item, createdAt item = t) (a :: l).
Proof.
  induction l as [|b l IH]; [done|]. cbn [insertByCreatedAt].
  destruct (Z.leb_spec (createdAt a) (createdAt b)) as [Hle|Hlt]; [done|].
  rewrite (filter_cons _ b), IH, !filter_cons.
  destruct (decide (createdAt b = t)), (decide (createdAt a = t)); try done. lia.
Qed.

Lemma sortByCreatedAt_stable (t : Z) (l : list CanvasImageItem) :
  filter (λ item, createdAt item = t) (sortByCreatedAt l)
  = filter (λ item, createdAt item = t) l.
Proof.
  induction l as [|a l IH]; [done|].
  change (sortByCreatedAt (a :: l)) with (insertByCreatedAt a (sortByCreatedAt l)).
  by rewrite insertByCreatedAt_stable, !filter_cons, IH.
Qed.

(** ** The item cap *)




Lemma filter_all {A} (Keep : A → Prop) `{∀ a, Decision (Keep a)} (l : list A) :
  Forall Keep l → filter Keep l = l.
Proof.
  induction 1 as [|a l Ha Hl IH]; [done|].
  rewrite filter_cons, decide_True by done. by rewrite IH.
Qed.




Lemma addCanvasItem_no_overflow (env : AddEnv) (url : string) (nw nh : Z) (src : ItemSource)
    (s : ClipboardCanvasState) :
  (length (items s) < MAX_IMAGES)%nat →
  items (addCanvasItem env url nw nh src s)
  = items s ++ [(createCanvasItem env url nw nh src s).1]
  ∧ selectedId (addCanvasItem env url nw nh src s) = Some (env_uuid env).
Proof.
  intros Hlen. rewrite addCanvasItem_spec. cbv zeta. unfold enforceImageLimit.
  cbn [items]. rewrite length_app. cbn [length].
  destruct (Nat.leb_spec (length (items s) + 1) MAX_IMAGES) as [_|H]; [done|lia].
Qed.


(** ** Sessions and undo *)

Lemma getItemById_is_Some (itemId : string) (s : ClipboardCanvasState) :
  is_Some (getItemById itemId s) ↔ itemId ∈ map id (items s).
Proof.
  split.
  - intros [item Hget]. apply getItemById_Some in Hget as [Hin <-].
    apply list_elem_of_fmap. by exists item.
  - intros (item & -> & Hin)%list_elem_of_fmap. by eapply getItemById_elem.
Qed.

Lemma handlePointerMove_session (cx cy : Q) (w : World) (i : Interaction) :
  interaction w = Some i → is_Some (getItemById (itemId i) (state w)) →
  interaction (handlePointerMove cx cy w) = Some i
  ∧ undoStack (handlePointerMove cx cy w) = undoStack w
  ∧ is_Some (getItemById (itemId i) (state (handlePointerMove cx cy w))).
Proof.
  intros Ei [item Hget]. rewrite handlePointerMove_unfold, Ei, Hget.
  cbn [interaction undoStack state with_state]. split_and!; try done.
  apply getItemById_is_Some. rewrite updateItem_ids by (intros; apply pointerUpdate_id).
  apply getItemById_is_Some. by eexists.
Qed.

Lemma pointerMoves_session (moves : list (Q * Q)) (w : World) (i : Interaction) :
  interaction w = Some i → is_Some (getItemById (itemId i) (state w)) →
  interaction (run (pointerMoves moves) w) = Some i
  ∧ undoStack (run (pointerMoves moves) w) = undoStack w.
Proof.
  revert w. induction moves as [|[cx cy] moves IH]; intros w Ei Hsome; [done|].
  change (run (pointerMoves ((cx, cy) :: moves)) w)
    with (run (pointerMoves moves) (handlePointerMove cx cy w)).
  destruct (handlePointerMove_session cx cy w i Ei Hsome) as (E1 & E2 & E3).
  destruct (IH _ E1 E3) as [E4 E5]. by rewrite E4, E5, E2.
Qed.

(** Releasing the pointer after a session that changed the canvas pushes
    the pre-session snapshot, and [undo] then restores exactly it. *)
Lemma undo_after_commit (w : World) (i : Interaction) :
  interaction w = Some i →
  isUndoTargetChanged (startSnapshot i) (state w) = true →
  let w1 := handlePointerUp w in
  interaction w1 = None ∧ state w1 = state w
  ∧ undoStack w1 = undoStack (pushUndo (startSnapshot i) w)
  ∧ last (undoStack w1) = Some (startSnapshot i)
  ∧ state (undo w1) = startSnapshot i
  ∧ undoStack (undo w1) = take (length (undoStack w1) - 1) (undoStack w1)
  ∧ noticeMessage (undo w1) = NoticeUndone.
Proof.
  intros Ei Hch. cbv zeta. unfold handlePointerUp, stopInteraction. rewrite Ei. cbv zeta.
  cbn [negb]. rewrite createSnapshot_state. cbn [state with_interaction]. rewrite Hch.
  set (w1 := pushUndo (startSnapshot i) (with_interaction None w)).
  assert (last (undoStack w1) = Some (startSnapshot i)) as Hl by apply pushUndo_last.
  split_and!; try done.
  all: unfold undo; replace (interaction w1) with (@None Interaction) by done.
  all: assert (canUndo w1 = true) as ->
         by (unfold canUndo; destruct (undoStack w1); [done|done]).
  all: cbn [negb orb isSome]; rewrite Hl; cbv zeta; unfold applySnapshot.
  all: by rewrite cloneSnapshot_id.
Qed.

(** C2. A drag session on an existing item, any sequence of pointer moves
    and the release of the pointer: if the canvas differs from the
    pre-session snapshot (so the release pushed that snapshot), [undo]
    right after the release pops the most recent snapshot and makes it
    the live state, which is then the state before the session; the moved
    item is again the very item record the session started from, with its
    position and its size. *)
Theorem undo_restores_committed_move (w0 : World) (cx cy : Q) (itemId : string)
    (item : CanvasImageItem) (moves : list (Q * Q)) :
  getItemById itemId (state w0) = Some item →
  let w1 := startMove true 0 cx cy itemId w0 in
  let w2 := run (pointerMoves moves) w1 in
  let w3 := handlePointerUp w2 in
  isUndoTargetChanged (state w0) (state w2) = true →
  undoStack w3 = undoStack (pushUndo (state w0) w0)
  ∧ last (undoStack w3) = Some (state w0)
  ∧ interaction w3 = None
  ∧ state (undo w3) = state w0
  ∧ undoStack (undo w3) = take (length (undoStack w3) - 1) (undoStack w3)
  ∧ getItemById itemId (state (undo w3)) = Some item.
Proof.
  intros Hget. cbv zeta.
  set (w1 := startMove true 0 cx cy itemId w0).
  set (m := {| mv_itemId := itemId; mv_startClientX := cx; mv_startClientY := cy;
               mv_startX := x item; mv_startY := y item;
               mv_startSnapshot := state w0 |}).
  assert (interaction w1 = Some (Move m) ∧ undoStack w1 = undoStack w0
          ∧ state w1 = selectItem itemId (state w0)) as (Ei & Eu & Es).
  { unfold w1, startMove. cbn [negb orb Z.eqb]. rewrite Hget. cbv zeta.
    by rewrite createSnapshot_state. }
  assert (is_Some (getItemById (mv_itemId m) (state w1))) as Hsome.
  { apply getItemById_is_Some. rewrite Es.
    destruct (selectItem_ids itemId (state w0)) as (-> & _).
    apply getItemById_is_Some. by eexists. }
  destruct (pointerMoves_session moves w1 (Move m) Ei Hsome) as [Ei2 Eu2].
  intros Hch.
  destruct (undo_after_commit _ _ Ei2 Hch) as (H1 & H2 & H3 & H4 & H5 & H6 & H7).
  cbv zeta in *. cbn [startSnapshot mv_startSnapshot m] in *.
  split_and!; try done.
  - rewrite H3. rewrite !pushUndo_stack. by rewrite Eu2, Eu.
  - by rewrite H5.
Qed.

(** ** Selection and stacking order *)

Lemma fold_max_spec (l : list CanvasImageItem) (m0 : Z) :
  let m := fold_left (λ maxZ item, Z.max maxZ (zIndex item)) l m0 in
  m0 ≤ m ∧ Forall (λ item, zIndex item ≤ m) l
  ∧ (m = m0 ∨ ∃ item, item ∈ l ∧ m = zIndex item).
Proof.
  cbv zeta. revert m0. induction l as [|a l IH]; intros m0; cbn [fold_left].
  { split_and!; [lia|constructor|by left]. }
  destruct (IH (Z.max m0 (zIndex a))) as (H1 & H2 & H3).
  split_and!; [lia| |].
  - constructor; [lia|done].
  - destruct H3 as [H3|(item & Hin & H3)].
    + destruct (Z.max_spec m0 (zIndex a)) as [[? E]|[? E]].
      * right. exists a. split; [apply elem_of_cons; by left|lia].
      * left. lia.
    + right. exists item. split; [apply elem_of_cons; by right|done].
Qed.

Lemma updateItem_getItemById (itemId : string) (f : CanvasImageItem → CanvasImageItem)
    (s : ClipboardCanvasState) (current : CanvasImageItem) :
  (∀ item, id (f item) = id item) →
  getItemById itemId s = Some current →
  getItemById itemId (updateItem itemId f s) = Some (f current).
Proof.
  intros Hf. unfold getItemById, updateItem. cbn [items with_items].
  induction (items s) as [|a l IH]; [done|]. cbn [find map].
  case_bool_decide as Ha.
  - intros [= ->]. by rewrite Hf, bool_decide_eq_true_2.
  - rewrite bool_decide_eq_false_2 by done. apply IH.
Qed.


(** ** Initial placement *)

Lemma Qfloor_add_int (p : Q) (n : Z) : Qfloor (p + inject_Z n) = Qfloor p + n.
Proof.
  pose proof (Qfloor_le (p + inject_Z n)) as H1.
  pose proof (Qlt_floor (p + inject_Z n)) as H2.
  pose proof (Qfloor_le p) as H3.
  pose proof (Qlt_floor p) as H4.
  rewrite inject_Z_plus in H2, H4. change (inject_Z 1) with 1%Q in *.
  assert (inject_Z (Qfloor (p + inject_Z n)) < inject_Z (Qfloor p + n + 1))%Q as Ha.
  { rewrite !inject_Z_plus. change (inject_Z 1) with 1%Q. lra. }
  assert (inject_Z (Qfloor p + n) < inject_Z (Qfloor (p + inject_Z n) + 1))%Q as Hb.
  { rewrite !inject_Z_plus. change (inject_Z 1) with 1%Q. lra. }
  rewrite <- Zlt_Qlt in Ha, Hb. lia.
Qed.

Lemma jsRound_add_int (q : Q) (n : Z) : jsRound (q + inject_Z n) = jsRound q + n.
Proof.
  unfold jsRound. rewrite <- Qfloor_add_int. apply Qfloor_comp. ring.
Qed.




Lemma clampZ_inside (v lo hi : Z) : lo ≤ v ≤ hi → clampZ v lo hi = v.
Proof. intros H. unfold clampZ. destruct (Z.ltb_spec hi lo); lia. Qed.





(** The reset at work: with a viewport of 120 x 120 pixels scrolled to the
    far corner the centre is (1940, 1940); the first 100 x 100 item lands
    at (1890, 1890), the candidate of the second one at offset 1 is out of
    bounds, so the offset is reset and the item lands at the exact centre
    position as well; the counter is 1 again. *)
Example placement_out_of_bounds_resets :
  let envA := {| env_viewport := Some cornerViewport; env_uuid := sampleUuid 0;
                 env_now := 1000 |} in
  let envB := {| env_viewport := Some cornerViewport; env_uuid := sampleUuid 1;
                 env_now := 1001 |} in
  let s1 := addCanvasItem envA "data:,a" 100 100 SourcePaste initialState in
  let s2 := addCanvasItem envB "data:,b" 100 100 SourcePaste s1 in
  isOutOfBounds (calc (getViewportCenter (Some cornerViewport)) 100 100 1).1
    (calc (getViewportCenter (Some cornerViewport)) 100 100 1).2 100 100 = true
  ∧ map (λ item, (x item, y item)) (items s2) = [(1890, 1890); (1890, 1890)]
  ∧ placementOffsetIndex s1 = 1 ∧ placementOffsetIndex s2 = 1.
Proof. by vm_compute. Qed.

(** ** Copy *)

Lemma copySelectedImage_frame (active : bool) (w : World) :
  let w' := (copySelectedImage active w).1 in
  state w' = state w ∧ undoStack w' = undoStack w ∧ interaction w' = interaction w
  ∧ isDragActive w' = isDragActive w
  ∧ (noticeMessage w' = noticeMessage w ∨ noticeMessage w' = NoticeCopyNoData).
Proof.
  cbv zeta. unfold copySelectedImage. destruct (negb active); [split_and!; auto|].
  destruct (selectedItem (state w)); [|split_and!; auto].
  destruct (extractBase64 _); [|cbn; split_and!; auto].
  case_bool_decide; cbn; split_and!; auto.
Qed.

Lemma copySelectedImage_settled_frame (o : WriteOutcome) (w : World) :
  let w' := copySelectedImage_settled o w in
  state w' = state w ∧ undoStack w' = undoStack w ∧ interaction w' = interaction w
  ∧ isDragActive w' = isDragActive w
  ∧ noticeMessage w' ∈ [NoticeCopied; NoticeCopyInvalidPayload; NoticeCopyDecodeFailed;
                        NoticeCopyWriteFailed; NoticeCopyFailed].
Proof.
  cbv zeta. destruct o as [[[] [[]|]]|]; cbn; split_and!; try done; set_solver.
Qed.

(** The result of the main process is success without a reason or a failure
    with one of the three reasons. *)
Lemma writeClipboardImage_result (host : ClipboardHost)
    (payload : option ClipboardWritePayload) :
  let r := writeClipboardImage host payload in
  (ok r = true ∧ reason r = None)
  ∨ (ok r = false ∧ ∃ why, reason r = Some why).
Proof.
  cbv zeta. unfold writeClipboardImage, writeFailure.
  destruct payload as [p|]; [|right; eauto].
  repeat match goal with
         | |- context [if ?b then _ else _] => destruct b
         end; cbn; eauto.
Qed.

(** C9. Copy does not touch the canvas.  Up to its [await],
    [copySelectedImage] leaves the canvas state (items, selection, z-index
    counter, placement counter), the undo stack and the session as they
    are; so does the part after the [await], in whatever world [w2] it
    resumes and however the clipboard write settled: success, failure
    with one of the three reasons or with none, or a rejected promise; in
    particular for every result that [writeClipboardImage] of the main
    process can return.  Only the notice can change. *)
Theorem copy_preserves_canvas (active : bool) (w w2 : World) (o : WriteOutcome)
    (host : ClipboardHost) (payload : option ClipboardWritePayload) :
  let started := (copySelectedImage active w).1 in
  let settled := copySelectedImage_settled o w2 in
  let bridged := copySelectedImage_settled (Resolved (writeClipboardImage host payload)) w2 in
  state started = state w ∧ undoStack started = undoStack w
  ∧ interaction started = interaction w
  ∧ state settled = state w2 ∧ undoStack settled = undoStack w2
  ∧ interaction settled = interaction w2
  ∧ state bridged = state w2 ∧ undoStack bridged = undoStack w2
  ∧ state (copySelectedImage_settled o started) = state w
  ∧ undoStack (copySelectedImage_settled o started) = undoStack w.
Proof.
  cbv zeta.
  destruct (copySelectedImage_frame active w) as (E1 & E2 & E3 & _).
  destruct (copySelectedImage_settled_frame o w2) as (E4 & E5 & E6 & _).
  destruct (copySelectedImage_settled_frame
              (Resolved (writeClipboardImage host payload)) w2) as (E9 & E10 & _).
  destruct (copySelectedImage_settled_frame o (copySelectedImage active w).1)
    as (E7 & E8 & _).
  cbv zeta in *. split_and!; congruence.
Qed.

(** Undo, unlike copy, is a no-op while a session is running. *)
Lemma undo_noop_during_session (w : World) :
  isSome (interaction w) = true → undo w = w.
Proof. intros H. unfold undo. by rewrite H, orb_true_r. Qed.

(** What the copy shortcut does, session or not. *)
Lemma handleKeyDown_copy (active focused : bool) (ev : KeyboardEvent) (w : World) :
  isCopyShortcut ev = true →
  handleKeyDown active focused ev w =
  if negb active || focused then (w, None)
  else if negb (truthy (selectedId (state w))) then (w, None)
       else copySelectedImage active w.
Proof.
  unfold isCopyShortcut, handleKeyDown. intros ->. done.
Qed.

(** C6 as amended.  The copy shortcut is not suppressed by a running
    session: [handleKeyDown] handles it without looking at the session, so
    it does during a session what it does when idle.  With the component
    active, no text input focused and a selected item whose data URL has a
    non-empty base64 part, the clipboard-write contract is invoked with
    that part; canvas state, undo history and the session are unchanged,
    and the notice changes at once only to the no-data notice (and later
    when the write settles). *)
Theorem copy_shortcut_ignores_session (active focused : bool) (ev : KeyboardEvent)
    (w : World) (i : option Interaction) :
  isCopyShortcut ev = true →
  let r := handleKeyDown active focused ev w in
  handleKeyDown active focused ev (with_interaction i w) = (with_interaction i r.1, r.2)
  ∧ state r.1 = state w ∧ undoStack r.1 = undoStack w ∧ interaction r.1 = interaction w
  ∧ (noticeMessage r.1 = noticeMessage w ∨ noticeMessage r.1 = NoticeCopyNoData)
  ∧ ∀ item base64,
      active = true → focused = false →
      selectedItem (state w) = Some item → id item ≠ EmptyString →
      extractBase64 (dataUrl item) = Some base64 → base64 ≠ EmptyString →
      r = (w, Some {| cwp_mimeType := "image/png"; cwp_base64 := base64 |}).
Proof.
  intros Hc. cbv zeta. rewrite !handleKeyDown_copy by done.
  cbn [state with_interaction].
  pose proof (copySelectedImage_frame active w) as Hf. cbv zeta in Hf.
  split; [|split_and!].
  - destruct (negb active || focused); [done|].
    destruct (negb (truthy _)); [done|].
    unfold copySelectedImage. destruct (negb active); [done|].
    cbn [state with_interaction]. destruct (selectedItem (state w)); [|done].
    destruct (extractBase64 _); [|done]. by case_bool_decide.
  - destruct (negb active || focused); [done|]. destruct (negb (truthy _)); [done|]. apply Hf.
  - destruct (negb active || focused); [done|]. destruct (negb (truthy _)); [done|]. apply Hf.
  - destruct (negb active || focused); [done|]. destruct (negb (truthy _)); [done|]. apply Hf.
  - destruct (negb active || focused); [by left|]. destruct (negb (truthy _)); [by left|].
    apply Hf.
  - intros item base64 -> -> Hsel Hid Hb Hne. cbn [negb orb].
    assert (selectedId (state w) = Some (id item)) as Es.
    { unfold selectedItem in Hsel. destruct (selectedId (state w)) as [sel|]; [|done].
      apply getItemById_Some in Hsel as [_ ->]. done. }
    rewrite Es. cbn [truthy]. rewrite bool_decide_eq_false_2 by done. cbn [negb].
    unfold copySelectedImage. cbn [negb]. rewrite Hsel, Hb.
    by rewrite bool_decide_eq_false_2.
Qed.

(** ** Batch drop *)









(** ** Selection *)

(** C10. In every reachable world the selected id is [null] or the id of
    an item of the item sequence.  Reachable worlds are closed under every
    handler (paste and drop with cap eviction, delete, undo, selection by
    mouse down, clearing the selection, pointer moves), and the same holds
    of every snapshot that undo can restore. *)
Theorem selection_names_present_item (w : World) :
  reachable w →
  (selectedId (state w) = None
   ∨ ∃ item, item ∈ items (state w) ∧ selectedId (state w) = Some (id item))
  ∧ Forall selectionOk (undoStack w).
Proof.
  intros Hreach. destruct (reachable_storeOk w Hreach) as ([(Hsel & _) _] & HU & _).
  split.
  - unfold selectionOk in Hsel. destruct (selectedId (state w)) as [sel|]; [|by left].
    right. destruct Hsel as (item & Hin & <-). by exists item.
  - eapply Forall_impl; [exact HU|]. by intros s [(? & _) _].
Qed.

(** ** Geometry *)

(** With pointer coordinates in whole pixels every placed item of every
    reachable world satisfies the geometry invariants. *)
Theorem geometry_invariant_whole_pixels (w : World) (item : CanvasImageItem) :
  reachableInt w → item ∈ items (state w) →
  0 ≤ x item ∧ 0 ≤ y item
  ∧ x item + width item ≤ 2000 ∧ y item + height item ≤ 2000
  ∧ 24 ≤ width item ∧ 24 ≤ height item.
Proof.
  intros Hreach Hin. destruct (reachableInt_canvasOk w Hreach) as ([Hok _] & _).
  rewrite Forall_forall in Hok. exact (Hok item Hin).
Qed.

Ltac solve_uuidOk :=
  split; [by vm_compute | apply (bool_decide_unpack _); by vm_compute].

Lemma sample_runOk_half : runOk uuidOk anyPointer halfPixelEvents initialWorld.
Proof. cbn. split_and!; try done. solve_uuidOk. Qed.

(** C1 at the failing input.  An item of 100 x 100 pixels whose right edge
    is on the canvas edge ([x = 1900]) is resized with its west handle by a
    pointer delta of half a pixel: [computeEdgeResize] keeps the right edge
    at 2000 before rounding ([x = 1900.5], [width = 99.5]) and then rounds
    both values up, to [x = 1901] and [width = 100], so that
    [x + width = 2001].  The start geometry satisfies the invariants, and
    the resulting world is reachable. *)
Theorem edge_resize_half_pixel_overflow :
  startOk halfPixelStart
  ∧ computeEdgeResize halfPixelStart (1 # 2) 0
    = {| g_x := 1901; g_y := 950; g_width := 100; g_height := 100 |}
  ∧ ¬ resultOk (computeEdgeResize halfPixelStart (1 # 2) 0)
  ∧ reachable (run halfPixelEvents initialWorld)
  ∧ ∃ item, items (state (run halfPixelEvents initialWorld)) = [item]
            ∧ x item = 1901 ∧ width item = 100 ∧ ¬ itemOk item.
Proof.
  split_and!.
  - unfold startOk, geometryOk. by vm_compute.
  - by vm_compute.
  - assert (computeEdgeResize halfPixelStart (1 # 2) 0
            = {| g_x := 1901; g_y := 950; g_width := 100; g_height := 100 |}) as ->
      by (by vm_compute).
    unfold resultOk, geometryOk, CANVAS_WIDTH. cbn. lia.
  - exists halfPixelEvents. split; [apply sample_runOk_half|done].
  - eexists. split; [by vm_compute|]. cbn [x width].
    split_and!; [done|done|]. unfold itemOk, geometryOk, CANVAS_WIDTH. cbn. lia.
Qed.

(** C6 at a concrete input.  A move session is running on the selected
    item; Ctrl+C invokes the clipboard-write contract with the item's
    base64 data, and when the write has settled the notice has changed. *)
Lemma copy_shortcut_runs_during_session :
  isSome (interaction sessionWorld) = true
  ∧ isCopyShortcut ctrlC = true
  ∧ truthy (selectedId (state sessionWorld)) = true
  ∧ (handleKeyDown true false ctrlC sessionWorld).2
    = Some {| cwp_mimeType := "image/png"; cwp_base64 := "AAAA" |}
  ∧ noticeMessage sessionWorld = NoticePasted
  ∧ noticeMessage
      (run [EvKeyDown true false ctrlC;
            EvCopySettled (Resolved {| ok := true; reason := None |})] sessionWorld)
    = NoticeCopied.
Proof. split_and!; by vm_compute. Qed.

(** ** Corner resize: one scale factor *)







(** ** The theorems at concrete inputs *)

(** C2 on the pasted item dragged by (10, 5) and released. *)
Lemma undo_restores_committed_move_witness :
  getItemById (sampleUuid 0) (state oneItemWorld) = Some pastedItem
  ∧ isUndoTargetChanged (state oneItemWorld) (state draggedWorld) = true
  ∧ state (undo releasedWorld) = state oneItemWorld
  ∧ getItemById (sampleUuid 0) (state (undo releasedWorld)) = Some pastedItem.
Proof.
  assert (getItemById (sampleUuid 0) (state oneItemWorld) = Some pastedItem) as H1
    by (vm_compute; reflexivity).
  assert (isUndoTargetChanged (state oneItemWorld) (state draggedWorld) = true) as H2
    by (vm_compute; reflexivity).
  pose proof (undo_restores_committed_move oneItemWorld 0 0 (sampleUuid 0) pastedItem
                [(10%Q, 5%Q)] H1 H2) as (_ & _ & _ & H3 & _ & H4).
  split; [exact H1|]. split; [exact H2|]. split; [exact H3|exact H4].
Defined.




(** C6 as amended, on a running move session. *)
Lemma copy_shortcut_ignores_session_witness :
  isCopyShortcut ctrlC = true
  ∧ selectedItem (state sessionWorld) = Some pastedItem
  ∧ id pastedItem ≠ EmptyString
  ∧ extractBase64 (dataUrl pastedItem) = Some "AAAA"
  ∧ handleKeyDown true false ctrlC sessionWorld
    = (sessionWorld, Some {| cwp_mimeType := "image/png"; cwp_base64 := "AAAA" |}).
Proof.
  assert (isCopyShortcut ctrlC = true) as H1 by reflexivity.
  assert (selectedItem (state sessionWorld) = Some pastedItem) as H2
    by (vm_compute; reflexivity).
  assert (id pastedItem ≠ EmptyString) as H3 by (vm_compute; discriminate).
  assert (extractBase64 (dataUrl pastedItem) = Some "AAAA") as H4
    by (vm_compute; reflexivity).
  assert ("AAAA" ≠ EmptyString) as H5 by discriminate.
  pose proof (copy_shortcut_ignores_session true false ctrlC sessionWorld None H1)
    as (_ & _ & _ & _ & _ & H).
  split; [exact H1|]. split; [exact H2|]. split; [exact H3|]. split; [exact H4|].
  exact (H pastedItem "AAAA" eq_refl eq_refl H2 H3 H4 H5).
Defined.

(** Two pastes with distinct UUIDs lead to a reachable world. *)
Lemma twoItemWorld_reachable : reachable twoItemWorld.
Proof.
  exists [samplePaste 0; samplePaste 1]. split; [|reflexivity].
  cbn [runOk eventOk samplePaste]. split; [|split; [|exact I]].
  - split; [vm_compute; discriminate|].
    apply (bool_decide_unpack _); vm_compute; exact I.
  - split; [vm_compute; discriminate|].
    apply (bool_decide_unpack _); vm_compute; exact I.
Defined.



(** C10 on the world after two pastes. *)
Lemma selection_names_present_item_witness :
  reachable twoItemWorld
  ∧ (selectedId (state twoItemWorld) = None
     ∨ ∃ item, item ∈ items (state twoItemWorld)
               ∧ selectedId (state twoItemWorld) = Some (id item)).
Proof.
  split; [exact twoItemWorld_reachable|].
  exact (proj1 (selection_names_present_item twoItemWorld twoItemWorld_reachable)).
Defined.

(** * Further properties of the canvas *)

(** ** The undo history *)

Lemma pushUndo_stack_ext (snapshot : ClipboardCanvasSnapshot) (w w' : World) :
  undoStack w = undoStack w' →
  undoStack (pushUndo snapshot w) = undoStack (pushUndo snapshot w').
Proof. intros E. by rewrite !pushUndo_stack, E. Qed.








(** ** The item cap *)

Lemma runOk_True (events : list Event) (w : World) :
  runOk (λ _ _, True) anyPointer events w.
Proof.
  revert w. induction events as [|e events IH]; intros w; [done|].
  split; [|apply IH].
  destruct e as [? r ?| | | | | | | | | | | |? files]; try done.
  - by destruct r.
  - destruct files as [fileList|]; [|done]. cbn.
    generalize (state w). induction (List.filter isImageFile fileList) as [|f l IHl];
      intros s; [done|]. split; [done|apply IHl].
Qed.

Lemma filter_removed (R : gset string) (l : list CanvasImageItem) :
  Forall (λ item, id item ∈ R) l → filter (λ item, id item ∉ R) l = [].
Proof.
  induction 1 as [|a l Ha _ IH]; [done|].
  rewrite filter_cons. by destruct (decide (id a ∉ R)).
Qed.

(** [enforceImageLimit] leaves at most 50 items, whatever the state. *)
Lemma enforceImageLimit_length (s : ClipboardCanvasState) :
  (length (items (enforceImageLimit s)) ≤ MAX_IMAGES)%nat.
Proof.
  unfold enforceImageLimit.
  destruct (Nat.leb_spec (length (items s)) MAX_IMAGES) as [Hle|Hgt]; [done|].
  cbv zeta. set (overflow := (length (items s) - MAX_IMAGES)%nat).
  set (R := removeIdsOf (items s) overflow).
  assert (length (filter (λ item, id item ∉ R) (items s)) ≤ MAX_IMAGES)%nat as Hlen.
  { rewrite <- (Permutation_length
                  (filter_Permutation (λ item, id item ∉ R) _ _
                     (sortByCreatedAt_Permutation (items s)))).
    rewrite <- (take_drop overflow (sortByCreatedAt (items s))) at 1.
    rewrite filter_app, filter_removed, app_nil_l.
    - etrans; [apply length_filter|]. rewrite length_drop.
      rewrite (Permutation_length (sortByCreatedAt_Permutation (items s))).
      unfold overflow. lia.
    - rewrite Forall_forall. intros item Hin. unfold R, removeIdsOf.
      rewrite elem_of_list_to_set. apply list_elem_of_fmap. by exists item. }
  cbn [selectedId with_items].
  destruct (selectedId s) as [sel|]; [|done].
  by destruct (truthy (Some sel) && _).
Qed.

Lemma addCanvasItem_length (env : AddEnv) (url : string) (nw nh : Z) (src : ItemSource)
    (s : ClipboardCanvasState) :
  (length (items (addCanvasItem env url nw nh src s)) ≤ MAX_IMAGES)%nat.
Proof. rewrite addCanvasItem_spec. apply enforceImageLimit_length. Qed.

Lemma handlePointerMove_length (cx cy : Q) (w : World) :
  length (items (state (handlePointerMove cx cy w))) = length (items (state w)).
Proof.
  destruct (handlePointerMove_state cx cy w) as [-> | (i & item & f & _ & _ & _ & ->)];
    [done|].
  unfold updateItem. cbn [items with_items]. by rewrite length_map.
Qed.

(** X2. Whatever events arrive, the canvas never holds more than 50
    items, and neither does any snapshot that undo can bring back. *)
Theorem canvas_never_exceeds_cap (events : list Event) :
  let w := run events initialWorld in
  (length (items (state w)) ≤ MAX_IMAGES)%nat
  ∧ Forall (λ snapshot, (length (items snapshot) ≤ MAX_IMAGES)%nat) (undoStack w).
Proof.
  cbv zeta.
  pose proof (reach_inv (λ s, (length (items s) ≤ MAX_IMAGES)%nat) (λ _, True)
                (λ _ _, True) anyPointer) as H.
  destruct (H ltac:(cbn; unfold MAX_IMAGES; lia)
              ltac:(intros; apply addCanvasItem_length)) with (events := events)
    as (H1 & H2 & _); try done.
  - intros itemId s Hs. destruct (removeItem_items itemId s) as [-> _].
    etrans; [apply length_filter|done].
  - intros itemId item s Hs _.
    pose proof (selectItem_ids itemId s) as [E _].
    apply (f_equal length) in E. rewrite !length_map in E. by rewrite E.
  - intros w i item cx cy Hs _ _ _ _. by rewrite handlePointerMove_length.
  - apply runOk_True.
Qed.

(** ** Stacking order *)

Lemma NoDup_fmap_inj {A B} (g : A → B) (l : list A) (a b : A) :
  NoDup (map g l) → a ∈ l → b ∈ l → g a = g b → a = b.
Proof.
  induction l as [|c l IH]; intros Hnd Ha Hb Hg; [by apply elem_of_nil in Ha|].
  cbn in Hnd. apply NoDup_cons in Hnd as [Hc Hnd].
  apply elem_of_cons in Ha as [->|Ha]; apply elem_of_cons in Hb as [->|Hb].
  - done.
  - destruct Hc. rewrite Hg. apply list_elem_of_fmap. by exists b.
  - destruct Hc. rewrite <- Hg. apply list_elem_of_fmap. by exists a.
  - by apply IH.
Qed.

Lemma updateItem_map {B} (g : CanvasImageItem → B) (itemId : string)
    (f : CanvasImageItem → CanvasImageItem) (s : ClipboardCanvasState) :
  (∀ item, g (f item) = g item) →
  map g (items (updateItem itemId f s)) = map g (items s).
Proof.
  intros Hf. unfold updateItem. cbn [items with_items].
  induction (items s) as [|a l IH]; [done|]. cbn [map]. rewrite IH.
  case_bool_decide; by rewrite ?Hf.
Qed.

Lemma find_app_None {A} (f : A → bool) (l1 l2 : list A) :
  find f l1 = None → find f (l1 ++ l2) = find f l2.
Proof.
  induction l1 as [|a l1 IH]; [done|]. cbn. destruct (f a); [done|apply IH].
Qed.

Lemma find_None_id (itemId : string) (l : list CanvasImageItem) :
  itemId ∉ map id l → find (λ item, bool_decide (id item = itemId)) l = None.
Proof.
  induction l as [|a l IH]; [done|]. cbn. intros Hn.
  rewrite bool_decide_eq_false_2.
  - apply IH. intros Hin. apply Hn. by apply elem_of_cons; right.
  - intros E. apply Hn. apply elem_of_cons. by left.
Qed.

(** Raising the item with a given id to a z-index above all others. *)
Lemma raise_zIndexes (itemId : string) (nz : Z) (l : list CanvasImageItem) :
  NoDup (map id l) → NoDup (map zIndex l) → Forall (λ z, 1 ≤ z < nz) (map zIndex l) →
  let l' := map (λ item, if bool_decide (id item = itemId)
                         then item_with_zIndex nz item else item) l in
  NoDup (map zIndex l') ∧ Forall (λ z, 1 ≤ z < nz + 1) (map zIndex l').
Proof.
  intros Hid Hz Hlt. cbv zeta.
  induction l as [|a l IH]; [split; constructor|].
  cbn [map] in *. apply NoDup_cons in Hid as [Hida Hid]. apply NoDup_cons in Hz as [Hza Hz].
  apply Forall_cons in Hlt as [Ha Hlt].
  destruct (IH Hid Hz Hlt) as [IH1 IH2].
  split.
  - apply NoDup_cons. split; [|done].
    intros (b' & Eb & Hb')%list_elem_of_fmap.
    apply list_elem_of_fmap in Hb' as (b & -> & Hb).
    assert (1 ≤ zIndex b < nz) as Hbz.
    { rewrite Forall_forall in Hlt. apply Hlt. apply list_elem_of_fmap. by exists b. }
    case_bool_decide as Ea; case_bool_decide as Eb'; cbn in Eb.
    + destruct Hida. rewrite Ea, <- Eb'. apply list_elem_of_fmap. by exists b.
    + lia.
    + lia.
    + destruct Hza. rewrite Eb. apply list_elem_of_fmap. by exists b.
  - apply Forall_cons. split; [|done]. case_bool_decide; cbn; lia.
Qed.

Lemma addCanvasItem_orderOk (env : AddEnv) (url : string) (nw nh : Z) (src : ItemSource)
    (s : ClipboardCanvasState) :
  uuidOk s env → orderOk s → orderOk (addCanvasItem env url nw nh src s).
Proof.
  intros [_ Hfresh] (Hid & Hnz & Hz & Hzd).
  rewrite addCanvasItem_spec. cbv zeta.
  destruct (createCanvasItem_id env url nw nh src s) as [Eid Ez].
  set (new := (createCanvasItem env url nw nh src s).1) in *.
  set (s1 := {| items := items s ++ [new] |}).
  pose proof (enforceImageLimit_items s1) as Hsub.
  destruct (enforceImageLimit_counters s1) as [Ec _].
  assert (orderOk s1) as (H1 & H2 & H3 & H4).
  { unfold orderOk, s1. cbn [items nextZIndex]. rewrite !map_app. cbn [map].
    rewrite Eid, Ez. split_and!.
    - apply NoDup_app. split_and!; [done| |apply NoDup_singleton].
      intros i Hi Hin%list_elem_of_singleton. by subst.
    - lia.
    - apply Forall_app. split.
      + eapply Forall_impl; [exact Hz|]. cbn. intros; lia.
      + constructor; [lia|constructor].
    - apply NoDup_app. split_and!; [done| |apply NoDup_singleton].
      intros z Hzin Hin%list_elem_of_singleton. subst.
      rewrite Forall_forall in Hz. specialize (Hz _ Hzin). lia. }
  unfold orderOk. rewrite Ec. split_and!.
  - eapply sublist_NoDup; [exact H1|]. by apply (fmap_sublist id).
  - done.
  - eapply sublist_Forall; [|exact H3]. by apply (fmap_sublist zIndex).
  - eapply sublist_NoDup; [exact H4|]. by apply (fmap_sublist zIndex).
Qed.

Lemma removeItem_orderOk (itemId : string) (s : ClipboardCanvasState) :
  orderOk s → orderOk (removeItem itemId s).1.
Proof.
  intros (H1 & H2 & H3 & H4).
  destruct (removeItem_items itemId s) as (Ei & En & _).
  assert (items (removeItem itemId s).1 `sublist_of` items s) as Hsub.
  { rewrite Ei. apply sublist_filter. }
  unfold orderOk. rewrite En. split_and!.
  - eapply sublist_NoDup; [exact H1|]. by apply (fmap_sublist id).
  - done.
  - eapply sublist_Forall; [|exact H3]. by apply (fmap_sublist zIndex).
  - eapply sublist_NoDup; [exact H4|]. by apply (fmap_sublist zIndex).
Qed.

Lemma selectItem_orderOk (itemId : string) (item : CanvasImageItem)
    (s : ClipboardCanvasState) :
  orderOk s → getItemById itemId s = Some item → orderOk (selectItem itemId s).
Proof.
  intros (H1 & H2 & H3 & H4) Hget.
  destruct (selectItem_shape itemId s) as [-> | ->]; [done|].
  unfold orderOk. rewrite updateItem_ids by done.
  cbn [items nextZIndex updateItem with_items with_nextZIndex with_selectedId].
  destruct (raise_zIndexes itemId (nextZIndex s) (items s) H1 H4 H3) as [H5 H6].
  split_and!; try done. lia.
Qed.

Lemma handlePointerMove_orderOk (cx cy : Q) (w : World) :
  orderOk (state w) → orderOk (state (handlePointerMove cx cy w)).
Proof.
  intros Hs.
  destruct (handlePointerMove_state cx cy w) as [-> | (i & item & f & _ & _ & Hf & ->)];
    [done|].
  unfold orderOk.
  rewrite (updateItem_map id), (updateItem_map zIndex) by (intros; apply Hf). done.
Qed.

(** The stacking-order invariant holds of the live state, of every undo
    snapshot and of the session snapshot of every reachable world. *)
Lemma reachable_orderOk (w : World) :
  reachable w → worldInv orderOk (λ _, True) w.
Proof.
  intros (events & Hok & ->).
  apply (reach_inv _ _ uuidOk anyPointer); try done.
  - split_and!; [constructor|done|constructor|constructor].
  - intros. by apply addCanvasItem_orderOk.
  - intros. by apply removeItem_orderOk.
  - intros. by eapply selectItem_orderOk.
  - intros. by apply handlePointerMove_orderOk.
Qed.

(** X3. In every reachable world the stacking order is strict: two
    different items never share a z-index, every z-index is at least 1 and
    below the next-z-index counter, and item ids are pairwise distinct and
    not empty.  The same holds of every snapshot that undo can bring
    back. *)
Theorem stacking_order_is_strict (w : World) :
  reachable w →
  let strict (s : ClipboardCanvasState) :=
    (∀ a b, a ∈ items s → b ∈ items s → zIndex a = zIndex b → a = b)
    ∧ (∀ a b, a ∈ items s → b ∈ items s → id a = id b → a = b)
    ∧ (∀ a, a ∈ items s → 1 ≤ zIndex a < nextZIndex s ∧ id a ≠ EmptyString) in
  strict (state w) ∧ Forall strict (undoStack w).
Proof.
  intros Hreach. cbv zeta.
  destruct (reachable_orderOk w Hreach) as (Hs & Hu & _).
  destruct (reachable_storeOk w Hreach) as (Hs' & Hu' & _).
  assert (∀ s, orderOk s → storeOk s ∧ 1 ≤ nextZIndex s →
     (∀ a b, a ∈ items s → b ∈ items s → zIndex a = zIndex b → a = b)
     ∧ (∀ a b, a ∈ items s → b ∈ items s → id a = id b → a = b)
     ∧ (∀ a, a ∈ items s → 1 ≤ zIndex a < nextZIndex s ∧ id a ≠ EmptyString)) as Hstrict.
  { intros s (H1 & H2 & H3 & H4) [(_ & [Hne _] & _) _]. split_and!.
    - intros a b. by apply NoDup_fmap_inj.
    - intros a b. by apply NoDup_fmap_inj.
    - intros a Ha. split.
      + rewrite Forall_forall in H3. apply H3. apply list_elem_of_fmap. by exists a.
      + rewrite Forall_forall in Hne. by apply Hne. }
  split; [by apply Hstrict|].
  rewrite Forall_forall in Hu, Hu'. rewrite Forall_forall.
  intros s Hin. apply Hstrict; auto.
Qed.

(** X4. Selecting an existing item of a reachable world puts it strictly
    on top: after [selectItem] the item is still found under its id, and
    every other item has a smaller z-index. *)
Theorem selected_item_is_on_top (w : World) (itemId : string)
    (current : CanvasImageItem) :
  reachable w → getItemById itemId (state w) = Some current →
  let s' := selectItem itemId (state w) in
  ∃ raised, getItemById itemId s' = Some raised
    ∧ selectedId s' = Some itemId
    ∧ raised ∈ items s'
    ∧ ∀ other, other ∈ items s' → other ≠ raised → zIndex other < zIndex raised.
Proof.
  intros Hreach Hget. cbv zeta.
  destruct (reachable_orderOk w Hreach) as ((H1 & H2 & H3 & H4) & _).
  pose proof (getItemById_Some _ _ _ Hget) as [Hin Hid].
  destruct (selectItem_ids itemId (state w)) as (_ & Esel & _).
  unfold selectItem, bringToFront in *.
  replace (getItemById itemId (with_selectedId (Some itemId) (state w)))
    with (Some current) in * by done.
  cbv zeta in *. cbn [items with_selectedId] in *.
  destruct (fold_max_spec (items (state w)) 0) as (H0 & Hall & Hex). cbv zeta in *.
  set (currentMaxZ := fold_left _ (items (state w)) 0) in *.
  destruct (Z.leb_spec currentMaxZ (zIndex current)) as [Hle|Hgt]; cbn [fst] in *.
  - exists current. split_and!; try done.
    intros other Hother Hne. rewrite Forall_forall in Hall. specialize (Hall _ Hother).
    cbn in Hall.
    assert (zIndex other ≠ zIndex current); [|lia].
    intros E. apply Hne. by eapply (NoDup_fmap_inj zIndex).
  - exists (item_with_zIndex (nextZIndex (state w)) current).
    split_and!; try done.
    + by apply updateItem_getItemById.
    + unfold updateItem. cbn [items with_items with_nextZIndex with_selectedId].
      apply list_elem_of_fmap. exists current. split; [|done].
      by rewrite bool_decide_eq_true_2.
    + intros other Hother Hne. unfold updateItem in Hother.
      cbn [items with_items with_nextZIndex with_selectedId] in Hother.
      apply list_elem_of_fmap in Hother as (it & -> & Hit).
      case_bool_decide as Eit.
      * destruct Hne. f_equal. eapply (NoDup_fmap_inj id); try done. congruence.
      * cbn. rewrite Forall_forall in H3.
        assert (1 ≤ zIndex it < nextZIndex (state w)); [|lia].
        apply H3. apply list_elem_of_fmap. by exists it.
Qed.

(** X5. Adding an image to a reachable canvas that is below the cap
    appends one item, which carries the new UUID, the given data URL,
    source and natural size, is the selected item and lies strictly above
    every item that was there. *)
Theorem added_item_is_selected_and_on_top (w : World) (env : AddEnv) (url : string)
    (nw nh : Z) (src : ItemSource) :
  reachable w → uuidOk (state w) env →
  (length (items (state w)) < MAX_IMAGES)%nat →
  let s' := addCanvasItem env url nw nh src (state w) in
  ∃ new, items s' = items (state w) ++ [new]
    ∧ selectedItem s' = Some new
    ∧ id new = env_uuid env ∧ dataUrl new = url ∧ source new = src
    ∧ naturalWidth new = nw ∧ naturalHeight new = nh
    ∧ createdAt new = env_now env
    ∧ ∀ other, other ∈ items (state w) → zIndex other < zIndex new.
Proof.
  intros Hreach [Hne Hfresh] Hlen. cbv zeta.
  destruct (reachable_orderOk w Hreach) as ((H1 & H2 & H3 & H4) & _).
  destruct (addCanvasItem_no_overflow env url nw nh src (state w) Hlen) as [Ei Es].
  exists (createCanvasItem env url nw nh src (state w)).1.
  split; [done|].
  pose proof (createCanvasItem_spec env url nw nh src (state w)) as Ec. cbv zeta in Ec.
  rewrite Ec. cbn [fst].
  split_and!; try done.
  - unfold selectedItem. rewrite Es. unfold getItemById. rewrite Ei, Ec. cbn [fst].
    rewrite find_app_None.
    + cbn. by rewrite bool_decide_eq_true_2.
    + apply find_None_id. done.
  - intros other Hother. rewrite Forall_forall in H3. cbn [zIndex].
    assert (1 ≤ zIndex other < nextZIndex (state w)); [|lia].
    apply H3. apply list_elem_of_fmap. by exists other.
Qed.

(** ** Undo as the inverse of a tracked change *)

Lemma undo_last (w : World) (snapshot : ClipboardCanvasSnapshot) :
  interaction w = None → last (undoStack w) = Some snapshot →
  undo w = with_notice NoticeUndone
             (with_state snapshot
                (with_undoStack (take (length (undoStack w) - 1) (undoStack w)) w)).
Proof.
  intros Ei El. unfold undo. rewrite Ei, El.
  assert (canUndo w = true) as ->.
  { unfold canUndo. by destruct (undoStack w). }
  cbn [negb orb isSome]. cbv zeta. unfold applySnapshot. by rewrite cloneSnapshot_id.
Qed.

Lemma pushUndo_pop (snapshot : ClipboardCanvasSnapshot) (w : World) :
  let pushed := undoStack (pushUndo snapshot w) in
  take (length pushed - 1) pushed
  = drop (S (length (undoStack w)) - UNDO_LIMIT) (undoStack w).
Proof.
  cbv zeta. rewrite pushUndo_length, pushUndo_stack, length_app. cbn [length].
  replace (length (undoStack w) + 1 - UNDO_LIMIT)%nat
    with (S (length (undoStack w)) - UNDO_LIMIT)%nat by lia.
  set (k := (S (length (undoStack w)) - UNDO_LIMIT)%nat).
  assert (k ≤ length (undoStack w))%nat as Hk by (unfold k, UNDO_LIMIT; lia).
  rewrite drop_app_le by done.
  rewrite take_app_length'; [done|].
  rewrite length_drop. unfold k, UNDO_LIMIT in *. lia.
Qed.

(** A handler that takes a snapshot of the canvas, changes the canvas,
    pushes the snapshot and sets a notice is reverted by [undo]. *)
Lemma undo_tracked_change (w : World) (s' : ClipboardCanvasState) (n : Notice) :
  interaction w = None →
  let changed := with_notice n (pushUndo (state w) (with_state s' w)) in
  state (undo changed) = state w
  ∧ undoStack (undo changed)
    = drop (S (length (undoStack w)) - UNDO_LIMIT) (undoStack w)
  ∧ interaction (undo changed) = None
  ∧ noticeMessage (undo changed) = NoticeUndone.
Proof.
  intros Ei. cbv zeta.
  rewrite (undo_last _ (state w)); [|done|].
  - cbn [state undoStack interaction noticeMessage with_notice with_state with_undoStack].
    split_and!; try done.
    rewrite <- (pushUndo_pop (state w) w). cbv zeta.
    by rewrite (pushUndo_stack_ext (state w) (with_state s' w) w).
  - cbn [undoStack with_notice]. apply pushUndo_last.
Qed.

Lemma drop_under_limit (w : World) :
  (length (undoStack w) < UNDO_LIMIT)%nat →
  drop (S (length (undoStack w)) - UNDO_LIMIT) (undoStack w) = undoStack w.
Proof.
  intros H. replace (S (length (undoStack w)) - UNDO_LIMIT)%nat with 0%nat by lia. done.
Qed.

(** X6. Outside a session, undo right after a successful paste brings
    back exactly the canvas from before the paste.  The history is then
    the one from before the paste, less its oldest snapshot when it was
    already full (50 entries). *)
Theorem undo_reverts_paste (mimeType : string) (payload : ClipboardImagePayload)
    (env : AddEnv) (w : World) :
  interaction w = None →
  let pasted := handlePaste true (ReadImage mimeType payload) env w in
  noticeMessage pasted = NoticePasted
  ∧ state (undo pasted) = state w
  ∧ undoStack (undo pasted)
    = drop (S (length (undoStack w)) - UNDO_LIMIT) (undoStack w)
  ∧ ((length (undoStack w) < UNDO_LIMIT)%nat → undoStack (undo pasted) = undoStack w)
  ∧ noticeMessage (undo pasted) = NoticeUndone.
Proof.
  intros Ei. cbv zeta. unfold handlePaste. cbn [negb]. cbv zeta.
  rewrite createSnapshot_state.
  destruct (undo_tracked_change w
              (addImageFromClipboard env mimeType payload (state w)) NoticePasted Ei)
    as (H1 & H2 & _ & H4).
  cbv zeta in *. split_and!; try done.
  intros Hlen. by rewrite H2, drop_under_limit.
Qed.


Lemma filter_ext_in {A} (P1 P2 : A → Prop) `{∀ a, Decision (P1 a)}
    `{∀ a, Decision (P2 a)} (l : list A) :
  (∀ a, a ∈ l → P1 a ↔ P2 a) → filter P1 l = filter P2 l.
Proof.
  induction l as [|a l IH]; intros Hext; [done|].
  rewrite !filter_cons.
  assert (filter P1 l = filter P2 l) as ->.
  { apply IH. intros b Hb. apply Hext. by apply elem_of_cons; right. }
  assert (P1 a ↔ P2 a) as Ha by (apply Hext; apply elem_of_cons; by left).
  destruct (decide (P1 a)), (decide (P2 a)); tauto.
Qed.

(** Removing by id removes exactly one item when ids are distinct. *)
Lemma filter_id_length (item : CanvasImageItem) (l : list CanvasImageItem) :
  NoDup (map id l) → item ∈ l →
  S (length (filter (λ it, id it ≠ id item) l)) = length l.
Proof.
  induction l as [|a l IH]; intros Hnd Hin; [by apply elem_of_nil in Hin|].
  cbn in Hnd. apply NoDup_cons in Hnd as [Ha Hnd].
  rewrite filter_cons. destruct (decide (id a ≠ id item)) as [Hne|He].
  - cbn [length]. f_equal. apply IH; [done|].
    apply elem_of_cons in Hin as [->|Hin]; [done|done].
  - apply dec_stable in He. cbn [length]. f_equal.
    rewrite filter_all; [done|].
    rewrite Forall_forall. intros b Hb Eb. apply Ha. rewrite He, <- Eb.
    apply list_elem_of_fmap. by exists b.
Qed.

Lemma filter_shorter (itemId : string) (item : CanvasImageItem)
    (l : list CanvasImageItem) :
  item ∈ l → id item = itemId →
  (length (filter (λ it, id it ≠ itemId) l) < length l)%nat.
Proof.
  intros Hin Hid.
  destruct (Nat.eq_dec (length (filter (λ it, id it ≠ itemId) l)) (length l)) as [E|E].
  - apply filter_length_eq in E. rewrite <- E in Hin.
    apply list_elem_of_filter in Hin as [Hne _]. done.
  - pose proof (length_filter (λ it, id it ≠ itemId) l). lia.
Qed.

Lemma removeSelectedItem_removes (w : World) (item : CanvasImageItem) :
  selectedItem (state w) = Some item → id item ≠ EmptyString →
  removeSelectedItem true w
  = with_notice NoticeDeleted
      (pushUndo (state w)
         (with_state
            (with_selectedId None
               (with_items (filter (λ it, id it ≠ id item) (items (state w))) (state w)))
            w)).
Proof.
  intros Hsel Hne. unfold selectedItem in Hsel.
  destruct (selectedId (state w)) as [sel|] eqn:Es; [|done].
  apply getItemById_Some in Hsel as [Hin Hid]. subst sel.
  unfold removeSelectedItem. rewrite Es.
  assert (truthy (Some (id item)) = true) as ->.
  { cbn. by rewrite bool_decide_eq_false_2. }
  cbn [negb]. rewrite createSnapshot_state.
  unfold removeItem. cbv zeta. cbn [items selectedId with_items].
  pose proof (filter_shorter (id item) item (items (state w)) Hin eq_refl) as Hlt.
  destruct (Nat.eqb_spec (length (filter (λ it, id it ≠ id item) (items (state w))))
              (length (items (state w)))) as [E|E]; [lia|].
  cbn [negb andb]. by rewrite Es, bool_decide_eq_true_2.
Qed.

(** X8. Deleting the selected item of a reachable world (the Delete key,
    outside a text field) removes that item and no other, clears the
    selection, keeps the other items in their order, and sets the deleted
    notice; undo right afterwards brings back exactly the canvas from
    before, with the item at its old place and selected again. *)
Theorem delete_removes_selected_item_undoably (ev : KeyboardEvent) (w : World)
    (item : CanvasImageItem) :
  reachable w → interaction w = None → key ev = "Delete" →
  selectedItem (state w) = Some item →
  let deleted := (handleKeyDown true false ev w).1 in
  items (state deleted) = filter (λ it, it ≠ item) (items (state w))
  ∧ S (length (items (state deleted))) = length (items (state w))
  ∧ selectedId (state deleted) = None
  ∧ nextZIndex (state deleted) = nextZIndex (state w)
  ∧ placementOffsetIndex (state deleted) = placementOffsetIndex (state w)
  ∧ noticeMessage deleted = NoticeDeleted
  ∧ undoStack deleted = undoStack (pushUndo (state w) w)
  ∧ state (undo deleted) = state w
  ∧ selectedItem (state (undo deleted)) = Some item.
Proof.
  intros Hreach Ei Ekey Hsel. cbv zeta.
  destruct (reachable_storeOk w Hreach) as ([(_ & [Hne Hnd] & _) _] & _).
  assert (item ∈ items (state w) ∧ selectedId (state w) = Some (id item)) as [Hin Es].
  { unfold selectedItem in Hsel. destruct (selectedId (state w)) as [sel|]; [|done].
    apply getItemById_Some in Hsel as [? <-]. done. }
  assert (id item ≠ EmptyString) as Hid.
  { rewrite Forall_forall in Hne. by apply Hne. }
  assert ((handleKeyDown true false ev w).1 = removeSelectedItem true w) as ->.
  { unfold handleKeyDown, keyIsLetter. rewrite Ekey. cbn [negb orb].
    rewrite !(bool_decide_eq_false_2 ("Delete" = _)) by done.
    cbn [orb]. rewrite !andb_false_r. rewrite bool_decide_eq_true_2 by done.
    rewrite Es. cbn [truthy]. by rewrite bool_decide_eq_false_2. }
  rewrite (removeSelectedItem_removes w item Hsel Hid).
  destruct (undo_tracked_change w
    (with_selectedId None
       (with_items (filter (λ it, id it ≠ id item) (items (state w))) (state w)))
    NoticeDeleted Ei) as (H1 & _). cbv zeta in H1.
  assert (filter (λ it, id it ≠ id item) (items (state w))
          = filter (λ it, it ≠ item) (items (state w))) as Ef.
  { apply filter_ext_in. intros it Hit. split.
    - intros Hn ->. done.
    - intros Hn E. apply Hn. by eapply (NoDup_fmap_inj id). }
  cbn [state items selectedId nextZIndex placementOffsetIndex noticeMessage undoStack
       with_notice with_state with_items with_selectedId].
  rewrite (pushUndo_stack_ext (state w) _ w) by done.
  change (state (pushUndo ?a ?b)) with (state b).
  cbn [state items selectedId nextZIndex placementOffsetIndex with_state with_items
       with_selectedId].
  split_and!; try done.
  - by apply filter_id_length.
  - by rewrite H1.
Qed.

(** ** Sessions and the history *)

Lemma selectItem_topmost (itemId : string) (current : CanvasImageItem)
    (s : ClipboardCanvasState) :
  getItemById itemId s = Some current → 0 ≤ zIndex current →
  (∀ other, other ∈ items s → zIndex other ≤ zIndex current) →
  selectItem itemId s = with_selectedId (Some itemId) s.
Proof.
  intros Hget H0 Hmax. unfold selectItem, bringToFront.
  replace (getItemById itemId (with_selectedId (Some itemId) s)) with (Some current) by done.
  cbv zeta. cbn [items with_selectedId].
  destruct (fold_max_spec (items s) 0) as (_ & _ & Hex). cbv zeta in Hex.
  set (currentMaxZ := fold_left _ (items s) 0) in *.
  assert (currentMaxZ ≤ zIndex current) as Hle.
  { destruct Hex as [->|(item & Hitem & ->)]; [lia|by apply Hmax]. }
  destruct (Z.leb_spec currentMaxZ (zIndex current)); [done|lia].
Qed.

Lemma selectItem_covered (itemId : string) (current other : CanvasImageItem)
    (s : ClipboardCanvasState) :
  getItemById itemId s = Some current → other ∈ items s →
  zIndex current < zIndex other →
  selectItem itemId s
  = updateItem itemId (item_with_zIndex (nextZIndex s))
      (with_nextZIndex (nextZIndex s + 1) (with_selectedId (Some itemId) s)).
Proof.
  intros Hget Hother Hlt. unfold selectItem, bringToFront.
  replace (getItemById itemId (with_selectedId (Some itemId) s)) with (Some current) by done.
  cbv zeta. cbn [items with_selectedId].
  destruct (fold_max_spec (items s) 0) as (_ & Hall & _). cbv zeta in Hall.
  set (currentMaxZ := fold_left _ (items s) 0) in *.
  rewrite Forall_forall in Hall. specialize (Hall other Hother). cbn in Hall.
  destruct (Z.leb_spec currentMaxZ (zIndex current)); [lia|done].
Qed.

Lemma startMove_world (cx cy : Q) (itemId : string) (item : CanvasImageItem) (w : World) :
  getItemById itemId (state w) = Some item →
  startMove true 0 cx cy itemId w
  = with_interaction
      (Some (Move {| mv_itemId := itemId; mv_startClientX := cx; mv_startClientY := cy;
                     mv_startX := x item; mv_startY := y item;
                     mv_startSnapshot := state w |}))
      (with_state (selectItem itemId (state w)) w).
Proof.
  intros Hget. unfold startMove. cbn [negb orb Z.eqb]. rewrite Hget. cbv zeta.
  by rewrite createSnapshot_state.
Qed.

Lemma startResize_world (cx cy : Q) (itemId : string) (h : ResizeHandle)
    (item : CanvasImageItem) (w : World) :
  getItemById itemId (state w) = Some item →
  startResize true 0 cx cy itemId h w
  = with_interaction
      (Some (Resize {| rs_itemId := itemId; rs_handle := h;
                       rs_startClientX := cx; rs_startClientY := cy;
                       rs_startX := x item; rs_startY := y item;
                       rs_startWidth := width item; rs_startHeight := height item;
                       rs_startSnapshot := state w |}))
      (with_state (selectItem itemId (state w)) w).
Proof.
  intros Hget. unfold startResize. cbn [negb orb Z.eqb]. rewrite Hget. cbv zeta.
  by rewrite createSnapshot_state.
Qed.

(** Releasing the pointer of a session that left the compared part of
    the canvas as it was pushes nothing. *)
Lemma release_unchanged (w : World) (i : Interaction) :
  interaction w = Some i →
  isUndoTargetChanged (startSnapshot i) (state w) = false →
  handlePointerUp w = with_interaction None w.
Proof.
  intros Ei Hch. unfold handlePointerUp, stopInteraction. rewrite Ei. cbv zeta.
  cbn [negb]. rewrite createSnapshot_state. cbn [state with_interaction]. by rewrite Hch.
Qed.

(** X9. A click on an item (mouse down and mouse up with no move in
    between) of a reachable world selects the item.  When the item is
    already the topmost one, the canvas is otherwise unchanged and nothing
    enters the undo history.  When another item lies above it, the click
    raises it, the state before the click is pushed as one history entry,
    and undo brings that state back. *)
Theorem click_enters_history_only_when_raising (w : World) (itemId : string)
    (current : CanvasImageItem) (cx cy : Q) :
  reachable w → getItemById itemId (state w) = Some current →
  let clicked := handlePointerUp (startMove true 0 cx cy itemId w) in
  interaction clicked = None
  ∧ selectedId (state clicked) = Some itemId
  ∧ ((∀ other, other ∈ items (state w) → zIndex other ≤ zIndex current) →
     state clicked = with_selectedId (Some itemId) (state w)
     ∧ undoStack clicked = undoStack w)
  ∧ ((∃ other, other ∈ items (state w) ∧ zIndex current < zIndex other) →
     undoStack clicked = undoStack (pushUndo (state w) w)
     ∧ nextZIndex (state clicked) = nextZIndex (state w) + 1
     ∧ state (undo clicked) = state w).
Proof.
  intros Hreach Hget. cbv zeta.
  destruct (reachable_storeOk w Hreach) as ([(_ & _ & Hz) _] & _).
  pose proof (getItemById_Some _ _ _ Hget) as [Hin Hid].
  assert (1 ≤ zIndex current) as Hz1.
  { unfold zIndexOk in Hz. rewrite Forall_forall in Hz. by apply Hz. }
  rewrite (startMove_world cx cy itemId current w Hget).
  set (m := Move _). set (w1 := with_interaction (Some m) _).
  assert (interaction w1 = Some m) as Ei by done.
  destruct (selectItem_ids itemId (state w)) as (_ & Esel & _).
  assert (interaction (handlePointerUp w1) = None) as E0.
  { unfold handlePointerUp, stopInteraction. rewrite Ei. cbv zeta. cbn [negb].
    by destruct (isUndoTargetChanged _ _). }
  assert (state (handlePointerUp w1) = selectItem itemId (state w)) as E1.
  { unfold handlePointerUp, stopInteraction. rewrite Ei. cbv zeta. cbn [negb].
    by destruct (isUndoTargetChanged _ _). }
  split; [done|]. split; [by rewrite E1|]. split.
  - intros Hmax. rewrite E1.
    rewrite (selectItem_topmost itemId current (state w) Hget ltac:(lia) Hmax).
    split; [done|].
    rewrite (release_unchanged w1 m Ei); [done|].
    apply isUndoTargetChanged_false. cbn [startSnapshot m mv_startSnapshot state w1
      with_interaction with_state].
    by rewrite (selectItem_topmost itemId current (state w) Hget ltac:(lia) Hmax).
  - intros (other & Hother & Hlt).
    assert (isUndoTargetChanged (startSnapshot m) (state w1) = true) as Hch.
    { apply not_false_iff_true. rewrite isUndoTargetChanged_false.
      cbn [startSnapshot m mv_startSnapshot state w1 with_interaction with_state].
      rewrite (selectItem_covered itemId current other (state w) Hget Hother Hlt).
      cbn. intros (_ & E & _). lia. }
    destruct (undo_after_commit w1 m Ei Hch) as (_ & _ & H3 & _ & H5 & _).
    cbv zeta in *. split_and!.
    + rewrite H3. by apply pushUndo_stack_ext.
    + rewrite E1, (selectItem_covered itemId current other (state w) Hget Hother Hlt).
      done.
    + by rewrite H5.
Qed.

(** X10. A resize session on an existing item, any sequence of pointer
    moves and the release of the pointer.  If the canvas then differs from
    the pre-session snapshot, the release pushes that snapshot as one
    history entry and undo brings back exactly the state before the
    session, the item with its old position and size; if it does not
    differ, the release pushes nothing. *)
Theorem undo_restores_committed_resize (w0 : World) (cx cy : Q) (itemId : string)
    (h : ResizeHandle) (item : CanvasImageItem) (moves : list (Q * Q)) :
  getItemById itemId (state w0) = Some item →
  let w1 := startResize true 0 cx cy itemId h w0 in
  let w2 := run (pointerMoves moves) w1 in
  let w3 := handlePointerUp w2 in
  interaction w3 = None
  ∧ state w3 = state w2
  ∧ (isUndoTargetChanged (state w0) (state w2) = true →
     undoStack w3 = undoStack (pushUndo (state w0) w0)
     ∧ state (undo w3) = state w0
     ∧ getItemById itemId (state (undo w3)) = Some item)
  ∧ (isUndoTargetChanged (state w0) (state w2) = false →
     undoStack w3 = undoStack w0).
Proof.
  intros Hget. cbv zeta.
  rewrite (startResize_world cx cy itemId h item w0 Hget).
  set (r := Resize _). set (w1 := with_interaction (Some r) _).
  assert (interaction w1 = Some r) as Ei by done.
  assert (is_Some (getItemById itemId (state w1))) as Hsome.
  { apply getItemById_is_Some. cbn [state w1 with_interaction with_state].
    destruct (selectItem_ids itemId (state w0)) as (-> & _).
    apply getItemById_is_Some. by eexists. }
  destruct (pointerMoves_session moves w1 r Ei Hsome) as [Ei2 Eu2].
  set (w2 := run (pointerMoves moves) w1) in *.
  split_and!.
  - unfold handlePointerUp, stopInteraction. rewrite Ei2. cbv zeta. cbn [negb].
    by destruct (isUndoTargetChanged _ _).
  - unfold handlePointerUp, stopInteraction. rewrite Ei2. cbv zeta. cbn [negb].
    by destruct (isUndoTargetChanged _ _).
  - intros Hch.
    destruct (undo_after_commit w2 r Ei2 Hch) as (_ & _ & H3 & _ & H5 & _).
    cbv zeta in *. cbn [startSnapshot r rs_startSnapshot] in *. split_and!.
    + rewrite H3. by apply pushUndo_stack_ext.
    + done.
    + by rewrite H5.
  - intros Hch. rewrite (release_unchanged w2 r Ei2 Hch). done.
Qed.

(** ** Rounding and clamping commute *)

Lemma jsRound_comp (p q : Q) : (p == q)%Q → jsRound p = jsRound q.
Proof. intros E. unfold jsRound. apply Qfloor_comp. by rewrite E. Qed.

Lemma jsRound_int_add (n : Z) (q : Q) : jsRound (inject_Z n + q) = n + jsRound q.
Proof.
  rewrite (jsRound_comp _ (q + inject_Z n)) by ring. rewrite jsRound_add_int. lia.
Qed.

(** Rounding a value clamped between integer bounds is clamping the
    rounded value. *)
Lemma jsRound_clamp_gen (q lo' hi' : Q) (lo hi : Z) :
  (lo' == inject_Z lo)%Q → (hi' == inject_Z hi)%Q →
  jsRound (clamp q lo' hi') = clampZ (jsRound q) lo hi.
Proof.
  intros El Eh. unfold clampZ.
  destruct (clamp_cases q lo' hi')
    as [[H E]|[(H & H1 & E)|[(H & H1 & H2 & E)|(H & H1 & E)]]];
    rewrite (jsRound_comp _ _ E), ?(jsRound_comp _ _ El), ?(jsRound_comp _ _ Eh),
      ?jsRound_inject_Z;
    rewrite ?El, ?Eh in *.
  - rewrite <- Zlt_Qlt in H. destruct (Z.ltb_spec hi lo); [done|lia].
  - rewrite <- Zle_Qle in H. apply jsRound_le_int in H1.
    destruct (Z.ltb_spec hi lo); lia.
  - rewrite <- Zle_Qle in H. apply jsRound_ge_int in H1. apply jsRound_le_int in H2.
    destruct (Z.ltb_spec hi lo); lia.
  - rewrite <- Zle_Qle in H. apply jsRound_ge_int in H1.
    destruct (Z.ltb_spec hi lo); lia.
Qed.

Lemma jsRound_clamp (q : Q) (lo hi : Z) :
  jsRound (clamp q (inject_Z lo) (inject_Z hi)) = clampZ (jsRound q) lo hi.
Proof. by apply jsRound_clamp_gen. Qed.

Lemma inject_Z_sub (a b : Z) : (inject_Z a - inject_Z b == inject_Z (a - b))%Q.
Proof. unfold Z.sub. by rewrite inject_Z_plus, inject_Z_opp. Qed.

Lemma jsRound_clamp_inside (v lo hi : Q) (n : Z) :
  (v == inject_Z n)%Q → (lo <= v)%Q → (v <= hi)%Q → jsRound (clamp v lo hi) = n.
Proof.
  intros E H1 H2. apply jsRound_eq_int.
  destruct (clamp_cases v lo hi) as [[H ->]|[(H & H3 & ->)|[(H & H3 & H4 & ->)|(H & H3 & ->)]]];
    lra.
Qed.

Lemma jsRound_opp_int (q : Q) : isInt q → jsRound (- q) = - jsRound q.
Proof.
  intros [n Hn]%isInt_exists.
  rewrite (jsRound_comp q (inject_Z n)) by done.
  rewrite (jsRound_comp (- q) (inject_Z (- n))) by (rewrite inject_Z_opp; by rewrite Hn).
  by rewrite !jsRound_inject_Z.
Qed.

(** ** Moving *)

(** X11. A pointer move of a move session puts the session's item at
    its start position shifted by the rounded pointer delta, clamped so
    that the item stays inside the canvas; this holds for every pointer
    position, whole or fractional.  The size of the item, its other
    fields, the other items, the history and the session are unchanged. *)
Theorem move_follows_pointer_inside_canvas (w : World) (m : MoveInteraction)
    (item : CanvasImageItem) (cx cy : Q) :
  interaction w = Some (Move m) →
  getItemById (mv_itemId m) (state w) = Some item → itemOk item →
  let deltaX := (cx - mv_startClientX m)%Q in
  let deltaY := (cy - mv_startClientY m)%Q in
  let nx := clampZ (mv_startX m + jsRound deltaX) 0 (CANVAS_WIDTH - width item) in
  let ny := clampZ (mv_startY m + jsRound deltaY) 0 (CANVAS_HEIGHT - height item) in
  let w' := handlePointerMove cx cy w in
  getItemById (mv_itemId m) (state w') = Some (item_with_position nx ny item)
  ∧ itemOk (item_with_position nx ny item)
  ∧ (∀ other, other ∈ items (state w) → id other ≠ mv_itemId m →
              other ∈ items (state w'))
  ∧ length (items (state w')) = length (items (state w))
  ∧ selectedId (state w') = selectedId (state w)
  ∧ undoStack w' = undoStack w ∧ interaction w' = interaction w.
Proof.
  intros Ei Hget Hok. cbv zeta.
  rewrite handlePointerMove_unfold, Ei. cbn [itemId]. rewrite Hget.
  cbn [state undoStack interaction with_state]. unfold pointerUpdate.
  cbn [startClientX startClientY].
  assert (∀ start size limit : Z, ∀ d : Q,
            jsRound (clamp (inject_Z start + d) 0 (inject_Z limit - inject_Z size))
            = clampZ (start + jsRound d) 0 (limit - size)) as Hc.
  { intros start size limit d.
    rewrite <- jsRound_int_add. apply jsRound_clamp_gen; [done|apply inject_Z_sub]. }
  rewrite !Hc.
  split_and!; try done.
  - by apply updateItem_getItemById.
  - destruct Hok as (Hx & Hy & Hxw & Hyh & Hw & Hh).
    unfold itemOk, geometryOk. cbn [x y width height item_with_position].
    unfold CANVAS_WIDTH, CANVAS_HEIGHT, MIN_SIZE in *.
    pose proof (clampZ_between (mv_startX m + jsRound (cx - mv_startClientX m)) 0
                  (2000 - width item) ltac:(lia)).
    pose proof (clampZ_between (mv_startY m + jsRound (cy - mv_startClientY m)) 0
                  (2000 - height item) ltac:(lia)).
    lia.
  - intros other Hother Hne. unfold updateItem. cbn [items with_items].
    apply list_elem_of_fmap. exists other. split; [|done].
    by rewrite bool_decide_eq_false_2.
  - unfold updateItem. cbn [items with_items]. by rewrite length_map.
Qed.

(** ** Corner resize *)

(** X12. For every pointer delta, whole or fractional, a corner resize
    of an item that satisfies the geometry invariants gives a rectangle
    that satisfies them too, and the corner opposite to the dragged handle
    stays where it was. *)
Theorem corner_resize_keeps_opposite_corner (r : ResizeInteraction) (deltaX deltaY : Q) :
  startOk r →
  let g := computeCornerResize r deltaX deltaY in
  resultOk g
  ∧ (if includes (rs_handle r) DirW
     then g_x g + g_width g = rs_startX r + rs_startWidth r
     else g_x g = rs_startX r)
  ∧ (if includes (rs_handle r) DirN
     then g_y g + g_height g = rs_startY r + rs_startHeight r
     else g_y g = rs_startY r).
Proof.
  intros Hok. cbv zeta. split; [by apply computeCornerResize_ok|].
  destruct (computeCornerResize_sizes r deltaX deltaY Hok) as (_ & _ & Hw & Hh).
  destruct Hok as (Hx & Hy & Hxw & Hyh & Hsw & Hsh).
  revert Hw Hh. unfold computeCornerResize. cbv zeta.
  cbn [g_x g_y g_width g_height].
  generalize (Z.max MIN_SIZE
    (jsRound (inject_Z (rs_startWidth r) * cornerScale r deltaX deltaY))).
  generalize (Z.max MIN_SIZE
    (jsRound (inject_Z (rs_startHeight r) * cornerScale r deltaX deltaY))).
  intros gh gw.
  unfold cornerMaxWidth, cornerMaxHeight, cornerAnchorX, cornerAnchorY,
    CANVAS_WIDTH, CANVAS_HEIGHT, MIN_SIZE in *.
  intros Hw Hh.
  assert (∀ (v : Q) (a size : Z), (v == inject_Z a)%Q →
            jsRound (clamp v 0 (inject_Z 2000 - inject_Z size)) = clampZ a 0 (2000 - size))
    as Hc.
  { intros v a size E.
    rewrite (jsRound_clamp_gen _ _ _ 0 (2000 - size)); [|done|apply inject_Z_sub].
    by rewrite (jsRound_comp _ _ E), jsRound_inject_Z. }
  destruct (includes (rs_handle r) DirW), (includes (rs_handle r) DirN); split.
  all: first [ rewrite (Hc _ _ _ (inject_Z_sub _ _)) | rewrite (Hc _ _ _ (Qeq_refl _)) ].
  all: rewrite clampZ_inside by lia; lia.
Qed.

(** ** Edge resize *)

(** One axis of an edge resize before the rounding, in closed form. *)
Lemma edgeAxis_closed (grows shrinks : bool) (a b L : Z) (delta : Q) :
  0 ≤ a → MIN_SIZE ≤ b → a + b ≤ L →
  let r := edgeAxis grows shrinks (inject_Z a) (inject_Z b) delta (inject_Z L) in
  match grows, shrinks with
  | false, false => r.1 == inject_Z a ∧ r.2 == inject_Z b
  | true, false =>
      r.1 == inject_Z a
      ∧ r.2 == clamp (inject_Z b + delta) (inject_Z MIN_SIZE) (inject_Z L - inject_Z a)
  | false, true =>
      r.1 == clamp (inject_Z a + delta) 0 (inject_Z a + inject_Z b - inject_Z MIN_SIZE)
      ∧ r.2 == clamp (inject_Z b - delta) (inject_Z MIN_SIZE) (inject_Z a + inject_Z b)
  | true, true => True
  end%Q.
Proof.
  intros Ha Hb HL r. subst r. unfold edgeAxis, MIN_SIZE in *. cbv zeta.
  rewrite Zle_Qle in Ha, Hb, HL. rewrite inject_Z_plus in HL.
  cbn [fst snd].
  destruct grows, shrinks; [done| | |].
  all: Qltb_cases; Qmax_cases; clamp_cases_tac.
  all: change (inject_Z 0) with 0%Q in *; change (inject_Z 24) with 24%Q in *.
  all: split; lra.
Qed.

(** The same after the rounding. *)
Lemma edgeAxis_rounded (grows shrinks : bool) (a b L : Z) (delta : Q) :
  0 ≤ a → MIN_SIZE ≤ b → a + b ≤ L →
  let r := edgeAxis grows shrinks (inject_Z a) (inject_Z b) delta (inject_Z L) in
  match grows, shrinks with
  | false, false => jsRound r.1 = a ∧ jsRound r.2 = b
  | true, false =>
      jsRound r.1 = a ∧ jsRound r.2 = clampZ (b + jsRound delta) MIN_SIZE (L - a)
  | false, true =>
      jsRound r.1 = clampZ (a + jsRound delta) 0 (a + b - MIN_SIZE)
      ∧ jsRound r.2 = clampZ (b + jsRound (- delta)) MIN_SIZE (a + b)
  | true, true => True
  end.
Proof.
  intros Ha Hb HL. cbv zeta.
  pose proof (edgeAxis_closed grows shrinks a b L delta Ha Hb HL) as H. cbv zeta in H.
  destruct grows, shrinks; [done| | |]; destruct H as [E1 E2];
    rewrite (jsRound_comp _ _ E1), (jsRound_comp _ _ E2), ?jsRound_inject_Z.
  - split; [done|]. rewrite <- jsRound_int_add.
    apply jsRound_clamp_gen; [done|apply inject_Z_sub].
  - split.
    + rewrite <- jsRound_int_add. apply jsRound_clamp_gen; [done|].
      by rewrite <- inject_Z_plus, inject_Z_sub.
    + rewrite <- jsRound_int_add. apply jsRound_clamp_gen; [done|].
      by rewrite <- inject_Z_plus.
  - done.
Qed.

(** X13. [computeEdgeResize] in closed form, for an item that satisfies
    the geometry invariants and every pointer delta.  The east and south
    handles change only the width, respectively the height: the start size
    plus the rounded delta, clamped between 24 and the room up to the
    canvas edge; the result satisfies the geometry invariants.  The west
    and north handles move the near edge by the rounded delta (clamped so
    that the item keeps its minimum size and stays in the canvas) and
    resize by the rounded negated delta; when the delta is a whole number
    the far edge stays where it was and the result satisfies the geometry
    invariants.  The other axis is never touched. *)
Theorem edge_resize_closed_form (r : ResizeInteraction) (deltaX deltaY : Q) :
  startOk r →
  let g := computeEdgeResize r deltaX deltaY in
  let sx := rs_startX r in
  let sy := rs_startY r in
  let sw := rs_startWidth r in
  let sh := rs_startHeight r in
  match rs_handle r with
  | He =>
      g = {| g_x := sx; g_y := sy;
             g_width := clampZ (sw + jsRound deltaX) MIN_SIZE (CANVAS_WIDTH - sx);
             g_height := sh |}
      ∧ resultOk g
  | Hs =>
      g = {| g_x := sx; g_y := sy; g_width := sw;
             g_height := clampZ (sh + jsRound deltaY) MIN_SIZE (CANVAS_HEIGHT - sy) |}
      ∧ resultOk g
  | Hw =>
      g = {| g_x := clampZ (sx + jsRound deltaX) 0 (sx + sw - MIN_SIZE); g_y := sy;
             g_width := clampZ (sw + jsRound (- deltaX)) MIN_SIZE (sx + sw);
             g_height := sh |}
      ∧ (isInt deltaX → g_x g + g_width g = sx + sw ∧ resultOk g)
  | Hn =>
      g = {| g_x := sx; g_y := clampZ (sy + jsRound deltaY) 0 (sy + sh - MIN_SIZE);
             g_width := sw;
             g_height := clampZ (sh + jsRound (- deltaY)) MIN_SIZE (sy + sh) |}
      ∧ (isInt deltaY → g_y g + g_height g = sy + sh ∧ resultOk g)
  | _ => True
  end.
Proof.
  intros (Hx & Hy & Hxw & Hyh & Hw & Hh). cbv zeta.
  rewrite computeEdgeResize_axes. cbv zeta.
  pose proof (edgeAxis_rounded (includes (rs_handle r) DirE) (includes (rs_handle r) DirW)
                _ _ _ deltaX Hx Hw Hxw) as HX.
  pose proof (edgeAxis_rounded (includes (rs_handle r) DirS) (includes (rs_handle r) DirN)
                _ _ _ deltaY Hy Hh Hyh) as HY.
  cbv zeta in HX, HY.
  unfold resultOk, geometryOk.
  destruct (rs_handle r); cbn [includes] in *; try done;
    destruct HX as [-> ->]; destruct HY as [-> ->]; (split; [done|]);
    cbn [g_x g_y g_width g_height]; unfold CANVAS_WIDTH, CANVAS_HEIGHT, MIN_SIZE in *.
  all: try (intros Hd; rewrite (jsRound_opp_int _ Hd)).
  all: unfold clampZ;
       repeat match goal with |- context [?a <? ?b] => destruct (Z.ltb_spec a b) end; lia.
Qed.

(** ** Initial size *)

Lemma scaled_longest (L k : Z) :
  0 < L → (inject_Z L * (inject_Z k / inject_Z L) == inject_Z k)%Q.
Proof.
  intros HL.
  assert (0 < inject_Z L)%Q by (change 0%Q with (inject_Z 0); rewrite <- Zlt_Qlt; lia).
  field. lra.
Qed.

(** X14. The initial display size of an image.  Both sides are between
    24 and 420.  An image whose longest side exceeds 420 is scaled so
    that its longest side is exactly 420; one whose longest side is below
    80 so that it is exactly 80; otherwise the natural size is kept (a
    side below 24 being raised to 24).  A natural side that is zero or
    negative counts as 1. *)
Theorem initial_size_fits_longest_side (naturalWidth naturalHeight : Z) :
  let size := normalizeInitialSize naturalWidth naturalHeight in
  let width := Z.max 1 naturalWidth in
  let height := Z.max 1 naturalHeight in
  let longest := Z.max width height in
  MIN_SIZE ≤ size.1 ≤ INITIAL_MAX_SIDE ∧ MIN_SIZE ≤ size.2 ≤ INITIAL_MAX_SIDE
  ∧ (INITIAL_MAX_SIDE < longest → Z.max size.1 size.2 = INITIAL_MAX_SIDE)
  ∧ (longest < INITIAL_MIN_SIDE → Z.max size.1 size.2 = INITIAL_MIN_SIDE)
  ∧ (INITIAL_MIN_SIDE ≤ longest ≤ INITIAL_MAX_SIDE →
     size = (Z.max MIN_SIZE width, Z.max MIN_SIZE height)).
Proof.
  cbv zeta. destruct (normalizeInitialSize_range naturalWidth naturalHeight) as [Hw Hh].
  cbv zeta in Hw, Hh. split; [done|]. split; [done|].
  revert Hw Hh. unfold normalizeInitialSize. cbv zeta. cbn [fst snd].
  set (w := Z.max 1 naturalWidth). set (h := Z.max 1 naturalHeight). set (L := Z.max w h).
  assert (0 < w ∧ w ≤ L ∧ 0 < h ∧ h ≤ L ∧ (w = L ∨ h = L)) as (Hw0 & HwL & Hh0 & HhL & HL)
    by lia.
  unfold INITIAL_MAX_SIDE, INITIAL_MIN_SIDE, MIN_SIZE in *.
  destruct (Z.ltb_spec 420 L) as [H1|H1]; [|destruct (Z.ltb_spec L 80) as [H2|H2]].
  - intros Hw Hh. split_and!; [|lia|lia]. intros _.
    destruct HL as [E|E].
    + rewrite E at 1. rewrite (jsRound_eq_int (inject_Z L * (inject_Z 420 / inject_Z L)) 420) by (apply scaled_longest; lia). lia.
    + rewrite E at 1. rewrite (jsRound_eq_int (inject_Z L * (inject_Z 420 / inject_Z L)) 420) by (apply scaled_longest; lia). lia.
  - intros Hw Hh. split_and!; [lia| |lia]. intros _.
    assert (∀ side, 0 < side → side ≤ L →
              jsRound (inject_Z side * (inject_Z 80 / inject_Z L)) ≤ 80) as Hside.
    { intros side H0 Hs. apply jsRound_le_int. apply scaled_side_le; lia. }
    pose proof (Hside w Hw0 HwL). pose proof (Hside h Hh0 HhL).
    destruct HL as [E|E].
    + rewrite E at 1. rewrite (jsRound_eq_int (inject_Z L * (inject_Z 80 / inject_Z L)) 80) by (apply scaled_longest; lia). lia.
    + rewrite E at 1. rewrite (jsRound_eq_int (inject_Z L * (inject_Z 80 / inject_Z L)) 80) by (apply scaled_longest; lia). lia.
  - intros _ _. split_and!; [lia|lia|]. intros _.
    by rewrite !(jsRound_comp _ _ (Qmult_1_r _)), !jsRound_inject_Z.
Qed.

(** ** Geometry with whole-pixel pointers *)

(** X15. When every pointer event carries whole-pixel coordinates, every
    item of every reachable world lies inside the canvas with sides of at
    least 24, and so does every item of every snapshot that undo can
    bring back and the start rectangle of a running resize session. *)
Theorem whole_pixel_pointers_keep_geometry (w : World) :
  reachableInt w →
  Forall itemOk (items (state w))
  ∧ Forall (λ snapshot, Forall itemOk (items snapshot)) (undoStack w)
  ∧ ∀ r, interaction w = Some (Resize r) → startOk r.
Proof.
  intros Hreach. destruct (reachableInt_canvasOk w Hreach) as ([Hok _] & Hu & Hi).
  split_and!.
  - done.
  - eapply Forall_impl; [exact Hu|]. by intros s [? _].
  - intros r Er. by destruct (Hi _ Er) as (_ & _ & _ & ?).
Qed.

(** ** The copy path *)

Lemma append_String (c : ascii) (s t : string) :
  String c s +:+ t = String c (s +:+ t).
Proof. done. Qed.

Lemma extractBase64_app (prefix rest : string) :
  ¬ hasComma prefix → extractBase64 (prefix +:+ "," +:+ rest) = Some rest.
Proof.
  unfold hasComma. induction prefix as [|c prefix IH]; intros Hn; [done|].
  rewrite append_String. cbn in *.
  destruct (Ascii.eqb_spec c ","%char) as [->|Hc]; [tauto|].
  apply IH. tauto.
Qed.

Lemma extractBase64_Some (url rest : string) :
  extractBase64 url = Some rest →
  ∃ prefix, ¬ hasComma prefix ∧ url = prefix +:+ "," +:+ rest.
Proof.
  unfold hasComma. induction url as [|c url IH]; [done|]. cbn.
  destruct (Ascii.eqb_spec c ","%char) as [->|Hc].
  - intros [= ->]. exists EmptyString. split; [intros []|reflexivity].
  - intros H. destruct (IH H) as (prefix & Hn & ->).
    exists (String c prefix). split; [|reflexivity]. cbn. intros [E|Hin]; [by subst|done].
Qed.

Lemma extractBase64_None (url : string) :
  extractBase64 url = None ↔ ¬ hasComma url.
Proof.
  unfold hasComma. induction url as [|c url IH]; [by cbn; tauto|]. cbn.
  destruct (Ascii.eqb_spec c ","%char) as [->|Hc].
  - split; [done|]. intros H. destruct H. by left.
  - rewrite IH. split; [|tauto]. intros Hn [E|Hin]; [by subst|done].
Qed.

(** X16. [extractBase64] cuts a data URL at its first comma: it returns
    the text behind the first comma (possibly empty), and nothing exactly
    when the URL contains no comma. *)
Theorem extractBase64_cuts_at_first_comma (url : string) :
  (∀ rest, extractBase64 url = Some rest
           ↔ ∃ prefix, ¬ hasComma prefix ∧ url = prefix +:+ "," +:+ rest)
  ∧ (extractBase64 url = None ↔ ¬ hasComma url).
Proof.
  split; [|apply extractBase64_None].
  intros rest. split; [apply extractBase64_Some|].
  intros (prefix & Hn & ->). by apply extractBase64_app.
Qed.

Lemma getItemById_app_new (itemId : string) (l : list CanvasImageItem)
    (new : CanvasImageItem) (s : ClipboardCanvasState) :
  items s = l ++ [new] → id new = itemId → itemId ∉ map id l →
  getItemById itemId s = Some new.
Proof.
  intros Ei Hid Hn. unfold getItemById. rewrite Ei, find_app_None.
  - cbn. by rewrite bool_decide_eq_true_2.
  - by apply find_None_id.
Qed.

(** X17. Pasting and copying back.  When the system clipboard holds an
    image, the main process hands over its PNG encoding; after the paste
    (canvas below the cap, fresh UUID) the pasted item is the selected
    one, and copying it invokes the clipboard-write contract with exactly
    that PNG encoding and the MIME type "image/png", without changing
    anything in the component. *)
Theorem paste_then_copy_hands_back_same_png (image : NativeImage) (env : AddEnv)
    (w : World) :
  img_isEmpty image = false → img_pngBase64 image ≠ EmptyString →
  uuidOk (state w) env → (length (items (state w)) < MAX_IMAGES)%nat →
  let pasted := handlePaste true (readClipboardImage image) env w in
  (∃ new, selectedItem (state pasted) = Some new
          ∧ items (state pasted) = items (state w) ++ [new]
          ∧ dataUrl new = "data:image/png;base64," +:+ img_pngBase64 image
          ∧ naturalWidth new = img_width image
          ∧ naturalHeight new = img_height image
          ∧ source new = SourcePaste)
  ∧ copySelectedImage true pasted
    = (pasted, Some {| cwp_mimeType := "image/png";
                       cwp_base64 := img_pngBase64 image |}).
Proof.
  intros Hne Hb [_ Hfresh] Hlen. cbv zeta.
  unfold readClipboardImage. rewrite Hne. unfold handlePaste. cbn [negb]. cbv zeta.
  unfold addImageFromClipboard. cbn [cip_base64 cip_width cip_height].
  set (url := "data:" +:+ "image/png" +:+ ";base64," +:+ img_pngBase64 image).
  destruct (addCanvasItem_no_overflow env url (img_width image) (img_height image)
              SourcePaste (state w) Hlen) as [Ei Es].
  pose proof (createCanvasItem_spec env url (img_width image) (img_height image)
                SourcePaste (state w)) as Ec. cbv zeta in Ec.
  set (new := (createCanvasItem env url (img_width image) (img_height image)
                 SourcePaste (state w)).1) in *.
  assert (id new = env_uuid env ∧ dataUrl new = url ∧ naturalWidth new = img_width image
          ∧ naturalHeight new = img_height image ∧ source new = SourcePaste)
    as (Hid & Hu & Hnw & Hnh & Hs).
  { unfold new. by rewrite Ec. }
  set (s' := addCanvasItem env url (img_width image) (img_height image) SourcePaste
               (state w)) in *.
  assert (selectedItem s' = Some new) as Hsel.
  { unfold selectedItem. rewrite Es. by eapply getItemById_app_new. }
  split.
  - exists new. cbn [state with_notice with_state].
    change (state (pushUndo ?a ?b)) with (state b). cbn [state with_state].
    split_and!; done.
  - unfold copySelectedImage. cbn [negb state with_notice].
    change (state (pushUndo ?a ?b)) with (state b). cbn [state with_state].
    rewrite Hsel, Hu. unfold url.
    change ("data:" +:+ "image/png" +:+ ";base64," +:+ img_pngBase64 image)
      with ("data:image/png;base64" +:+ "," +:+ img_pngBase64 image).
    rewrite extractBase64_app.
    + by rewrite bool_decide_eq_false_2.
    + unfold hasComma. cbn. intros H. repeat destruct H as [H|H]; try discriminate H. done.
Qed.

(** X18. The payload that [copySelectedImage] sends always passes the
    first validation of [writeClipboardImage] in the main process: the
    result is [invalid_payload] exactly when the base64 text is blank
    (empty after trimming), and it is a success exactly when the trimmed
    text decodes to a non-empty image by one of the two decoders, the
    write does not throw and the image read back is not empty. *)
Theorem copy_payload_passes_validation (active : bool) (w : World)
    (payload : ClipboardWritePayload) (host : ClipboardHost) :
  (copySelectedImage active w).2 = Some payload →
  let result := writeClipboardImage host (Some payload) in
  let trimmed := host_trim host (cwp_base64 payload) in
  cwp_mimeType payload = "image/png" ∧ cwp_base64 payload ≠ EmptyString
  ∧ (reason result = Some invalid_payload ↔ trimmed = EmptyString)
  ∧ (ok result = true
     ↔ trimmed ≠ EmptyString
       ∧ (host_createFromBuffer host trimmed = true
          ∨ host_createFromDataURL host ("data:image/png;base64," +:+ trimmed) = true)
       ∧ host_writeImage_throws host = false
       ∧ host_readBack_isEmpty host = false)
  ∧ (ok result = true ↔ reason result = None).
Proof.
  intros Hp. cbv zeta.
  assert (cwp_mimeType payload = "image/png" ∧ cwp_base64 payload ≠ EmptyString) as [Hm Hb].
  { revert Hp. unfold copySelectedImage. destruct (negb active); [done|].
    destruct (selectedItem (state w)); [|done].
    destruct (extractBase64 _) as [b|]; [|done].
    case_bool_decide; [done|]. by intros [= <-]. }
  split; [done|]. split; [done|].
  unfold writeClipboardImage, writeFailure. rewrite Hm.
  rewrite bool_decide_eq_true_2 by done. cbn [negb orb].
  assert ((String.length (cwp_base64 payload) =? 0)%nat = false) as ->.
  { apply Nat.eqb_neq. by destruct (cwp_base64 payload). }
  set (trimmed := host_trim host (cwp_base64 payload)).
  assert ((String.length trimmed =? 0)%nat = bool_decide (trimmed = EmptyString)) as ->.
  { destruct trimmed; [done|]. cbn. by rewrite bool_decide_eq_false_2. }
  change ("data:" +:+ "image/png" +:+ ";base64," +:+ trimmed)
    with ("data:image/png;base64," +:+ trimmed).
  case_bool_decide as Et.
  { cbn. split_and!; [done|split; [done|intros (? & _); done]|done]. }
  destruct (host_createFromBuffer host trimmed); cbn [negb];
    [|destruct (host_createFromDataURL host _); cbn [negb]];
    destruct (host_writeImage_throws host), (host_readBack_isEmpty host); cbn;
    intuition (discriminate || congruence).
Qed.

(** ** Events that are turned away *)

(** X19. An event that arrives while the tab is not the active one, a
    key event while a text field (an INPUT or TEXTAREA element, or an
    editable element) has the focus, and a mouse down with another button
    than the left one change neither the canvas, the history, the session
    nor the notice, and invoke no clipboard write; a drop still switches
    the drag highlight off. *)
Theorem turned_away_events_change_nothing (e : Event) (w : World) :
  turnedAway e = true →
  handle e w
  = (match e with EvDrop _ _ => with_isDragActive false w | _ => w end, None)
  ∧ ∀ active el ev,
      tagName el = "INPUT" ∨ tagName el = "TEXTAREA" ∨ isContentEditable el = true →
      handleKeyDown active (isTextInputFocused (Some el)) ev w = (w, None).
Proof.
  intros H. split.
  - unfold handle. destruct e; cbn in H; try done.
    + apply negb_true_iff in H. subst. done.
    + unfold handleKeyDown. by rewrite H.
    + apply negb_true_iff in H. subst. done.
    + unfold startMove. by rewrite H.
    + unfold startResize. by rewrite H.
    + unfold clearSelection. by rewrite H.
    + apply negb_true_iff in H. subst. done.
    + apply negb_true_iff in H. subst. done.
  - intros active el ev Hel. unfold handleKeyDown.
    assert (isTextInputFocused (Some el) = true) as ->; [|by rewrite orb_true_r].
    unfold isTextInputFocused.
    destruct Hel as [-> | [-> | ->]]; by rewrite ?orb_true_r.
Qed.

(** ** A session whose item disappears *)

Lemma getItemById_filtered (itemId : string) (s : ClipboardCanvasState)
    (l : list CanvasImageItem) :
  items s = filter (λ it, id it ≠ itemId) l → getItemById itemId s = None.
Proof.
  intros Ei. unfold getItemById. rewrite Ei. apply find_None_id.
  intros (it & E & Hin)%list_elem_of_fmap. apply list_elem_of_filter in Hin as [Hne _].
  by destruct Hne.
Qed.

(** X20. Deleting the item of a running session.  The Delete key is not
    held back by a session: it removes the selected item and pushes its
    history entry while the session stays open.  The next pointer move
    then finds no item under the session's id and ends the session without
    touching the canvas or the history, so that the following release of
    the pointer changes nothing either.  *)
Theorem session_ends_when_its_item_is_deleted (w : World) (i : Interaction)
    (item : CanvasImageItem) (ev : KeyboardEvent) (cx cy : Q) :
  reachable w → interaction w = Some i →
  selectedItem (state w) = Some item → id item = itemId i → key ev = "Delete" →
  let deleted := (handleKeyDown true false ev w).1 in
  let moved := handlePointerMove cx cy deleted in
  interaction deleted = Some i
  ∧ getItemById (itemId i) (state deleted) = None
  ∧ undoStack deleted = undoStack (pushUndo (state w) w)
  ∧ moved = with_interaction None deleted
  ∧ handlePointerUp moved = moved.
Proof.
  intros Hreach Ei Hsel Hid Ekey. cbv zeta.
  destruct (reachable_storeOk w Hreach) as ([(_ & [Hne _] & _) _] & _).
  assert (item ∈ items (state w) ∧ selectedId (state w) = Some (id item)) as [Hin Es].
  { unfold selectedItem in Hsel. destruct (selectedId (state w)) as [sel|]; [|done].
    apply getItemById_Some in Hsel as [? <-]. done. }
  assert (id item ≠ EmptyString) as Hne'.
  { rewrite Forall_forall in Hne. by apply Hne. }
  assert ((handleKeyDown true false ev w).1 = removeSelectedItem true w) as ->.
  { unfold handleKeyDown, keyIsLetter. rewrite Ekey. cbn [negb orb].
    rewrite !(bool_decide_eq_false_2 ("Delete" = _)) by done.
    cbn [orb]. rewrite !andb_false_r. rewrite bool_decide_eq_true_2 by done.
    rewrite Es. cbn [truthy]. by rewrite bool_decide_eq_false_2. }
  rewrite (removeSelectedItem_removes w item Hsel Hne').
  set (deleted := with_notice _ _).
  assert (interaction deleted = Some i) as Ei' by done.
  assert (getItemById (itemId i) (state deleted) = None) as Hget.
  { eapply getItemById_filtered. rewrite <- Hid. reflexivity. }
  assert (handlePointerMove cx cy deleted = with_interaction None deleted) as Hmove.
  { rewrite handlePointerMove_unfold, Ei', Hget. unfold stopInteraction. by rewrite Ei'. }
  split; [done|]. split; [done|].
  split; [unfold deleted; cbn [undoStack with_notice]; by apply pushUndo_stack_ext|].
  split; [done|]. fold deleted. by rewrite Hmove.
Qed.

(** * The task list *)

Lemma filterTasks_spec (parsed : list Json) :
  match filterTasks parsed with
  | Some kept => ¬ In JNull parsed ∧ kept = omap asTask parsed
  | None => In JNull parsed
  end.
Proof.
  induction parsed as [|task rest IH]; [by split; [intros []|]|].
  cbn [filterTasks].
  destruct task as [|b|n|s|elements|fields]; cbn [isTaskItem].
  1: by left.
  all: destruct (filterTasks rest) as [kept|]; [destruct IH as [Hn ->]|by right].
  all: split; [intros [E|Hin]; [discriminate E|done]|].
  all: try done.
  cbn [omap list_omap asTask isTaskItem].
  by destruct (isString _ && isString _ && isNumber _).
Qed.

Lemma asTask_Some (element : Json) (task : JsObject) :
  asTask element = Some task ↔ element = JObj task ∧ taskOk task.
Proof.
  unfold taskOk. destruct element as [|b|n|s|elements|fields]; cbn [asTask];
    try (split; [done|by intros [? _]]).
  destruct (isTaskItem (JObj fields)) as [[]|] eqn:E.
  - split; [intros [= ->]; done | intros [[= ->] _]; done].
  - split; [done|]. intros [[= ->] H]. congruence.
  - split; [done|]. intros [[= ->] H]. congruence.
Qed.

Lemma omap_asTask_ok (parsed : list Json) : Forall taskOk (omap asTask parsed).
Proof.
  rewrite Forall_forall. intros task (element & Hin & H)%list_elem_of_omap.
  by apply asTask_Some in H as [_ ?].
Qed.

Lemma loadTasks_cases (host : JsonHost) (t : TasksTab) :
  loadTasks host t = with_tasks [] t
  ∨ ∃ raw parsed, storedTasks t = Some raw ∧ raw ≠ EmptyString
      ∧ JSON_parse host raw = Some (JArr parsed) ∧ ¬ In JNull parsed
      ∧ loadTasks host t = with_tasks (omap asTask parsed) t.
Proof.
  unfold loadTasks. destruct (storedTasks t) as [raw|] eqn:Es; [|by left].
  case_bool_decide as Er; [by left|].
  destruct (JSON_parse host raw) as [[|b|n|s|parsed|fields]|] eqn:Ep; try by left.
  pose proof (filterTasks_spec parsed) as H.
  destruct (filterTasks parsed) as [kept|]; [|by left].
  destruct H as [Hn ->]. right. by exists raw, parsed.
Qed.

Lemma newTask_ok (uuid text : string) (now : Z) : taskOk (newTask uuid text now).
Proof. done. Qed.

Lemma taskStep_ok (host : JsonHost) (trim : string → string) (t : TasksTab)
    (e : TaskEvent) :
  Forall taskOk (tasks t) → Forall taskOk (tasks (taskStep host trim t e)).
Proof.
  intros Hok. destruct e; cbn [taskStep].
  - destruct (loadTasks_cases host t) as [-> | (raw & parsed & _ & _ & _ & _ & ->)].
    + constructor.
    + apply omap_asTask_ok.
  - done.
  - unfold addTask. cbv zeta. case_bool_decide; [done|].
    cbn. constructor; [apply newTask_ok|done].
  - unfold completeTask. cbn [tasks with_tasks with_hintMessage].
    rewrite Forall_forall in Hok. rewrite Forall_forall. intros task Hin.
    apply Hok. rewrite list_elem_of_In in Hin. apply filter_In in Hin as [Hin _].
    by apply list_elem_of_In.
  - done.
Qed.

Lemma taskRun_ok (host : JsonHost) (trim : string → string) (events : list TaskEvent)
    (t : TasksTab) :
  Forall taskOk (tasks t) → Forall taskOk (tasks (taskRun host trim events t)).
Proof.
  revert t. induction events as [|e events IH]; intros t Ht; [done|].
  apply (IH (taskStep host trim t e)). by apply taskStep_ok.
Qed.

(** X21. Whatever is in storage when the component is mounted and
    whatever events follow, every task of the list is an object with a
    string id, a string text and a numeric creation time. *)
Theorem tasks_are_always_well_formed (host : JsonHost) (trim : string → string)
    (stored : option string) (events : list TaskEvent) :
  Forall taskOk (tasks (taskRun host trim events (initialTasksTab stored))).
Proof.
  apply taskRun_ok. unfold initialTasksTab. cbn [tasks]. constructor.
Qed.

(** X22. What [loadTasks] makes of the stored text.  A task it loads
    comes from a stored text that is not empty and parses to an array
    without [null] among its elements, and is a well-formed task object of
    that array; in every other case (no entry, an empty entry, a syntax
    error, a value that is not an array, an array with a [null] element)
    the list is empty.  From an array without [null] it keeps exactly the
    well-formed task objects, in their order, passing over every other
    element.  The draft, the hint and the stored text are not touched. *)
Theorem stored_tasks_are_filtered_or_discarded (host : JsonHost) (t : TasksTab) :
  let loaded := loadTasks host t in
  (∀ task, In task (tasks loaded) →
     ∃ raw parsed, storedTasks t = Some raw ∧ raw ≠ EmptyString
       ∧ JSON_parse host raw = Some (JArr parsed)
       ∧ ¬ In JNull parsed ∧ In (JObj task) parsed ∧ taskOk task)
  ∧ (∀ raw parsed, storedTasks t = Some raw → raw ≠ EmptyString →
       JSON_parse host raw = Some (JArr parsed) →
       (In JNull parsed → tasks loaded = [])
       ∧ (¬ In JNull parsed → tasks loaded = omap asTask parsed))
  ∧ draftTask loaded = draftTask t ∧ hintMessage loaded = hintMessage t
  ∧ storedTasks loaded = storedTasks t.
Proof.
  cbv zeta. split_and!.
  - intros task Hin.
    destruct (loadTasks_cases host t) as [E | (raw & parsed & Hs & Hr & Hp & Hn & E)];
      rewrite E in Hin; [done|].
    exists raw, parsed. split_and!; try done.
    + cbn in Hin. apply list_elem_of_In, list_elem_of_omap in Hin as (element & Hel & H).
      apply asTask_Some in H as [-> _]. by apply list_elem_of_In.
    + cbn in Hin. apply list_elem_of_In, list_elem_of_omap in Hin as (element & Hel & H).
      by apply asTask_Some in H as [_ ?].
  - intros raw parsed Hs Hr Hp. unfold loadTasks. rewrite Hs, bool_decide_eq_false_2, Hp by done.
    pose proof (filterTasks_spec parsed) as H.
    destruct (filterTasks parsed) as [kept|]; [destruct H as [Hn ->]|]; by split.
  - by destruct (loadTasks_cases host t) as [-> | (? & ? & _ & _ & _ & _ & ->)].
  - by destruct (loadTasks_cases host t) as [-> | (? & ? & _ & _ & _ & _ & ->)].
  - by destruct (loadTasks_cases host t) as [-> | (? & ? & _ & _ & _ & _ & ->)].
Qed.

Lemma omap_asTask_tasks (l : list JsObject) :
  Forall taskOk l → omap asTask (map JObj l) = l.
Proof.
  induction 1 as [|task l Hok _ IH]; [done|].
  cbn [map omap list_omap]. rewrite IH.
  assert (asTask (JObj task) = Some task) as ->; [|done].
  by apply asTask_Some.
Qed.

Lemma no_null_in_tasks (l : list JsObject) : ¬ In JNull (map JObj l).
Proof.
  induction l as [|task l IH]; [intros []|]. cbn. intros [E|H]; [discriminate E|by apply IH].
Qed.

(** X23. Saving and loading again.  In every state the component can
    reach, when the host's JSON text of the task list is not empty and
    parses back to the value it was made from, [loadTasks] after
    [persistTasks] gives the same task list, in the same order. *)
Theorem persisted_tasks_load_back (host : JsonHost) (trim : string → string)
    (stored : option string) (events : list TaskEvent) :
  let t := taskRun host trim events (initialTasksTab stored) in
  let text := JSON_stringify host 0 (tasksJson (tasks t)) in
  text ≠ EmptyString → JSON_parse host text = Some (tasksJson (tasks t)) →
  storedTasks (persistTasks host t) = Some text
  ∧ tasks (loadTasks host (persistTasks host t)) = tasks t.
Proof.
  cbv zeta. intros Hne Hparse. split; [done|].
  assert (Forall taskOk (tasks (taskRun host trim events (initialTasksTab stored)))) as Hok
    by (apply taskRun_ok; constructor).
  unfold loadTasks, persistTasks. cbn [storedTasks with_storedTasks tasks].
  rewrite bool_decide_eq_false_2, Hparse by done. unfold tasksJson.
  pose proof (filterTasks_spec (map JObj (tasks (taskRun host trim events
                                                 (initialTasksTab stored))))) as H.
  destruct (filterTasks _) as [kept|].
  - destruct H as [_ ->]. cbn. by apply omap_asTask_tasks.
  - by destruct (no_null_in_tasks _ H).
Qed.

Lemma filter_negb_hasId (uuid : string) (l : list JsObject) :
  Forall (λ task, hasId uuid task = false) l →
  List.filter (λ task, negb (hasId uuid task)) l = l.
Proof.
  induction 1 as [|task l H _ IH]; [done|]. cbn. by rewrite H, IH.
Qed.

(** X24. Submitting a draft that is not blank puts one new task in front
    of the list (with the trimmed text, the new UUID and the time of the
    submission) and clears the draft; ticking that task, whose id no older
    task carries, gives back the list from before.  Submitting a blank
    draft changes neither the list nor the draft. *)
Theorem added_task_goes_first_and_check_removes_it (trim : string → string)
    (uuid : string) (now : Z) (t : TasksTab) :
  trim (draftTask t) ≠ EmptyString →
  Forall (λ task, hasId uuid task = false) (tasks t) →
  let added := addTask trim uuid now t in
  tasks added = newTask uuid (trim (draftTask t)) now :: tasks t
  ∧ draftTask added = EmptyString ∧ hintMessage added = HintCheckToDelete
  ∧ tasks (completeTask uuid added) = tasks t
  ∧ hintMessage (completeTask uuid added) = HintTaskDeleted
  ∧ ∀ blank, trim (draftTask blank) = EmptyString →
      addTask trim uuid now blank = with_hintMessage HintBlankTask blank.
Proof.
  intros Hne Hfresh. cbv zeta. unfold addTask. cbv zeta.
  rewrite bool_decide_eq_false_2 by done.
  cbn [tasks draftTask hintMessage with_tasks with_draftTask with_hintMessage].
  split_and!; try done.
  - unfold completeTask. cbn [tasks with_tasks with_draftTask with_hintMessage List.filter].
    assert (hasId uuid (newTask uuid (trim (draftTask t)) now) = true) as ->.
    { unfold hasId.
      change (getField (newTask uuid (trim (draftTask t)) now) "id") with (Some (JStr uuid)).
      cbv beta iota. by apply bool_decide_eq_true_2. }
    cbn [negb]. by apply filter_negb_hasId.
  - intros blank Hb. by rewrite bool_decide_eq_true_2.
Qed.

(** * The window pin *)

(** X25. The stored preference counts as "always on top" exactly when
    the preferences file exists, can be read, parses as JSON to an object
    and that object has the boolean [true] under "alwaysOnTop".  A missing
    or unreadable file, a syntax error, [null], a value that is not an
    object and a property of another type all give the default, which is
    off. *)
Theorem preferences_read_falls_back_to_default (host : JsonHost)
    (file : PreferencesFile) :
  alwaysOnTop (PreferencesStore.read host file) = true
  ↔ ∃ rawText fields,
      file = FileText rawText ∧ JSON_parse host rawText = Some (JObj fields)
      ∧ getField fields "alwaysOnTop" = Some (JBool true).
Proof.
  unfold PreferencesStore.read, PreferencesStore.sanitize. split.
  - destruct file as [| |rawText]; [done|done|].
    destruct (JSON_parse host rawText) as [[|b|n|s|elements|fields]|] eqn:Ep; try done.
    cbn. destruct (getField fields "alwaysOnTop") as [[|[]|n|s|elements|fields']|] eqn:Ef;
      try done.
    intros _. by exists rawText, fields.
  - intros (rawText & fields & -> & -> & ->). done.
Qed.

Lemma read_written (host : JsonHost) (preferences : UiPreferences) :
  JSON_parse host (JSON_stringify host 2 (PreferencesStore.toJson preferences))
  = Some (PreferencesStore.toJson preferences) →
  PreferencesStore.read host (PreferencesStore.write host preferences) = preferences.
Proof.
  intros Hparse. unfold PreferencesStore.read, PreferencesStore.write. rewrite Hparse.
  by destruct preferences.
Qed.

(** X26. The pin survives a restart.  After the main process has handled
    a request to set the pin, the preferences file holds the JSON text of
    the requested value; when that text parses back to the value it was
    made from, a process started later creates its window with the
    requested always-on-top state and answers a query for the pin with
    it, before and after the window exists. *)
Theorem pin_survives_restart (host : JsonHost) (requested : bool) (m : MainProcess) :
  let preferences := {| alwaysOnTop := requested |} in
  let text := JSON_stringify host 2 (PreferencesStore.toJson preferences) in
  JSON_parse host text = Some (PreferencesStore.toJson preferences) →
  let handled := Main.setAlwaysOnTop host requested m in
  let file := preferencesFile handled.2 in
  let restarted := Main.createMainWindow host (startedProcess file) in
  handled.1 = {| enabled := requested |}
  ∧ file = FileText text
  ∧ PreferencesStore.read host file = preferences
  ∧ Main.getAlwaysOnTop host (startedProcess file) = {| enabled := requested |}
  ∧ mainWindow restarted = Some {| isAlwaysOnTop := requested |}
  ∧ Main.getAlwaysOnTop host restarted = {| enabled := requested |}.
Proof.
  cbv zeta. intros Hparse.
  pose proof (read_written host {| alwaysOnTop := requested |} Hparse) as Hread.
  unfold Main.setAlwaysOnTop, PreferencesStore.setAlwaysOnTop. cbv zeta.
  cbn [fst snd preferencesFile].
  unfold Main.getAlwaysOnTop, Main.createMainWindow, startedProcess.
  cbn [mainWindow preferencesFile]. rewrite Hread. cbn [alwaysOnTop].
  split_and!; try done; by destruct requested.
Qed.

Lemma pinStep_ok (host : JsonHost) (s : PinSystem) (e : PinEvent) :
  pinOk s → pinOk (pinStep host s e).
Proof.
  intros (Hbusy & window & Hw & Hans & Hidle).
  destruct e as [checked| | | |tab]; cbn [pinStep].
  - destruct (App.isPinBusy (shell s)) eqn:Eb.
    { split; [by rewrite Eb|]. by exists window. }
    cbn. split; [done|]. exists window. by split_and!.
  - destruct (flight s) as [|[|checked]|request result] eqn:Ef.
    + split; [by rewrite Ef|]. exists window. by rewrite Ef.
    + cbn. split; [by rewrite Hbusy|]. exists window. split_and!; [done| |done].
      intros request result [= <- <-]. unfold Main.getAlwaysOnTop. by rewrite Hw.
    + unfold Main.setAlwaysOnTop, PreferencesStore.setAlwaysOnTop. cbv zeta. rewrite Hw.
      cbn. split; [by rewrite Hbusy|]. eexists. split_and!; [done| |done].
      by intros request result [= <- <-].
    + split; [by rewrite Ef|]. exists window. by rewrite Ef.
  - destruct (flight s) as [|request|request result] eqn:Ef.
    + split; [by rewrite Ef|]. exists window. by rewrite Ef.
    + split; [by rewrite Ef|]. exists window. by rewrite Ef.
    + cbn. split; [by destruct request|]. exists window. split_and!; [done|done|].
      intros _ _. rewrite <- (Hans request result eq_refl). by destruct request.
  - destruct (flight s) as [|request|request result] eqn:Ef.
    + split; [by rewrite Ef|]. exists window. by rewrite Ef.
    + cbn. split; [by destruct request|]. exists window. split_and!; [done|done|].
      intros _. by destruct request.
    + cbn. split; [by destruct request|]. exists window. split_and!; [done|done|].
      intros _. by destruct request.
  - cbn. split; [done|]. by exists window.
Qed.

Lemma mountedSystem_ok (host : JsonHost) (file : PreferencesFile) :
  pinOk (mountedSystem host file).
Proof.
  split; [done|]. unfold mountedSystem, Main.createMainWindow. cbn.
  eexists. by split_and!.
Qed.

(** X27. The pin switch never lies.  From the moment the shell is
    mounted, whatever the user toggles or clicks and however the requests
    are handled, answered or rejected: the switch is busy (and disabled)
    exactly while a request is under way, so that requests never overlap;
    and whenever no request is under way and no error is shown, the switch
    shows the always-on-top state that the window has. *)
Theorem pin_switch_agrees_with_window (host : JsonHost) (file : PreferencesFile)
    (events : list PinEvent) :
  let s := pinRun host events (mountedSystem host file) in
  (App.isPinBusy (shell s) = true ↔ flight s ≠ FlightIdle)
  ∧ ∃ window,
      mainWindow (main s) = Some window
      ∧ (flight s = FlightIdle → App.pinError (shell s) = PinErrorNone →
         App.alwaysOnTop (shell s) = isAlwaysOnTop window).
Proof.
  cbv zeta.
  assert (∀ s, pinOk s → pinOk (pinRun host events s)) as Hrun.
  { induction events as [|e events IH]; intros s Hs; [done|].
    apply (IH (pinStep host s e)). by apply pinStep_ok. }
  destruct (Hrun _ (mountedSystem_ok host file)) as (Hbusy & window & Hw & _ & Hidle).
  split; [done|]. by exists window.
Qed.

(** * Eviction order and drags *)

(** ** First in, first out *)







(** ** A drag depends on the pointer position only *)

Lemma updateItem_updateItem (itemId : string) (f g : CanvasImageItem → CanvasImageItem)
    (s : ClipboardCanvasState) :
  (∀ item, id (f item) = id item) → (∀ item, g (f item) = g item) →
  updateItem itemId g (updateItem itemId f s) = updateItem itemId g s.
Proof.
  intros Hf Hg. unfold updateItem. cbn [items with_items selectedId nextZIndex
    placementOffsetIndex]. unfold with_items. cbn. f_equal.
  rewrite map_map. apply map_ext. intros item. cbv beta.
  destruct (decide (id item = itemId)) as [E|E].
  - rewrite !(bool_decide_eq_true_2 (id item = itemId)) by done. cbv iota.
    rewrite (bool_decide_eq_true_2 (id (f item) = itemId)) by (by rewrite Hf).
    apply Hg.
  - rewrite !(bool_decide_eq_false_2 (id item = itemId)) by done. done.
Qed.

Lemma handlePointerMove_twice (c1 c2 : Q * Q) (w : World) :
  handlePointerMove c2.1 c2.2 (handlePointerMove c1.1 c1.2 w)
  = handlePointerMove c2.1 c2.2 w.
Proof.
  rewrite (handlePointerMove_unfold c1.1 c1.2 w).
  destruct (interaction w) as [i|] eqn:Ei; [|done].
  destruct (getItemById (itemId i) (state w)) as [item|] eqn:Eg.
  - rewrite !handlePointerMove_unfold. cbn [interaction state with_state]. rewrite Ei, Eg.
    assert (getItemById (itemId i)
              (updateItem (itemId i) (pointerUpdate i item c1.1 c1.2) (state w))
            = Some (pointerUpdate i item c1.1 c1.2 item)) as ->.
    { apply updateItem_getItemById; [|done]. intros it. apply pointerUpdate_id. }
    unfold with_state. cbn. f_equal.
    assert (pointerUpdate i (pointerUpdate i item c1.1 c1.2 item) c2.1 c2.2
            = pointerUpdate i item c2.1 c2.2) as -> by (by destruct i).
    apply updateItem_updateItem.
    + intros it. apply pointerUpdate_id.
    + intros it. by destruct i.
  - rewrite (handlePointerMove_unfold c2.1 c2.2 w), Ei, Eg.
    rewrite handlePointerMove_unfold. unfold stopInteraction. by rewrite Ei.
Qed.

(** X29. During a drag the canvas depends on the current pointer
    position only, not on the way the pointer took: any sequence of
    pointer moves followed by a move to a position gives the same world
    as that last move alone. *)
Theorem drag_depends_on_last_pointer_position (moves : list (Q * Q)) (cx cy : Q)
    (w : World) :
  run (pointerMoves (moves ++ [(cx, cy)])) w = handlePointerMove cx cy w.
Proof.
  revert w. induction moves as [|c moves IH]; intros w; [done|].
  change (run (pointerMoves ((c :: moves) ++ [(cx, cy)])) w)
    with (run (pointerMoves (moves ++ [(cx, cy)])) (handlePointerMove c.1 c.2 w)).
  rewrite IH. apply (handlePointerMove_twice c (cx, cy)).
Qed.

(** * The further properties at concrete inputs *)

Ltac by_computation := first [ vm_compute; reflexivity | vm_compute; discriminate
                             | apply (bool_decide_unpack _); vm_compute; exact I ].

(** X3 on the world after two pastes. *)
Lemma stacking_order_is_strict_witness :
  reachable twoItemWorld
  ∧ ∀ a, a ∈ items (state twoItemWorld) →
         1 ≤ zIndex a < nextZIndex (state twoItemWorld) ∧ id a ≠ EmptyString.
Proof.
  split; [exact twoItemWorld_reachable|].
  exact (proj2 (proj2 (proj1 (stacking_order_is_strict twoItemWorld
                                twoItemWorld_reachable)))).
Defined.

(** X4: selecting the lower of two pasted items. *)
Lemma selected_item_is_on_top_witness :
  reachable twoItemWorld
  ∧ getItemById (sampleUuid 0) (state twoItemWorld) = Some pastedItem
  ∧ ∃ raised,
      getItemById (sampleUuid 0) (selectItem (sampleUuid 0) (state twoItemWorld))
      = Some raised
      ∧ ∀ other, other ∈ items (selectItem (sampleUuid 0) (state twoItemWorld)) →
                 other ≠ raised → zIndex other < zIndex raised.
Proof.
  assert (getItemById (sampleUuid 0) (state twoItemWorld) = Some pastedItem) as H2
    by by_computation.
  destruct (selected_item_is_on_top twoItemWorld (sampleUuid 0) pastedItem
              twoItemWorld_reachable H2) as (raised & E1 & _ & _ & E2).
  split; [exact twoItemWorld_reachable|]. split; [exact H2|].
  exists raised. split; [exact E1|exact E2].
Defined.

(** X5: a third paste. *)
Lemma added_item_is_selected_and_on_top_witness :
  reachable twoItemWorld
  ∧ uuidOk (state twoItemWorld) (sampleEnv 2)
  ∧ (length (items (state twoItemWorld)) < MAX_IMAGES)%nat
  ∧ ∃ new,
      items (addCanvasItem (sampleEnv 2) "data:,c" 10 10 SourcePaste (state twoItemWorld))
      = items (state twoItemWorld) ++ [new]
      ∧ selectedItem
          (addCanvasItem (sampleEnv 2) "data:,c" 10 10 SourcePaste (state twoItemWorld))
        = Some new.
Proof.
  assert (uuidOk (state twoItemWorld) (sampleEnv 2)) as H2
    by (split; by_computation).
  assert (length (items (state twoItemWorld)) < MAX_IMAGES)%nat as H3
    by (vm_compute; lia).
  destruct (added_item_is_selected_and_on_top twoItemWorld (sampleEnv 2) "data:,c" 10 10
              SourcePaste twoItemWorld_reachable H2 H3) as (new & E1 & E2 & _).
  split; [exact twoItemWorld_reachable|]. split; [exact H2|]. split; [exact H3|].
  exists new. split; [exact E1|exact E2].
Defined.

(** X6: a second paste and undo. *)
Lemma undo_reverts_paste_witness :
  interaction oneItemWorld = None
  ∧ state (undo (handlePaste true (ReadImage "image/png" samplePayload) (sampleEnv 1)
                   oneItemWorld))
    = state oneItemWorld.
Proof.
  assert (interaction oneItemWorld = None) as H1 by by_computation.
  split; [exact H1|].
  exact (proj1 (proj2 (undo_reverts_paste "image/png" samplePayload (sampleEnv 1)
                         oneItemWorld H1))).
Defined.


(** X8: deleting the second of two pasted items. *)
Lemma delete_removes_selected_item_undoably_witness :
  reachable twoItemWorld ∧ interaction twoItemWorld = None
  ∧ key deleteKey = "Delete"
  ∧ selectedItem (state twoItemWorld) = Some secondPastedItem
  ∧ items (state (handleKeyDown true false deleteKey twoItemWorld).1)
    = filter (λ it, it ≠ secondPastedItem) (items (state twoItemWorld))
  ∧ state (undo (handleKeyDown true false deleteKey twoItemWorld).1)
    = state twoItemWorld.
Proof.
  assert (interaction twoItemWorld = None) as H2 by by_computation.
  assert (selectedItem (state twoItemWorld) = Some secondPastedItem) as H3
    by by_computation.
  pose proof (delete_removes_selected_item_undoably deleteKey twoItemWorld
                secondPastedItem twoItemWorld_reachable H2 eq_refl H3)
    as (E1 & _ & _ & _ & _ & _ & _ & E2 & _).
  split; [exact twoItemWorld_reachable|]. split; [exact H2|]. split; [reflexivity|].
  split; [exact H3|]. split; [exact E1|exact E2].
Defined.

(** X9: a click on the lower of two pasted items. *)
Lemma click_enters_history_only_when_raising_witness :
  reachable twoItemWorld
  ∧ getItemById (sampleUuid 0) (state twoItemWorld) = Some pastedItem
  ∧ interaction (handlePointerUp (startMove true 0 0 0 (sampleUuid 0) twoItemWorld)) = None
  ∧ selectedId (state (handlePointerUp (startMove true 0 0 0 (sampleUuid 0) twoItemWorld)))
    = Some (sampleUuid 0).
Proof.
  assert (getItemById (sampleUuid 0) (state twoItemWorld) = Some pastedItem) as H2
    by by_computation.
  pose proof (click_enters_history_only_when_raising twoItemWorld (sampleUuid 0)
                pastedItem 0 0 twoItemWorld_reachable H2) as (E1 & E2 & _).
  split; [exact twoItemWorld_reachable|]. split; [exact H2|]. split; [exact E1|exact E2].
Defined.

(** X10: a south-east resize of the pasted item by (10, 5). *)
Lemma undo_restores_committed_resize_witness :
  getItemById (sampleUuid 0) (state oneItemWorld) = Some pastedItem
  ∧ interaction
      (handlePointerUp
         (run (pointerMoves [(10%Q, 5%Q)])
            (startResize true 0 0 0 (sampleUuid 0) Hse oneItemWorld))) = None.
Proof.
  assert (getItemById (sampleUuid 0) (state oneItemWorld) = Some pastedItem) as H1
    by by_computation.
  split; [exact H1|].
  exact (proj1 (undo_restores_committed_resize oneItemWorld 0 0 (sampleUuid 0) Hse
                  pastedItem [(10%Q, 5%Q)] H1)).
Defined.

(** X11: the pasted item dragged by (10.5, 5). *)
Lemma move_follows_pointer_inside_canvas_witness :
  interaction sessionWorld = Some (Move sampleMove)
  ∧ getItemById (mv_itemId sampleMove) (state sessionWorld) = Some pastedItem
  ∧ itemOk pastedItem
  ∧ getItemById (mv_itemId sampleMove) (state (handlePointerMove (21 # 2) 5 sessionWorld))
    = Some (item_with_position
              (clampZ (950 + jsRound ((21 # 2) - 0)) 0 (CANVAS_WIDTH - 100))
              (clampZ (950 + jsRound (5 - 0)) 0 (CANVAS_HEIGHT - 100)) pastedItem).
Proof.
  assert (interaction sessionWorld = Some (Move sampleMove)) as H1 by by_computation.
  assert (getItemById (mv_itemId sampleMove) (state sessionWorld) = Some pastedItem) as H2
    by by_computation.
  assert (itemOk pastedItem) as H3.
  { unfold itemOk, geometryOk. vm_compute. repeat split; discriminate. }
  split; [exact H1|]. split; [exact H2|]. split; [exact H3|].
  exact (proj1 (move_follows_pointer_inside_canvas sessionWorld sampleMove pastedItem
                  (21 # 2) 5 H1 H2 H3)).
Defined.

(** X12 on a south-east corner drag of 50 pixels to the right. *)
Lemma corner_resize_keeps_opposite_corner_witness :
  startOk cornerStart
  ∧ resultOk (computeCornerResize cornerStart 50 0)
  ∧ g_x (computeCornerResize cornerStart 50 0) = 100
  ∧ g_y (computeCornerResize cornerStart 50 0) = 100.
Proof.
  assert (startOk cornerStart) as H1.
  { unfold startOk, geometryOk. vm_compute. repeat split; discriminate. }
  pose proof (corner_resize_keeps_opposite_corner cornerStart 50 0 H1) as (E1 & E2 & E3).
  split; [exact H1|]. split; [exact E1|]. split; [exact E2|exact E3].
Defined.

(** X13 on the west handle pulled by half a pixel. *)
Lemma edge_resize_closed_form_witness :
  startOk halfPixelStart
  ∧ computeEdgeResize halfPixelStart (1 # 2) 0
    = {| g_x := clampZ (1900 + jsRound (1 # 2)) 0 (1900 + 100 - MIN_SIZE); g_y := 950;
         g_width := clampZ (100 + jsRound (- (1 # 2))) MIN_SIZE (1900 + 100);
         g_height := 100 |}.
Proof.
  assert (startOk halfPixelStart) as H1.
  { unfold startOk, geometryOk. vm_compute. repeat split; discriminate. }
  split; [exact H1|].
  exact (proj1 (edge_resize_closed_form halfPixelStart (1 # 2) 0 H1)).
Defined.

Lemma wholePixelDrag_reachable : reachableInt (run wholePixelDrag initialWorld).
Proof.
  exists wholePixelDrag. split; [|reflexivity].
  cbn [runOk eventOk wholePixelDrag samplePaste].
  split; [split; by_computation|].
  split; [split; by_computation|].
  split; [split; by_computation|].
  split; exact I.
Defined.

(** X15 on a paste followed by a drag in whole pixels. *)
Lemma whole_pixel_pointers_keep_geometry_witness :
  reachableInt (run wholePixelDrag initialWorld)
  ∧ Forall itemOk (items (state (run wholePixelDrag initialWorld))).
Proof.
  split; [exact wholePixelDrag_reachable|].
  exact (proj1 (whole_pixel_pointers_keep_geometry _ wholePixelDrag_reachable)).
Defined.

(** X17: pasting the sample image into the empty canvas and copying it. *)
Lemma paste_then_copy_hands_back_same_png_witness :
  img_isEmpty sampleImage = false ∧ img_pngBase64 sampleImage ≠ EmptyString
  ∧ uuidOk (state initialWorld) (sampleEnv 0)
  ∧ (length (items (state initialWorld)) < MAX_IMAGES)%nat
  ∧ (copySelectedImage true
       (handlePaste true (readClipboardImage sampleImage) (sampleEnv 0) initialWorld)).2
    = Some {| cwp_mimeType := "image/png"; cwp_base64 := "AAAA" |}.
Proof.
  assert (img_pngBase64 sampleImage ≠ EmptyString) as H2 by discriminate.
  assert (uuidOk (state initialWorld) (sampleEnv 0)) as H3 by (split; by_computation).
  assert (length (items (state initialWorld)) < MAX_IMAGES)%nat as H4
    by (vm_compute; lia).
  pose proof (paste_then_copy_hands_back_same_png sampleImage (sampleEnv 0) initialWorld
                eq_refl H2 H3 H4) as [_ E].
  split; [reflexivity|]. split; [exact H2|]. split; [exact H3|]. split; [exact H4|].
  exact (f_equal snd E).
Defined.

(** X18: the payload of a copy of the pasted item, on a working host. *)
Lemma copy_payload_passes_validation_witness :
  (copySelectedImage true oneItemWorld).2
  = Some {| cwp_mimeType := "image/png"; cwp_base64 := "AAAA" |}
  ∧ (ok (writeClipboardImage sampleClipboardHost
           (Some {| cwp_mimeType := "image/png"; cwp_base64 := "AAAA" |})) = true
     ↔ reason (writeClipboardImage sampleClipboardHost
                 (Some {| cwp_mimeType := "image/png"; cwp_base64 := "AAAA" |})) = None).
Proof.
  assert ((copySelectedImage true oneItemWorld).2
          = Some {| cwp_mimeType := "image/png"; cwp_base64 := "AAAA" |}) as H1
    by by_computation.
  split; [exact H1|].
  exact (proj2 (proj2 (proj2 (proj2 (copy_payload_passes_validation true oneItemWorld _
                                       sampleClipboardHost H1))))).
Defined.

(** X19: a paste that arrives while the tab is not active. *)
Lemma turned_away_events_change_nothing_witness :
  turnedAway (samplePaste 0) = false
  ∧ turnedAway (EvPaste false ReadNothing (sampleEnv 0)) = true
  ∧ handle (EvPaste false ReadNothing (sampleEnv 0)) oneItemWorld = (oneItemWorld, None).
Proof.
  split; [reflexivity|]. split; [reflexivity|].
  exact (proj1 (turned_away_events_change_nothing (EvPaste false ReadNothing (sampleEnv 0))
                  oneItemWorld eq_refl)).
Defined.

Lemma sessionWorld_reachable : reachable sessionWorld.
Proof.
  exists [samplePaste 0; EvItemMouseDown true 0 0 0 (sampleUuid 0)]. split; [|reflexivity].
  cbn [runOk eventOk samplePaste]. split; [split; by_computation|]. by split.
Defined.

(** X20: the Delete key during the move session on the pasted item. *)
Lemma session_ends_when_its_item_is_deleted_witness :
  reachable sessionWorld ∧ interaction sessionWorld = Some (Move sampleMove)
  ∧ selectedItem (state sessionWorld) = Some pastedItem
  ∧ interaction (handleKeyDown true false deleteKey sessionWorld).1
    = Some (Move sampleMove)
  ∧ interaction
      (handlePointerMove 3 4 (handleKeyDown true false deleteKey sessionWorld).1) = None.
Proof.
  assert (interaction sessionWorld = Some (Move sampleMove)) as H2 by by_computation.
  assert (selectedItem (state sessionWorld) = Some pastedItem) as H3 by by_computation.
  pose proof (session_ends_when_its_item_is_deleted sessionWorld (Move sampleMove)
                pastedItem deleteKey 3 4 sessionWorld_reachable H2 H3 eq_refl eq_refl)
    as (E1 & _ & _ & E2 & _).
  split; [exact sessionWorld_reachable|]. split; [exact H2|]. split; [exact H3|].
  split; [exact E1|]. rewrite E2. reflexivity.
Defined.

(** X23: one task added, saved and loaded again. *)
Lemma persisted_tasks_load_back_witness :
  tasks (taskRun sampleTaskHost (λ s, s) sampleTaskEvents (initialTasksTab None))
  = [sampleTask]
  ∧ tasks (loadTasks sampleTaskHost
             (persistTasks sampleTaskHost
                (taskRun sampleTaskHost (λ s, s) sampleTaskEvents (initialTasksTab None))))
    = tasks (taskRun sampleTaskHost (λ s, s) sampleTaskEvents (initialTasksTab None)).
Proof.
  split; [reflexivity|].
  refine (proj2 (persisted_tasks_load_back sampleTaskHost (λ s, s) None sampleTaskEvents
                   _ _)).
  - discriminate.
  - reflexivity.
Defined.

(** X24: the task "buy milk" added to the empty list and ticked. *)
Lemma added_task_goes_first_and_check_removes_it_witness :
  draftTask (with_draftTask "buy milk" (initialTasksTab None)) ≠ EmptyString
  ∧ tasks (addTask (λ s, s) "u1" 5 (with_draftTask "buy milk" (initialTasksTab None)))
    = [sampleTask]
  ∧ tasks (completeTask "u1"
             (addTask (λ s, s) "u1" 5 (with_draftTask "buy milk" (initialTasksTab None))))
    = [].
Proof.
  assert (draftTask (with_draftTask "buy milk" (initialTasksTab None)) ≠ EmptyString) as H1
    by discriminate.
  pose proof (added_task_goes_first_and_check_removes_it (λ s, s) "u1" 5
                (with_draftTask "buy milk" (initialTasksTab None)) H1 (Forall_nil_2 _))
    as (E1 & _ & _ & E2 & _).
  split; [exact H1|]. split; [exact E1|exact E2].
Defined.

(** X26: the pin switched on, then a restart. *)
Lemma pin_survives_restart_witness :
  JSON_parse samplePinHost
    (JSON_stringify samplePinHost 2 (PreferencesStore.toJson {| alwaysOnTop := true |}))
  = Some (PreferencesStore.toJson {| alwaysOnTop := true |})
  ∧ mainWindow
      (Main.createMainWindow samplePinHost
         (startedProcess
            (preferencesFile
               (Main.setAlwaysOnTop samplePinHost true (startedProcess FileMissing)).2)))
    = Some {| isAlwaysOnTop := true |}.
Proof.
  split; [reflexivity|].
  pose proof (pin_survives_restart samplePinHost true (startedProcess FileMissing) eq_refl)
    as (_ & _ & _ & _ & E & _).
  exact E.
Defined.


